(** * Hyperparameters.py: a shallow embedding and its verified properties

    The development follows [Hyperparameters.py] function by function.

    Conventions of the embedding.
    - The interpreter is Python 3 (the module imports [pickle] under the
      name [cPickle]): dictionaries keep insertion order and [dict.keys()]
      is a live view of the dictionary it was taken from.
    - A Python [str] is represented by the bytes of its UTF-8 encoding, so
      that [s.encode('utf-8')] is the identity on the representation and the
      code-point order used for sorting keys is the byte-wise lexicographic
      order of [String.compare].
    - A [dict] is an association list in insertion order; Python never
      stores a key twice, which is the invariant [wf_dict].
    - NumPy arrays are one-dimensional integer arrays with the comparison
      rules of NumPy up to 1.24.  Floating-point values are not modelled.
    - Exceptions are values of [exn]; fallible code returns a [result].
    - The serializer [_sorted_str_from_dict] is modelled as a total
      function, on the dictionaries for which the program returns; the
      dictionaries for which it raises instead, and the arrays whose
      text is not modelled, are listed at [np_sort], [str_int] and
      [str_ndarray], and the predicate [printable] keeps clear of them.
      The theorems that state what the serializer or a hash method
      returns assume it; the theorems that compare the strings of two
      dictionaries with the same keys do not, as the program treats the
      two dictionaries alike.
    - The limit of the interpreter on the depth of recursion is not
      modelled. *)

From Stdlib Require Import ZArith List String Ascii Bool Lia Arith.
From Stdlib Require Import Permutation Sorted DecimalString OrderedTypeEx.
Import ListNotations.

Set Warnings "-register-all".

Local Open Scope Z_scope.
Local Open Scope list_scope.

(* ===================================================================== *)
(** * Exceptions and results *)
(* ===================================================================== *)

(** The exceptions the module raises or lets escape; a [ValueError]
    carries its message. *)
Inductive exn : Type :=
| ValueError (msg : string)
| AttributeError
| TypeError
| IndexError
| KeyError (key : string)
| ArgumentTypeError (msg : string).

Inductive result (A : Type) : Type :=
| Ok (a : A)
| Raise (e : exn).

Arguments Ok {A} a.
Arguments Raise {A} e.

Definition bind {A B : Type} (r : result A) (k : A -> result B) : result B :=
  match r with
  | Ok a => k a
  | Raise e => Raise e
  end.

Notation "x <- r ;; k" := (bind r (fun x => k))
  (at level 61, r at next level, right associativity).

Definition is_ok {A : Type} (r : result A) : bool :=
  match r with Ok _ => true | Raise _ => false end.

(* ===================================================================== *)
(** * Values and dictionaries *)
(* ===================================================================== *)

(** The values a hyperparameter takes in this development: [None],
    [bool], [int], [str], a NumPy integer vector, or a nested [dict].
    A [float], which the command-line parser accepts as well, is not
    among them. *)
Inductive value : Type :=
| VNone
| VBool (b : bool)
| VInt (n : Z)
| VStr (s : string)
| VArr (a : list Z)
| VDict (d : list (string * value)).

Abbreviation pydict := (list (string * value)).

(** [d.get(k)] *)
Fixpoint dict_get (k : string) (d : pydict) : option value :=
  match d with
  | [] => None
  | (k', v) :: d' => if String.eqb k k' then Some v else dict_get k d'
  end.

(** [k in d] *)
Definition dict_mem (k : string) (d : pydict) : bool :=
  match dict_get k d with Some _ => true | None => false end.

(** [d[k] = v]: an existing key keeps its position, a new key goes last. *)
Fixpoint dict_set (k : string) (v : value) (d : pydict) : pydict :=
  match d with
  | [] => [(k, v)]
  | (k', v') :: d' =>
      if String.eqb k k' then (k', v) :: d' else (k', v') :: dict_set k v d'
  end.

(** [list(d.keys())] *)
Definition dict_keys (d : pydict) : list string := map fst d.

(** [d.update(other)] *)
Definition dict_update (d other : pydict) : pydict :=
  fold_left (fun acc kv => dict_set (fst kv) (snd kv) acc) other d.

(** Representation invariant of dictionaries: no key occurs twice, at any
    depth. *)
Fixpoint wf_value (v : value) : Prop :=
  match v with
  | VDict d =>
      NoDup (map fst d) /\
      (fix all (l : pydict) : Prop :=
         match l with
         | [] => True
         | (_, x) :: l' => wf_value x /\ all l'
         end) d
  | _ => True
  end.

Definition wf_dict (d : pydict) : Prop := wf_value (VDict d).

(** Two values have the same content: equal leaves, and dictionaries that
    bind the same keys to values with the same content, whatever the
    insertion order. *)
Inductive same_content : value -> value -> Prop :=
| sc_refl v : same_content v v
| sc_dict d1 d2 :
    (forall k, dict_get k d1 = None <-> dict_get k d2 = None) ->
    (forall k v1 v2, dict_get k d1 = Some v1 -> dict_get k d2 = Some v2 ->
                     same_content v1 v2) ->
    same_content (VDict d1) (VDict d2).

(* ===================================================================== *)
(** * Text of values: [str(val)] *)
(* ===================================================================== *)

(** [str(n)] for an [int]: its decimal digits, after a minus sign when
    it is negative.  From Python 3.11 on, [str] raises a [ValueError] for
    an [int] of more than 4300 digits; this is the text within that
    limit. *)
Definition str_int (n : Z) : string := NilZero.string_of_int (Z.to_int n).

Fixpoint spaces (n : nat) : string :=
  match n with
  | O => EmptyString
  | S n' => String " "%char (spaces n')
  end.

(** [s.rjust(w)] *)
Definition rjust (w : nat) (s : string) : string :=
  String.append (spaces (w - String.length s)) s.

(** [str] of a one-dimensional array of 64-bit integers that fits on one
    line: the items right-justified to the widest one and separated by a
    blank.  NumPy breaks a text of more than 75 columns into lines,
    abbreviates an array of more than 1000 items, and holds integers
    beyond 64 bits as objects, which it prints without the padding: the
    text of such arrays is not modelled. *)
Definition str_ndarray (a : list Z) : string :=
  let items := map str_int a in
  let w := fold_right (fun s m => Nat.max (String.length s) m) O items in
  String.append "[" (String.append (String.concat " " (map (rjust w) items)) "]").

(** [str(val)] for a value that is not a [dict]; the serializer never asks
    for the text of a dictionary. *)
Definition py_str (v : value) : string :=
  match v with
  | VNone => "None"
  | VBool true => "True"
  | VBool false => "False"
  | VInt n => str_int n
  | VStr s => s
  | VArr a => str_ndarray a
  | VDict _ => EmptyString
  end.

(* ===================================================================== *)
(** * Canonical serializer: [_sorted_str_from_dict] *)
(* ===================================================================== *)

(** [numpy.sort] on a list of strings: ascending code-point order.
    NumPy holds the strings in an array of fixed width and gives back
    without its trailing NUL characters a string that ends in some; the
    strings here come back as they are, which is what NumPy does for the
    strings that do not end in a NUL character. *)
Fixpoint insert_sorted (k : string) (l : list string) : list string :=
  match l with
  | [] => [k]
  | h :: t => if String.leb k h then k :: l else h :: insert_sorted k t
  end.

Definition np_sort (l : list string) : list string :=
  fold_right insert_sorted [] l.

(** [''.join(str_items)] *)
Definition join (items : list string) : string := String.concat "" items.

(** The loop [for key in sorted_keys], with [str_of key] standing for
    [str_val]; [key_idx] counts from 1. *)
Fixpoint str_items_loop (str_of : string -> string) (n_keys key_idx : nat)
    (sorted_keys : list string) : list string :=
  match sorted_keys with
  | [] => []
  | key :: rest =>
      let new_entry := String.append key (String.append ": " (str_of key)) in
      new_entry ::
      (if Nat.ltb key_idx n_keys then [", "%string] else []) ++
      str_items_loop str_of n_keys (S key_idx) rest
  end.

(** The body of [_sorted_str_from_dict] for a dictionary with the keys
    [keys] whose values have the texts [str_of]. *)
Definition emit_dict (str_of : string -> string) (keys : list string) : string :=
  let sorted_keys := np_sort keys in
  let n_keys := List.length sorted_keys in
  join (("{"%string :: str_items_loop str_of n_keys 1%nat sorted_keys) ++ ["}"%string]).

(** [val = d[key]] followed by the text [str_of] gives to [val].  The
    loop takes [key] from the sorted keys of [d], which are keys of [d]
    when none of them ends in a NUL character: the lookup then finds the
    key, and the empty text of a missing key is never produced.  (For a
    key that [numpy.sort] gives back shortened, [d[key]] raises a
    [KeyError] or reads the value of another key.) *)
Definition str_of_item (str_of : value -> string) (key : string)
    : pydict -> string :=
  fix lookup (d : pydict) : string :=
    match d with
    | [] => EmptyString
    | (k, val) :: d' => if String.eqb key k then str_of val else lookup d'
    end.

(** [str_val] of the loop body: the recursive call when [val] is a [dict],
    [str(val)] otherwise; on a dictionary, the loop over its sorted
    keys. *)
Fixpoint str_val (val : value) : string :=
  match val with
  | VDict d => emit_dict (fun key => str_of_item str_val key d) (dict_keys d)
  | _ => py_str val
  end.

Definition _sorted_str_from_dict (d : pydict) : string := str_val (VDict d).

(* ===================================================================== *)
(** * SHA-512 ([hashlib.new('sha512')]) *)
(* ===================================================================== *)

(** The digest of FIPS 180-4 on 64-bit words, a word being a [Z] in
    [0, 2^64) with the wrap-around written out. *)
Module SHA512.

Definition mask : Z := Z.ones 64.
Definition wrap (x : Z) : Z := Z.land x mask.
Definition add (x y : Z) : Z := wrap (x + y).
Definition rotr (n x : Z) : Z :=
  Z.lor (Z.shiftr x n) (wrap (Z.shiftl x (64 - n))).
Definition shr (n x : Z) : Z := Z.shiftr x n.
Definition xor3 (x y z : Z) : Z := Z.lxor (Z.lxor x y) z.

Definition Ch (x y z : Z) : Z :=
  Z.lxor (Z.land x y) (Z.land (Z.lxor x mask) z).
Definition Maj (x y z : Z) : Z :=
  xor3 (Z.land x y) (Z.land x z) (Z.land y z).
Definition Sigma0 (x : Z) : Z := xor3 (rotr 28 x) (rotr 34 x) (rotr 39 x).
Definition Sigma1 (x : Z) : Z := xor3 (rotr 14 x) (rotr 18 x) (rotr 41 x).
Definition sigma0 (x : Z) : Z := xor3 (rotr 1 x) (rotr 8 x) (shr 7 x).
Definition sigma1 (x : Z) : Z := xor3 (rotr 19 x) (rotr 61 x) (shr 6 x).

Definition K : list Z := [
  0x428a2f98d728ae22; 0x7137449123ef65cd; 0xb5c0fbcfec4d3b2f; 0xe9b5dba58189dbbc;
  0x3956c25bf348b538; 0x59f111f1b605d019; 0x923f82a4af194f9b; 0xab1c5ed5da6d8118;
  0xd807aa98a3030242; 0x12835b0145706fbe; 0x243185be4ee4b28c; 0x550c7dc3d5ffb4e2;
  0x72be5d74f27b896f; 0x80deb1fe3b1696b1; 0x9bdc06a725c71235; 0xc19bf174cf692694;
  0xe49b69c19ef14ad2; 0xefbe4786384f25e3; 0x0fc19dc68b8cd5b5; 0x240ca1cc77ac9c65;
  0x2de92c6f592b0275; 0x4a7484aa6ea6e483; 0x5cb0a9dcbd41fbd4; 0x76f988da831153b5;
  0x983e5152ee66dfab; 0xa831c66d2db43210; 0xb00327c898fb213f; 0xbf597fc7beef0ee4;
  0xc6e00bf33da88fc2; 0xd5a79147930aa725; 0x06ca6351e003826f; 0x142929670a0e6e70;
  0x27b70a8546d22ffc; 0x2e1b21385c26c926; 0x4d2c6dfc5ac42aed; 0x53380d139d95b3df;
  0x650a73548baf63de; 0x766a0abb3c77b2a8; 0x81c2c92e47edaee6; 0x92722c851482353b;
  0xa2bfe8a14cf10364; 0xa81a664bbc423001; 0xc24b8b70d0f89791; 0xc76c51a30654be30;
  0xd192e819d6ef5218; 0xd69906245565a910; 0xf40e35855771202a; 0x106aa07032bbd1b8;
  0x19a4c116b8d2d0c8; 0x1e376c085141ab53; 0x2748774cdf8eeb99; 0x34b0bcb5e19b48a8;
  0x391c0cb3c5c95a63; 0x4ed8aa4ae3418acb; 0x5b9cca4f7763e373; 0x682e6ff3d6b2b8a3;
  0x748f82ee5defb2fc; 0x78a5636f43172f60; 0x84c87814a1f0ab72; 0x8cc702081a6439ec;
  0x90befffa23631e28; 0xa4506cebde82bde9; 0xbef9a3f7b2c67915; 0xc67178f2e372532b;
  0xca273eceea26619c; 0xd186b8c721c0c207; 0xeada7dd6cde0eb1e; 0xf57d4f7fee6ed178;
  0x06f067aa72176fba; 0x0a637dc5a2c898a6; 0x113f9804bef90dae; 0x1b710b35131c471b;
  0x28db77f523047d84; 0x32caab7b40c72493; 0x3c9ebe0a15c9bebc; 0x431d67c49c100d4c;
  0x4cc5d4becb3e42b6; 0x597f299cfc657e2a; 0x5fcb6fab3ad6faec; 0x6c44198c4a475817 ].

Record state : Type := State {
  ha : Z; hb : Z; hc : Z; hd : Z; he : Z; hf : Z; hg : Z; hh : Z }.

Definition H0 : state :=
  State 0x6a09e667f3bcc908 0xbb67ae8584caa73b 0x3c6ef372fe94f82b
        0xa54ff53a5f1d36f1 0x510e527fade682d1 0x9b05688c2b3e6c1f
        0x1f83d9abfb41bd6b 0x5be0cd19137e2179.

(** [n] bytes of [x], most significant first. *)
Fixpoint be_bytes (n : nat) (x : Z) : list Z :=
  match n with
  | O => []
  | S n' => Z.land (Z.shiftr x (8 * Z.of_nat n')) 255 :: be_bytes n' x
  end.

Definition be_word (bs : list Z) : Z :=
  fold_left (fun acc b => Z.lor (Z.shiftl acc 8) b) bs 0.

Definition pad (msg : list Z) : list Z :=
  let l := Z.of_nat (List.length msg) in
  msg ++ [128] ++ repeat 0 (Z.to_nat ((111 - l) mod 128)) ++ be_bytes 16 (8 * l).

(** The first [n] groups of [size] elements of [bs]. *)
Fixpoint chunks {A : Type} (size n : nat) (bs : list A) : list (list A) :=
  match n with
  | O => []
  | S n' => firstn size bs :: chunks size n' (skipn size bs)
  end.

Definition block_words (block : list Z) : list Z :=
  map be_word (chunks 8 16 block).

(** Message schedule: [n] more words after the ones in [w]. *)
Fixpoint extend (n : nat) (w : list Z) : list Z :=
  match n with
  | O => w
  | S n' =>
      let t := List.length w in
      let wt := add (add (add (sigma1 (nth (t - 2) w 0)) (nth (t - 7) w 0))
                         (sigma0 (nth (t - 15) w 0))) (nth (t - 16) w 0) in
      extend n' (w ++ [wt])
  end.

Definition round (s : state) (kw : Z * Z) : state :=
  let t1 := add (add (add (add (hh s) (Sigma1 (he s))) (Ch (he s) (hf s) (hg s)))
                     (fst kw)) (snd kw) in
  let t2 := add (Sigma0 (ha s)) (Maj (ha s) (hb s) (hc s)) in
  State (add t1 t2) (ha s) (hb s) (hc s) (add (hd s) t1) (he s) (hf s) (hg s).

Definition compress (s : state) (block : list Z) : state :=
  let w := extend 64 (block_words block) in
  let r := fold_left round (combine K w) s in
  State (add (ha s) (ha r)) (add (hb s) (hb r)) (add (hc s) (hc r))
        (add (hd s) (hd r)) (add (he s) (he r)) (add (hf s) (hf r))
        (add (hg s) (hg r)) (add (hh s) (hh r)).

Definition digest (msg : list Z) : state :=
  let p := pad msg in
  fold_left compress (chunks 128 (Nat.div (List.length p) 128) p) H0.

Definition hex_digit (x : Z) : ascii :=
  nth (Z.to_nat x) (list_ascii_of_string "0123456789abcdef") "0"%char.

Definition nibbles : list Z := [60; 56; 52; 48; 44; 40; 36; 32; 28; 24; 20; 16; 12; 8; 4; 0].

Definition hex_word (w : Z) : list ascii :=
  map (fun i => hex_digit (Z.land (Z.shiftr w i) 15)) nibbles.

Definition hex_state (s : state) : list ascii :=
  hex_word (ha s) ++ hex_word (hb s) ++ hex_word (hc s) ++ hex_word (hd s) ++
  hex_word (he s) ++ hex_word (hf s) ++ hex_word (hg s) ++ hex_word (hh s).

Definition bytes_of_string (s : string) : list Z :=
  map (fun c => Z.of_N (N_of_ascii c)) (list_ascii_of_string s).

(** [h.update(data); h.hexdigest()] *)
Definition hexdigest (data : string) : string :=
  string_of_list_ascii (hex_state (digest (bytes_of_string data))).

End SHA512.

(** [_generate_hash]: the SHA-512 hex digest of the canonical string.  The
    string is already its own UTF-8 encoding.  The function also prints
    the string; standard output is not part of the model. *)
Definition _generate_hash (hps : pydict) : string :=
  let str_to_hash := _sorted_str_from_dict hps in
  SHA512.hexdigest str_to_hash.

(* ===================================================================== *)
(** * Comparison of values: [==], [!=] and [numpy.all] *)
(* ===================================================================== *)

(** What [a == b] evaluates to when an operand is a NumPy array: an array
    of booleans, or a single boolean when NumPy gives up on the
    element-wise comparison. *)
Inductive np_cmp : Type :=
| Scalar (b : bool)
| Elems (bs : list bool).

Fixpoint zip_eqb (a b : list Z) : list bool :=
  match a, b with
  | x :: a', y :: b' => Z.eqb x y :: zip_eqb a' b'
  | _, _ => []
  end.

(** [a == b] for two arrays: element-wise on equal shapes, broadcast when
    one of them has a single element, the scalar [False] otherwise. *)
Definition arr_eq (a b : list Z) : np_cmp :=
  if Nat.eqb (List.length a) (List.length b) then Elems (zip_eqb a b)
  else match a, b with
       | [x], _ => Elems (map (Z.eqb x) b)
       | _, [y] => Elems (map (fun x => Z.eqb x y) a)
       | _, _ => Scalar false
       end.

(** [arr == other] for an operand that is not an array. *)
Definition arr_eq_other (a : list Z) (other : value) : np_cmp :=
  match other with
  | VInt n => Elems (map (fun x => Z.eqb x n) a)
  | VBool b => Elems (map (fun x => Z.eqb x (Z.b2z b)) a)
  | VStr _ => Scalar false
  | _ => Elems (map (fun _ => false) a)
  end.

(** [a == b] when [a] or [b] is an array. *)
Definition np_eq (a b : value) : np_cmp :=
  match a, b with
  | VArr x, VArr y => arr_eq x y
  | VArr x, _ => arr_eq_other x b
  | _, VArr y => arr_eq_other y a
  | _, _ => Scalar false
  end.

(** [bool(c)]: an array of two or more elements has no truth value. *)
Definition truth (c : np_cmp) : result bool :=
  match c with
  | Scalar b => Ok b
  | Elems [] => Ok false
  | Elems [b] => Ok b
  | Elems _ => Raise (ValueError "The truth value of an array with more than one element is ambiguous. Use a.any() or a.all()")
  end.

(** [numpy.all(a != b)] from the result of [a == b]. *)
Definition all_ne (c : np_cmp) : bool :=
  match c with
  | Scalar b => negb b
  | Elems bs => forallb negb bs
  end.

(** [bool(a == b)] when [a] and [b] are not both dictionaries.  [bool] is
    a subtype of [int], so that [True == 1]. *)
Definition scalar_eq (a b : value) : result bool :=
  match a, b with
  | VArr _, _ => truth (np_eq a b)
  | _, VArr _ => truth (np_eq a b)
  | VNone, VNone => Ok true
  | VBool x, VBool y => Ok (Bool.eqb x y)
  | VBool x, VInt n => Ok (Z.eqb (Z.b2z x) n)
  | VInt n, VBool y => Ok (Z.eqb n (Z.b2z y))
  | VInt m, VInt n => Ok (Z.eqb m n)
  | VStr s, VStr t => Ok (String.eqb s t)
  | _, _ => Ok false
  end.

(** The loop of the dictionary comparison: [test] on every item in order,
    up to the first one that is unequal or raises. *)
Definition all_items (test : string -> value -> result bool)
    : pydict -> result bool :=
  fix items (l : pydict) : result bool :=
    match l with
    | [] => Ok true
    | (k, v) :: l' => c <- test k v ;; if c then items l' else Ok false
    end.

(** [bool(a == b)].  Two dictionaries are equal when they have the same
    size and every item [(k, v)] of the left one has a value [w] under
    [k] in the right one with [v == w]; the items of the left dictionary
    are visited in its order, and the comparison stops at the first item
    that is unequal or raises.  CPython takes two values that are the
    same object as equal without comparing them; this is not modelled, as
    a value here has no identity.  It makes a difference only for a value
    that is not equal to itself, which among the values of this
    development is an array inside a dictionary: the theorems that rest
    on the comparison of dictionaries assume there is none
    ([plain_dict] below). *)
Fixpoint truth_eq (a b : value) {struct a} : result bool :=
  match a, b with
  | VDict d1, VDict d2 =>
      if Nat.eqb (List.length d1) (List.length d2) then
        all_items
          (fun k v =>
             match dict_get k d2 with
             | None => Ok false
             | Some w => truth_eq v w
             end) d1
      else Ok false
  | _, _ => scalar_eq a b
  end.

(** [np.all(val != dflt)] *)
Definition np_all_ne (val dflt : value) : result bool :=
  match val, dflt with
  | VArr _, _ => Ok (all_ne (np_eq val dflt))
  | _, VArr _ => Ok (all_ne (np_eq val dflt))
  | _, _ => c <- truth_eq val dflt ;; Ok (negb c)
  end.

(* ===================================================================== *)
(** * The store of dictionary objects *)
(* ===================================================================== *)

(** The dictionaries the caller passes in are mutable objects.  The store
    maps an address to the dictionary held there; an argument is [None] or
    the address of a dictionary, and two arguments may hold the same
    address. *)
Definition heap : Type := nat -> pydict.
Definition ref : Type := option nat.

Definition store (h : heap) (a : nat) (d : pydict) : heap :=
  fun a' => if Nat.eqb a' a then d else h a'.

(* ===================================================================== *)
(** * Configuration merger: [_parse] and [__init__] *)
(* ===================================================================== *)

(** The messages of the three [ValueError]s of the construction. *)
Definition msg_both (key : string) : string :=
  String.append "Hyperparameter [" (String.append key "] cannot be both hash and non-hash.").

Definition msg_invalid (key : string) : string :=
  String.append key " is not a valid hyperparameter (has no specified default).".

Definition msg_no_defaults : string :=
  "At lease one of default_hash_hps and default_non_hash_hps must be specified, but both were None.".

(** The loop [for key, val in input_hps.items()].  [default_hps] and
    [default_hash_hp_keys] are addresses: the merged defaults and the
    dictionary the key view was taken from. *)
Fixpoint parse_loop (h : heap) (default_hps default_hash_hp_keys : nat)
    (items hps hps_to_hash : pydict) : result (pydict * pydict) :=
  match items with
  | [] => Ok (hps, hps_to_hash)
  | (key, val) :: rest =>
      is_none <- truth_eq val (VStr "None") ;;
      let val := if is_none then VNone else val in
      match dict_get key (h default_hps) with
      | None => Raise (ValueError (msg_invalid key))
      | Some dflt =>
          let hps := dict_set key val hps in
          non_default <-
            (if dict_mem key (h default_hash_hp_keys)
             then np_all_ne val dflt else Ok false) ;;
          parse_loop h default_hps default_hash_hp_keys rest hps
            (if non_default then dict_set key val hps_to_hash else hps_to_hash)
      end
  end.

(** [_parse]: returns [(hps, hps_to_hash)] or raises, and the store it
    leaves behind. *)
Definition _parse (input_hps default_hash_hps default_non_hash_hps : ref)
    (h : heap) : result (pydict * pydict) * heap :=
  match default_hash_hps with
  | None => (Raise AttributeError, h)
  | Some a_hash =>
      let default_hash_hp_keys := a_hash in
      match default_non_hash_hps with
      | None => (Raise AttributeError, h)
      | Some a_non =>
          match find (fun non_hash_key => dict_mem non_hash_key (h default_hash_hp_keys))
                     (dict_keys (h a_non)) with
          | Some non_hash_key => (Raise (ValueError (msg_both non_hash_key)), h)
          | None =>
              let default_hps := a_hash in
              let h := store h default_hps (dict_update (h default_hps) (h a_non)) in
              let hps := h default_hps in
              let hps_to_hash := [] in
              match input_hps with
              | None => (Raise AttributeError, h)
              | Some a_in =>
                  (parse_loop h default_hps default_hash_hp_keys (h a_in) hps hps_to_hash, h)
              end
          end
      end
  end.

(** The exception of [setattr(self, name, val)] for the two attribute
    names of an object that are data descriptors of its class:
    [__class__] takes a class only and [__weakref__] cannot be written.
    ([__dict__] is not one of them, the class defines a method of that
    name.) *)
Definition setattr_refused (name : string) : option exn :=
  if String.eqb name "__class__" then Some TypeError
  else if String.eqb name "__weakref__" then Some AttributeError
  else None.

(** [setattr(self, name, val)]: every other name is written into the
    instance dictionary. *)
Definition setattr (self : pydict) (name : string) (val : value) : result pydict :=
  match setattr_refused name with
  | Some e => Raise e
  | None => Ok (dict_set name val self)
  end.

(** The loop [for key, val in self._all_hps_as_dict.items()]. *)
Fixpoint setattrs (self items : pydict) : result pydict :=
  match items with
  | [] => Ok self
  | (key, val) :: rest => self <- setattr self key val ;; setattrs self rest
  end.

(** [__init__]: the instance dictionary of the new object, or the
    exception, and the store left behind. *)
Definition __init__ (hps default_hash_hps default_non_hash_hps : ref)
    (hash_len : Z) (verbose : bool) (h : heap) : result pydict * heap :=
  match default_hash_hps, default_non_hash_hps with
  | None, None => (Raise (ValueError msg_no_defaults), h)
  | _, _ =>
      let self := dict_set "_verbose" (VBool verbose)
                    (dict_set "_hash_len" (VInt hash_len) []) in
      match _parse hps default_hash_hps default_non_hash_hps h with
      | (Raise e, h') => (Raise e, h')
      | (Ok (all_hps, hash_hps), h') =>
          let self := dict_set "_hash_hps_as_dict" (VDict hash_hps)
                        (dict_set "_all_hps_as_dict" (VDict all_hps) self) in
          (setattrs self all_hps, h')
      end
  end.

(* ===================================================================== *)
(** * Fingerprints: [get_hash] and [get_hash_all_hps] *)
(* ===================================================================== *)

(** [self.name] *)
Definition getattr (self : pydict) (name : string) : result value :=
  match dict_get name self with
  | Some v => Ok v
  | None => Raise AttributeError
  end.

(** [self.name(...)] for a method of the class: an instance attribute of
    the same name hides the method, and no hyperparameter value can be
    called. *)
Definition method (self : pydict) (name : string) : result unit :=
  if dict_mem name self then Raise TypeError else Ok tt.

(** [self._generate_hash(hps)] on an object. *)
Definition call_generate_hash (self : pydict) (hps : value) : result string :=
  _ <- method self "_generate_hash" ;;
  _ <- method self "_sorted_str_from_dict" ;;
  match hps with
  | VDict d => Ok (_generate_hash d)
  | _ => Raise AttributeError
  end.

(** [s[0:stop]] *)
Definition slice_to (stop : Z) (s : string) : string :=
  let len := Z.of_nat (String.length s) in
  String.substring 0 (Z.to_nat (if stop <? 0 then len + stop else stop)) s.

(** [s[0:stop]] for the value found in an attribute. *)
Definition py_slice (s : string) (stop : value) : result string :=
  match stop with
  | VNone => Ok s
  | VInt n => Ok (slice_to n s)
  | VBool b => Ok (slice_to (Z.b2z b) s)
  | _ => Raise TypeError
  end.

(** [self._generate_hash(self.attr)[0:self._hash_len]] *)
Definition hash_of_attr (self : pydict) (attr : string) : result string :=
  hps <- getattr self attr ;;
  digest <- call_generate_hash self hps ;;
  stop <- getattr self "_hash_len" ;;
  py_slice digest stop.

(** [hp.get_hash()] *)
Definition get_hash (self : pydict) : result string :=
  _ <- method self "get_hash" ;;
  hash_of_attr self "_hash_hps_as_dict".

(** [hp.get_hash_all_hps()] *)
Definition get_hash_all_hps (self : pydict) : result string :=
  _ <- method self "get_hash_all_hps" ;;
  hash_of_attr self "_all_hps_as_dict".

(* ===================================================================== *)
(** * Command line: [str2bool] *)
(* ===================================================================== *)

(** [v.lower()].  Only the letters A-Z are mapped; no character outside
    ASCII lowers to a letter of one of the accepted tokens. *)
Definition lower_char (c : ascii) : ascii :=
  let n := nat_of_ascii c in
  if Nat.leb 65 n && Nat.leb n 90 then ascii_of_nat (n + 32) else c.

Fixpoint lower (s : string) : string :=
  match s with
  | EmptyString => EmptyString
  | String c s' => String (lower_char c) (lower s')
  end.

(** [x in (t1, t2, ...)] for strings *)
Definition str_in (x : string) (l : list string) : bool :=
  existsb (String.eqb x) l.

Definition true_tokens : list string :=
  ["yes"; "true"; "t"; "y"; "1"]%string.

Definition false_tokens : list string :=
  ["no"; "false"; "f"; "n"; "0"]%string.

Definition str2bool (v : string) : result bool :=
  if str_in (lower v) true_tokens then Ok true
  else if str_in (lower v) false_tokens then Ok false
  else Raise (ArgumentTypeError "Boolean value expected.").

(* ===================================================================== *)
(** * Path codec: [reconstruct_helper] *)
(* ===================================================================== *)

(** [key.index(':')], [None] when [':' in key] is false. *)
Fixpoint find_colon (key : string) : option nat :=
  match key with
  | EmptyString => None
  | String c rest =>
      if Ascii.eqb c ":" then Some O else option_map S (find_colon rest)
  end.

(** [':' in key] *)
Definition has_colon (key : string) : bool :=
  match find_colon key with Some _ => true | None => false end.

(** [parse_key]: the key up to its first colon and the key after it. *)
Definition parse_key (key : string) : result (string * string) :=
  match find_colon key with
  | None => Raise (ValueError "key does not contain delimitting colon.")
  | Some first_colon_idx =>
      let dict_name := String.substring 0 first_colon_idx key in
      let rem_key :=
        String.substring (first_colon_idx + 1)
          (String.length key - (first_colon_idx + 1)) key in
      Ok (dict_name, rem_key)
  end.

(** [assign_leaf].  The recursion is on the remaining key, which gets
    shorter at every call; [n] bounds the number of calls and is the
    length of the key at the start, so that the key is empty when [n]
    reaches zero. *)
Fixpoint assign_leaf_rec (n : nat) (key : string) (val : value) : result value :=
  match n with
  | O => Ok (VDict [(key, val)])
  | S n' =>
      if has_colon key then
        p <- parse_key key ;;
        sub <- assign_leaf_rec n' (snd p) val ;;
        Ok (VDict [(fst p, sub)])
      else Ok (VDict [(key, val)])
  end.

Definition assign_leaf (key : string) (val : value) : result value :=
  assign_leaf_rec (String.length key) key val.

(** Code that may stop in the debugger: the number of calls of
    [pdb.set_trace()] comes with the result, which is the one the code
    reaches when every debugger session is left with [continue]. *)
Definition traced (A : Type) : Type := (nat * result A)%type.

Definition tret {A : Type} (a : A) : traced A := (O, Ok a).

Definition tlift {A : Type} (r : result A) : traced A := (O, r).

Definition set_trace : traced unit := (1%nat, Ok tt).

Definition tbind {A B : Type} (m : traced A) (k : A -> traced B) : traced B :=
  match m with
  | (n, Ok a) => let (n', r) := k a in ((n + n')%nat, r)
  | (n, Raise e) => (n, Raise e)
  end.

Notation "x <~ m ;; k" := (tbind m (fun x => k))
  (at level 61, m at next level, right associativity).

(** [dict_name in D] *)
Definition py_in (dict_name : string) (D : value) : result bool :=
  match D with
  | VDict d => Ok (dict_mem dict_name d)
  | VStr s => Ok (match String.index 0 dict_name s with Some _ => true | None => false end)
  | VArr _ => Ok false
  | _ => Raise TypeError
  end.

(** [D[key]] *)
Definition getitem (D : value) (key : string) : result value :=
  match D with
  | VDict d => match dict_get key d with Some v => Ok v | None => Raise (KeyError key) end
  | VArr _ => Raise IndexError
  | _ => Raise TypeError
  end.

(** [D[key] = val] *)
Definition setitem (D : value) (key : string) (val : value) : result value :=
  match D with
  | VDict d => Ok (VDict (dict_set key val d))
  | VArr _ => Raise IndexError
  | _ => Raise TypeError
  end.

(** [add_helper], with the same bound on the recursion as
    [assign_leaf_rec]. *)
Fixpoint add_helper_rec (n : nat) (D : value) (key : string) (val : value)
    : traced value :=
  match n with
  | O => tlift (setitem D key val)
  | S n' =>
      if has_colon key then
        p <~ tlift (parse_key key) ;;
        let dict_name := fst p in
        let rem_key := snd p in
        _ <~ (if String.eqb dict_name "data_hps" then set_trace else tret tt) ;;
        present <~ tlift (py_in dict_name D) ;;
        if (present : bool) then
          old <~ tlift (getitem D dict_name) ;;
          sub <~ add_helper_rec n' old rem_key val ;;
          tlift (setitem D dict_name sub)
        else
          sub <~ tlift (assign_leaf rem_key val) ;;
          tlift (setitem D dict_name sub)
      else tlift (setitem D key val)
  end.

Definition add_helper (D : value) (key : string) (val : value) : traced value :=
  add_helper_rec (String.length key) D key val.

(** [reconstruct_helper]: the loop over [D_flat.items()]. *)
Definition reconstruct_helper (D_flat : pydict) : traced value :=
  fold_left
    (fun acc kv => D_unflattened <~ acc ;; add_helper D_unflattened (fst kv) (snd kv))
    D_flat (tret (VDict [])).

(** The number of debugger stops and the value returned. *)
Definition stops {A : Type} (m : traced A) : nat := fst m.
Definition outcome {A : Type} (m : traced A) : result A := snd m.

(* ===================================================================== *)
(** * Paths: the delimiter structure of a flat key *)
(* ===================================================================== *)

(** [key.split(':')]: the segments of a flat key. *)
Fixpoint split_colon (key : string) : list string :=
  match key with
  | EmptyString => [EmptyString]
  | String c rest =>
      if Ascii.eqb c ":" then EmptyString :: split_colon rest
      else match split_colon rest with
           | seg :: segs => String c seg :: segs
           | [] => [String c EmptyString]
           end
  end.

(** The nested dictionary [{s1: {s2: ... {sn: val}}}] of a path. *)
Fixpoint leaf_path (path : list string) (val : value) : value :=
  match path with
  | [] => val
  | seg :: rest => VDict [(seg, leaf_path rest val)]
  end.

(** [add_helper] read as a recursion on the segments of the key. *)
Fixpoint add_path (D : value) (path : list string) (val : value) : result value :=
  match path with
  | [] => Ok D
  | [key] => setitem D key val
  | dict_name :: ((_ :: _) as rest) =>
      present <- py_in dict_name D ;;
      if (present : bool) then
        old <- getitem D dict_name ;;
        sub <- add_path old rest val ;;
        setitem D dict_name sub
      else setitem D dict_name (leaf_path rest val)
  end.

(** [reconstruct_helper] read the same way. *)
Definition add_paths (D_flat : pydict) : result value :=
  fold_left
    (fun acc kv => D <- acc ;; add_path D (split_colon (fst kv)) (snd kv))
    D_flat (Ok (VDict [])).

(** The value found by following a path through nested dictionaries. *)
Fixpoint get_path (path : list string) (v : value) : option value :=
  match path with
  | [] => Some v
  | seg :: rest =>
      match v with
      | VDict d =>
          match dict_get seg d with
          | Some sub => get_path rest sub
          | None => None
          end
      | _ => None
      end
  end.

(** What is seen at the end of a path: nothing, a dictionary, or a leaf. *)
Inductive seen : Type :=
| Nothing
| Mapping
| Leaf (v : value).

Definition view (o : option value) : seen :=
  match o with
  | None => Nothing
  | Some (VDict _) => Mapping
  | Some v => Leaf v
  end.

(** How a path [p] stands to a path [q]: [q] is [p] followed by [r], or
    [p] is [q] followed by a non-empty [r], or the two part ways. *)
Inductive path_relation : Type :=
| Below (r : list string)
| Above (r : list string)
| Apart.

Fixpoint path_rel (p q : list string) : path_relation :=
  match p, q with
  | [], _ => Below q
  | _ :: _, [] => Above p
  | a :: p', b :: q' => if String.eqb a b then path_rel p' q' else Apart
  end.

(** What is seen at the end of [q] after the items of [done], the last
    one first, have been written over a value seen as [base]. *)
Fixpoint expected (base : list string -> seen) (done : pydict) (q : list string) : seen :=
  match done with
  | [] => base q
  | (key, val) :: earlier =>
      match path_rel (split_colon key) q with
      | Below r => view (get_path r val)
      | Above _ => Mapping
      | Apart => expected base earlier q
      end
  end.

(** The views of the empty dictionary. *)
Definition empty_view (q : list string) : seen :=
  match q with
  | [] => Mapping
  | _ :: _ => Nothing
  end.

(** [p] is a prefix of [q], possibly [q] itself. *)
Definition is_prefix (p q : list string) : Prop := exists r, q = p ++ r.

(** Flat keys that encode independent paths: no key occurs twice and the
    path of no key is a prefix of the path of another. *)
Definition independent_keys (keys : list string) : Prop :=
  NoDup keys /\
  forall k1 k2, In k1 keys -> In k2 keys -> k1 <> k2 ->
                ~ is_prefix (split_colon k1) (split_colon k2).

(* ===================================================================== *)
(** * Vocabulary of the statements *)
(* ===================================================================== *)

(** A value with no NumPy array in it. *)
Fixpoint no_array (v : value) : bool :=
  match v with
  | VArr _ => false
  | VDict d =>
      (fix all (l : pydict) : bool :=
         match l with
         | [] => true
         | (_, x) :: l' => no_array x && all l'
         end) d
  | _ => true
  end.

(** A value whose arrays, if any, are not inside a dictionary: an array or
    a value with no array in it. *)
Definition plain (v : value) : bool :=
  match v with
  | VArr _ => true
  | _ => no_array v
  end.

Definition plain_dict (d : pydict) : bool := forallb (fun kv => plain (snd kv)) d.

(** The value [_parse] stores for an override: ['None'] stands for [None]. *)
Definition override_value (val : value) : value :=
  match val with
  | VStr "None" => VNone
  | _ => val
  end.

(** The instance dictionary [__init__] builds before it copies the
    hyperparameters into attributes. *)
Definition fresh_self (hash_len : Z) (verbose : bool) (all_hps hash_hps : pydict)
    : pydict :=
  [("_hash_len"%string, VInt hash_len); ("_verbose"%string, VBool verbose);
   ("_all_hps_as_dict"%string, VDict all_hps);
   ("_hash_hps_as_dict"%string, VDict hash_hps)].

(** The exception of the first item that [setattr] refuses, if any. *)
Fixpoint first_refused (items : pydict) : option exn :=
  match items with
  | [] => None
  | (key, _) :: rest =>
      match setattr_refused key with
      | Some e => Some e
      | None => first_refused rest
      end
  end.

(** The items of [d] other than the ones under the key [k]. *)
Definition without (k : string) (d : pydict) : pydict :=
  filter (fun kv => negb (String.eqb k (fst kv))) d.

(** A string of lower-case hexadecimal digits. *)
Definition is_hex (s : string) : Prop :=
  Forall (fun c => In c (list_ascii_of_string "0123456789abcdef"))
         (list_ascii_of_string s).

(** Decision procedures for [NoDup], [independent_keys], [wf_value] and
    [same_content], used to check concrete dictionaries by computation. *)
Fixpoint nodup_keys (keys : list string) : bool :=
  match keys with
  | [] => true
  | k :: rest => negb (str_in k rest) && nodup_keys rest
  end.

Definition independent_keys_b (keys : list string) : bool :=
  nodup_keys keys &&
  forallb (fun k1 =>
    forallb (fun k2 =>
      String.eqb k1 k2
      || match path_rel (split_colon k1) (split_colon k2) with
         | Below _ => false
         | _ => true
         end) keys) keys.

(** The flat keys and the nested dictionary of the example. *)
Definition flat_example : pydict :=
  [("a:b:c"%string, VInt 1); ("a:b:d"%string, VInt 2); ("a:e"%string, VInt 3)].

Definition nested_example : value :=
  VDict [("a"%string,
          VDict [("b"%string, VDict [("c"%string, VInt 1); ("d"%string, VInt 2)]);
                 ("e"%string, VInt 3)])].

Fixpoint wf_value_b (v : value) : bool :=
  match v with
  | VDict d =>
      nodup_keys (map fst d) &&
      (fix all (l : pydict) : bool :=
         match l with
         | [] => true
         | (_, x) :: l' => wf_value_b x && all l'
         end) d
  | _ => true
  end.

Fixpoint list_eqb (a b : list Z) : bool :=
  match a, b with
  | [], [] => true
  | x :: a', y :: b' => Z.eqb x y && list_eqb a' b'
  | _, _ => false
  end.

Fixpoint same_content_b (a b : value) : bool :=
  match a, b with
  | VNone, VNone => true
  | VBool x, VBool y => Bool.eqb x y
  | VInt m, VInt n => Z.eqb m n
  | VStr s, VStr t => String.eqb s t
  | VArr x, VArr y => list_eqb x y
  | VDict d1, VDict d2 =>
      (fix items (l : pydict) : bool :=
         match l with
         | [] => true
         | (k, v1) :: l' =>
             match dict_get k d2 with
             | Some v2 => same_content_b v1 v2 && items l'
             | None => false
             end
         end) d1 &&
      forallb (fun kv => dict_mem (fst kv) d1) d2
  | _, _ => false
  end.

(** The order of [numpy.sort] on keys. *)
Definition le_str (a b : string) : Prop := String.leb a b = true.

(** [str_val] of the value stored under [key], as the loop of
    [_sorted_str_from_dict] computes it from [d[key]]. *)
Definition str_at (d : pydict) (key : string) : string :=
  match dict_get key d with
  | Some v => str_val v
  | None => EmptyString
  end.

(** A store given by the list of its objects: address [a] holds the
    [a]-th dictionary. *)
Definition heap_of (objs : list pydict) : heap := fun a => nth a objs [].

(** The scenario of the examples: the overrides [{depth: 5}] at address
    0, the hashed defaults [{lr: 1, depth: 3}] at address 1 and the
    non-hashed defaults [{logDir: "/tmp"}] at address 2. *)
Definition example_heap : heap :=
  heap_of [[("depth"%string, VInt 5)];
           [("lr"%string, VInt 1); ("depth"%string, VInt 3)];
           [("logDir"%string, VStr "/tmp")]].

(** [Hyperparameters(hps, default_hash_hps, default_non_hash_hps,
    hash_len).get_hash()] *)
Definition construct_and_hash (hps default_hash_hps default_non_hash_hps : ref)
    (hash_len : Z) (h : heap) : result string :=
  self <- fst (__init__ hps default_hash_hps default_non_hash_hps hash_len false h) ;;
  get_hash self.

(** The Hashed Subset of a constructed object. *)
Definition hashed_subset (self : pydict) : option value :=
  dict_get "_hash_hps_as_dict" self.

(** The names [get_hash] looks up on the object. *)
Definition get_hash_names : list string :=
  ["_hash_len"; "_hash_hps_as_dict"; "_generate_hash"; "_sorted_str_from_dict";
   "get_hash"]%string.

(** The names [get_hash_all_hps] looks up on the object. *)
Definition get_hash_all_hps_names : list string :=
  ["_hash_len"; "_all_hps_as_dict"; "_generate_hash"; "_sorted_str_from_dict";
   "get_hash_all_hps"]%string.

(** The items [_parse] writes into [hps] for the overrides. *)
Definition override_items (items : pydict) : pydict :=
  map (fun kv => (fst kv, override_value (snd kv))) items.

(** The number of characters of [s[0:stop]] for a string of [len]
    characters. *)
Definition slice_length (stop len : Z) : Z :=
  Z.max 0 (Z.min len (if stop <? 0 then len + stop else stop)).

(** An override that the loop of [_parse] accepts: its key has a default
    and the comparison with the default, made for the keys of the key
    view, does not raise. *)
Definition override_accepted (h : heap) (default_hps default_hash_hp_keys : nat)
    (kv : string * value) : bool :=
  match dict_get (fst kv) (h default_hps) with
  | None => false
  | Some dflt =>
      if dict_mem (fst kv) (h default_hash_hp_keys)
      then is_ok (np_all_ne (override_value (snd kv)) dflt)
      else true
  end.

(** The scenario of the examples with two overrides: [{depth: 5, lr: 2}]
    at address 0 over the defaults of [example_heap]. *)
Definition two_overrides_heap : heap :=
  heap_of [[("depth"%string, VInt 5); ("lr"%string, VInt 2)];
           [("lr"%string, VInt 1); ("depth"%string, VInt 3)];
           [("logDir"%string, VStr "/tmp")]].

(** A value that is neither a dictionary nor an array: [None], a [bool],
    an [int] or a [str]. *)
Definition is_scalar (v : value) : bool :=
  match v with
  | VNone | VBool _ | VInt _ | VStr _ => true
  | VArr _ | VDict _ => false
  end.

(** A value that is not a dictionary. *)
Definition is_leaf (v : value) : bool :=
  match v with
  | VDict _ => false
  | _ => true
  end.

(* ===================================================================== *)
(** * Command line: [parse_helper] and [parse_command_line] *)
(* ===================================================================== *)

(** The parser is the one of [argparse] in Python 3.11, on an empty
    command line ([sys.argv[1:]] is [[]]): [parse_args] then returns the
    defaults of the registered arguments.  Parsing of a command line that
    is not empty is not modelled. *)

(** What escapes [parse_command_line]: an exception of [exn], the
    [argparse.ArgumentError] of an option string that is already taken,
    or the [SystemExit] of [parser.error]. *)
Inductive cli_exn : Type :=
| Exn (e : exn)
| ArgumentError (option_string : string)
| SystemExit (status : Z).

Inductive cli (A : Type) : Type :=
| Returns (a : A)
| Raises (e : cli_exn).

Arguments Returns {A} a.
Arguments Raises {A} e.

Definition cbind {A B : Type} (r : cli A) (k : A -> cli B) : cli B :=
  match r with
  | Returns a => k a
  | Raises e => Raises e
  end.

Notation "x <-- r ;; k" := (cbind r (fun x => k))
  (at level 61, r at next level, right associativity).

Definition lift {A : Type} (r : result A) : cli A :=
  match r with
  | Ok a => Returns a
  | Raise e => Raises (Exn e)
  end.

(** What [parse_helper] passes to [add_argument] after the option
    string: nothing, or [default=val, type=type_val], where [type_val] is
    [str2bool] for a [bool] and [type(val)] for an [int] or a [str]. *)
Inductive argument : Type :=
| no_default
| bool_default (val : bool)
| int_default (val : Z)
| str_default (val : string).

(** A registered argument: its option string ([None] for a positional
    argument), the attribute it is stored under, its default, and whether
    the command line must give it. *)
Record action : Type := {
  option_string : option string;
  dest : string;
  default : value;
  required : bool
}.

Definition default_of (arg : argument) : value :=
  match arg with
  | no_default => VNone
  | bool_default val => VBool val
  | int_default val => VInt val
  | str_default val => VStr val
  end.

(** [s.lstrip('-')] *)
Fixpoint lstrip_dash (s : string) : string :=
  match s with
  | EmptyString => EmptyString
  | String c s' => if Ascii.eqb c "-" then lstrip_dash s' else s
  end.

(** [s.replace('-', '_')] *)
Fixpoint replace_dash (s : string) : string :=
  match s with
  | EmptyString => EmptyString
  | String c s' => String (if Ascii.eqb c "-" then "_"%char else c) (replace_dash s')
  end.

(** The option strings that are taken: those of the help action every
    parser starts with, and those registered since. *)
Definition option_strings (parser : list action) : list string :=
  "-h"%string :: "--help"%string ::
  flat_map (fun a => match option_string a with Some s => [s] | None => [] end) parser.

(** [parser.add_argument(name)] and [parser.add_argument(name,
    default=val, type=type_val)].  A name that starts with a dash is an
    option string: its attribute is the name without its leading dashes,
    with an underscore for every other dash, and must not be empty; the
    option string must not be taken.  Any other name is a positional
    argument, which the command line must give. *)
Definition add_argument (parser : list action) (name : string) (arg : argument)
    : cli (list action) :=
  match name with
  | EmptyString => Raises (Exn IndexError)
  | String c _ =>
      if Ascii.eqb c "-" then
        match lstrip_dash name with
        | EmptyString =>
            Raises (Exn (ValueError
              (String.append "dest= is required for options like '"
                 (String.append name "'"))))
        | dest =>
            if str_in name (option_strings parser)
            then Raises (ArgumentError name)
            else Returns (parser ++ [{| option_string := Some name;
                                         dest := replace_dash dest;
                                         default := default_of arg;
                                         required := false |}])
        end
      else Returns (parser ++ [{| option_string := None;
                                   dest := name;
                                   default := default_of arg;
                                   required := true |}])
  end.

(** The attributes every [argparse.Namespace] has from its class. *)
Definition namespace_class_attrs : list string :=
  ["__class__"; "__contains__"; "__delattr__"; "__dict__"; "__dir__"; "__doc__";
   "__eq__"; "__format__"; "__ge__"; "__getattribute__"; "__getstate__"; "__gt__";
   "__hash__"; "__init__"; "__init_subclass__"; "__le__"; "__lt__"; "__module__";
   "__ne__"; "__new__"; "__reduce__"; "__reduce_ex__"; "__repr__"; "__setattr__";
   "__sizeof__"; "__str__"; "__subclasshook__"; "__weakref__"; "_get_args";
   "_get_kwargs"]%string.

(** [hasattr(namespace, name)], for the instance dictionary of the
    namespace. *)
Definition hasattr (namespace : pydict) (name : string) : bool :=
  dict_mem name namespace || str_in name namespace_class_attrs.

(** The loop of [parse_args] over the registered actions, for one
    action: it stores the default under the attribute unless the
    namespace has the attribute already. *)
Definition set_default (namespace : pydict) (a : action) : pydict :=
  if hasattr namespace (dest a) then namespace
  else dict_set (dest a) (default a) namespace.

(** [vars(parser.parse_args())] on an empty command line: the namespace
    of the defaults; a required argument makes the parser exit with
    status 2.  (A default that is a string is passed through [str], its
    type, which returns it.) *)
Definition parse_args (parser : list action) : cli pydict :=
  let namespace := fold_left set_default parser [] in
  if existsb required parser then Raises (SystemExit 2) else Returns namespace.

(** The loop [for key, val in D.items()] over a state. *)
Definition for_items {S : Type} (body : string -> value -> S -> cli S)
    : pydict -> S -> cli S :=
  fix loop (items : pydict) (s : S) : cli S :=
    match items with
    | [] => Returns s
    | (key, val) :: rest => s' <-- body key val s ;; loop rest s'
    end.

Definition msg_unsupported : string :=
  "Default value must be bool, int, float, str, dict, or None, but was <class 'numpy.ndarray'>. ".

(** The body of the loop of [parse_helper] for one item; the recursive
    call of [parse_helper] on a nested dictionary is the loop over its
    items with the longer prefix. *)
Fixpoint parse_item (str_prefix key : string) (val : value) (parser : list action)
    {struct val} : cli (list action) :=
  is_none <-- lift (match val with
                    | VNone => Ok true
                    | _ => truth_eq val (VStr "None")
                    end) ;;
  if (is_none : bool) then
    add_argument parser (String.append (String.append "--" str_prefix) key) no_default
  else
    match val with
    | VBool b =>
        add_argument parser (String.append (String.append "--" str_prefix) key)
          (bool_default b)
    | VInt n =>
        add_argument parser (String.append (String.append "--" str_prefix) key)
          (int_default n)
    | VStr s =>
        add_argument parser (String.append (String.append "--" str_prefix) key)
          (str_default s)
    | VDict d =>
        for_items (parse_item (String.append (String.append str_prefix key) ":")) d parser
    | VArr _ => Raises (Exn (ArgumentTypeError msg_unsupported))
    | VNone => add_argument parser (String.append (String.append "--" str_prefix) key)
                 no_default
    end.

Definition parse_helper (D : pydict) (str_prefix : string) (parser : list action)
    : cli (list action) :=
  for_items (parse_item str_prefix) D parser.

(** [parse_command_line(default_hps)] on an empty command line: the
    number of debugger stops of [reconstruct_helper] and what the call
    returns or raises.  The description is text for the help option
    only. *)
Definition parse_command_line (default_hps : pydict) : nat * cli value :=
  match (parser <-- parse_helper default_hps "" [] ;; parse_args parser) with
  | Raises e => (O, Raises e)
  | Returns hps_flat =>
      let hps := reconstruct_helper hps_flat in
      (stops hps, lift (outcome hps))
  end.

(** The argument [parse_helper] registers for a value that is not a
    dictionary. *)
Definition argument_of (val : value) : argument :=
  match val with
  | VBool b => bool_default b
  | VInt n => int_default n
  | VStr s => if String.eqb s "None" then no_default else str_default s
  | _ => no_default
  end.

(** The leaves below a value in the order of the traversal of
    [parse_helper], each with the name it is registered under: the keys
    on the way to it, joined by colons. *)
Fixpoint leaves_val (name : string) (val : value) : list (string * value) :=
  match val with
  | VDict d =>
      flat_map
        (fun kv => leaves_val (String.append (String.append name ":") (fst kv)) (snd kv))
        d
  | _ => [(name, val)]
  end.

Definition leaves (str_prefix : string) (D : pydict) : list (string * value) :=
  flat_map (fun kv => leaves_val (String.append str_prefix (fst kv)) (snd kv)) D.

(** What [parse_helper] does at a leaf, and at the leaves of a list. *)
Definition register (parser : list action) (leaf : string * value) : cli (list action) :=
  match snd leaf with
  | VDict _ => Returns parser
  | VArr _ => Raises (Exn (ArgumentTypeError msg_unsupported))
  | val => add_argument parser (String.append "--" (fst leaf)) (argument_of val)
  end.

Fixpoint register_all (parser : list action) (ls : list (string * value))
    : cli (list action) :=
  match ls with
  | [] => Returns parser
  | leaf :: rest => parser' <-- register parser leaf ;; register_all parser' rest
  end.

(** The action registered for a leaf whose name has no dash. *)
Definition action_of (leaf : string * value) : action :=
  {| option_string := Some (String.append "--" (fst leaf));
     dest := fst leaf;
     default := override_value (snd leaf);
     required := false |}.

(** The leaves below a value with their paths, relative to the value,
    and the values the namespace holds for them. *)
Fixpoint rel_paths (val : value) : list (list string * value) :=
  match val with
  | VDict d =>
      flat_map
        (fun kv => map (fun pw => (fst kv :: fst pw, snd pw)) (rel_paths (snd kv)))
        d
  | _ => [([], override_value val)]
  end.

(** The action of an option that is named after a path. *)
Definition path_action (pw : list string * value) : action :=
  {| option_string := Some (String.append "--" (String.concat ":" (fst pw)));
     dest := String.concat ":" (fst pw);
     default := snd pw;
     required := false |}.

(** [add_path] for the items of a list, in order. *)
Fixpoint add_all (D : value) (ls : list (list string * value)) : result value :=
  match ls with
  | [] => Ok D
  | pw :: rest => D' <- add_path D (fst pw) (snd pw) ;; add_all D' rest
  end.

(** The items of a dictionary [f] keeps, with the values it gives. *)
Definition keep (f : value -> option value) : pydict -> pydict :=
  fix go (l : pydict) : pydict :=
    match l with
    | [] => []
    | (k, v) :: l' =>
        match f v with
        | Some v' => (k, v') :: go l'
        | None => go l'
        end
    end.

(** What comes back for a default from an empty command line: [None]
    for the string ['None'], nothing for a dictionary below which there
    is no leaf, and the value itself otherwise, with its nested
    dictionaries treated in the same way. *)
Fixpoint parsed_value (val : value) : option value :=
  match val with
  | VDict d =>
      match keep parsed_value d with
      | [] => None
      | d' => Some (VDict d')
      end
  | _ => Some (override_value val)
  end.

Definition parsed_dict (D : pydict) : pydict := keep parsed_value D.

(** A value that comes back as it is: no string ['None'] and no
    dictionary without a leaf below the top. *)
Fixpoint settled (val : value) : bool :=
  match val with
  | VDict d =>
      negb (Nat.eqb (List.length d) 0) &&
      forallb (fun kv => settled (snd kv)) d
  | VStr s => negb (String.eqb s "None")
  | _ => true
  end.

Definition settled_dict (D : pydict) : bool := forallb (fun kv => settled (snd kv)) D.

(** ['-' in s] *)
Fixpoint has_dash (s : string) : bool :=
  match s with
  | EmptyString => false
  | String c s' => Ascii.eqb c "-" || has_dash s'
  end.

(** Keys with neither a colon nor a dash, at every depth. *)
Fixpoint plain_keys (val : value) : bool :=
  match val with
  | VDict d =>
      forallb (fun kv => negb (has_colon (fst kv)) && negb (has_dash (fst kv)) &&
                         plain_keys (snd kv)) d
  | _ => true
  end.

(** The names that cannot be registered and read back: the empty name,
    the name of the help option, and the attributes of the namespace
    class. *)
Definition reserved_names : list string :=
  EmptyString :: "help"%string :: namespace_class_attrs.

(** A string that ends in a NUL character. *)
Fixpoint ends_with_nul (s : string) : bool :=
  match s with
  | EmptyString => false
  | String c EmptyString => Ascii.eqb c "000"
  | String _ rest => ends_with_nul rest
  end.

(** The depth to which dictionaries are nested in a value. *)
Fixpoint nesting (v : value) : nat :=
  match v with
  | VDict d =>
      S ((fix deepest (l : pydict) : nat :=
            match l with
            | [] => O
            | (_, x) :: l' => Nat.max (nesting x) (deepest l')
            end) d)
  | _ => O
  end.

(** The number of digits above which [str] refuses an [int] (the default
    of [sys.set_int_max_str_digits], from Python 3.11 on). *)
Definition int_max_str_digits : Z := 4300.

(** The keys and leaves for which [_sorted_str_from_dict] returns and the
    text of this development is the text it returns: no key, at any
    depth, ends in a NUL character, which [numpy.sort] would drop from
    it; every integer has at most 4300 digits, beyond which [str] raises
    a [ValueError]; and there is no array, the text of which depends on
    its length and its dtype. *)
Fixpoint printable_value (v : value) : bool :=
  match v with
  | VInt n => Z.abs n <? 10 ^ int_max_str_digits
  | VArr _ => false
  | VDict d =>
      (fix all (l : pydict) : bool :=
         match l with
         | [] => true
         | (k, x) :: l' => negb (ends_with_nul k) && printable_value x && all l'
         end) d
  | _ => true
  end.

(** A dictionary of such keys and leaves, nested to a depth of at most
    100, far from the limit the interpreter puts on the depth of the
    recursion. *)
Definition printable (d : pydict) : bool :=
  printable_value (VDict d) && (nesting (VDict d) <=? 100)%nat.

(* ===================================================================== *)
(** * Induction on the nesting of values *)
(* ===================================================================== *)

(** The induction principle of [value] with the hypothesis for the values
    stored in a dictionary. *)
Section ValueInduction.

Variable P : value -> Prop.
Hypothesis P_none : P VNone.
Hypothesis P_bool : forall b, P (VBool b).
Hypothesis P_int : forall n, P (VInt n).
Hypothesis P_str : forall s, P (VStr s).
Hypothesis P_arr : forall a, P (VArr a).
Hypothesis P_dict : forall d, Forall (fun kv => P (snd kv)) d -> P (VDict d).

Fixpoint value_nested_ind (v : value) : P v :=
  match v with
  | VNone => P_none
  | VBool b => P_bool b
  | VInt n => P_int n
  | VStr s => P_str s
  | VArr a => P_arr a
  | VDict d =>
      P_dict d
        ((fix all (l : pydict) : Forall (fun kv => P (snd kv)) l :=
            match l with
            | [] => Forall_nil _
            | kv :: l' => Forall_cons kv (value_nested_ind (snd kv)) (all l')
            end) d)
  end.

End ValueInduction.

(* ===================================================================== *)
(** * Dictionaries *)
(* ===================================================================== *)

Lemma str_in_In (x : string) (l : list string) : str_in x l = true <-> In x l.
Proof.
  unfold str_in. rewrite existsb_exists. split.
  - intros [y [Hy He]]. apply String.eqb_eq in He. now subst.
  - intros H. exists x. split; [assumption | apply String.eqb_refl].
Qed.

Lemma str_in_not_In (x : string) (l : list string) : str_in x l = false <-> ~ In x l.
Proof.
  rewrite <- str_in_In. destruct (str_in x l); split; intros; congruence.
Qed.

Lemma dict_get_set_eq (k : string) (v : value) (d : pydict) :
  dict_get k (dict_set k v d) = Some v.
Proof.
  induction d as [| [k' v'] d IH]; simpl.
  - now rewrite String.eqb_refl.
  - destruct (String.eqb k k') eqn:E; simpl; rewrite E; [reflexivity | exact IH].
Qed.

Lemma dict_get_set_ne (k k' : string) (v : value) (d : pydict) :
  k <> k' -> dict_get k' (dict_set k v d) = dict_get k' d.
Proof.
  intros Hne. induction d as [| [k0 v0] d IH]; simpl.
  - apply String.eqb_neq in Hne. rewrite String.eqb_sym in Hne. now rewrite Hne.
  - destruct (String.eqb k k0) eqn:E; simpl.
    + apply String.eqb_eq in E. subst k0.
      destruct (String.eqb k' k) eqn:E'; [| reflexivity].
      apply String.eqb_eq in E'. congruence.
    + now rewrite IH.
Qed.

Lemma dict_get_set (k k' : string) (v : value) (d : pydict) :
  dict_get k' (dict_set k v d) = if String.eqb k k' then Some v else dict_get k' d.
Proof.
  destruct (String.eqb k k') eqn:E.
  - apply String.eqb_eq in E. subst. apply dict_get_set_eq.
  - apply String.eqb_neq in E. now apply dict_get_set_ne.
Qed.

Lemma dict_get_None_iff (k : string) (d : pydict) :
  dict_get k d = None <-> ~ In k (dict_keys d).
Proof.
  induction d as [| [k' v'] d IH]; simpl.
  - tauto.
  - destruct (String.eqb k k') eqn:E.
    + apply String.eqb_eq in E. subst. split; [discriminate | intros H; exfalso; auto].
    + apply String.eqb_neq in E. rewrite IH. split.
      * intros H [H' | H']; [congruence | auto].
      * intros H H'. auto.
Qed.

Lemma dict_get_Some_In (k : string) (v : value) (d : pydict) :
  dict_get k d = Some v -> In (k, v) d.
Proof.
  induction d as [| [k' v'] d IH]; simpl; [discriminate |].
  destruct (String.eqb k k') eqn:E.
  - apply String.eqb_eq in E. intros H. inversion H. subst. now left.
  - intros H. right. auto.
Qed.

Lemma dict_mem_In (k : string) (d : pydict) :
  dict_mem k d = true <-> In k (dict_keys d).
Proof.
  unfold dict_mem. pose proof (dict_get_None_iff k d) as H.
  destruct (dict_get k d).
  - split; [intros _ | reflexivity].
    destruct (in_dec string_dec k (dict_keys d)) as [Hi | Hn]; [assumption |].
    apply H in Hn. discriminate.
  - split; [discriminate |]. intros Hi. exfalso. now apply (proj1 H).
Qed.

Lemma wf_value_get (d : pydict) (k : string) (v : value) :
  wf_value (VDict d) -> dict_get k d = Some v -> wf_value v.
Proof.
  intros [_ Hall] Hg. apply dict_get_Some_In in Hg.
  induction d as [| [k' v'] d IH]; [contradiction |].
  destruct Hall as [Hv Hall]. destruct Hg as [Hg | Hg].
  - inversion Hg. now subst.
  - now apply IH.
Qed.

Lemma wf_value_keys (d : pydict) : wf_value (VDict d) -> NoDup (dict_keys d).
Proof. intros [H _]. exact H. Qed.

(* ===================================================================== *)
(** * The decision procedures are sound *)
(* ===================================================================== *)

Lemma nodup_keys_NoDup (keys : list string) : nodup_keys keys = true -> NoDup keys.
Proof.
  induction keys as [| k keys IH]; simpl; intros H.
  - constructor.
  - apply andb_true_iff in H. destruct H as [Hk Hr].
    constructor; [| now apply IH].
    apply negb_true_iff in Hk. now apply str_in_not_In.
Qed.

Lemma wf_value_b_sound (v : value) : wf_value_b v = true -> wf_value v.
Proof.
  induction v as [| | | | | d IH] using value_nested_ind; simpl; auto.
  intros H. apply andb_true_iff in H. destruct H as [Hk Hall].
  split; [now apply nodup_keys_NoDup |].
  clear Hk. induction IH as [| [k x] d Hx _ IHd]; simpl in *; [exact I |].
  apply andb_true_iff in Hall. destruct Hall as [H1 H2].
  split; [exact (Hx H1) | exact (IHd H2)].
Qed.

Lemma list_eqb_eq (a b : list Z) : list_eqb a b = true -> a = b.
Proof.
  revert b. induction a as [| x a IH]; intros [| y b]; simpl; try discriminate; auto.
  intros H. apply andb_true_iff in H. destruct H as [H1 H2].
  apply Z.eqb_eq in H1. subst. f_equal. auto.
Qed.

Lemma same_content_b_sound (a b : value) :
  same_content_b a b = true -> same_content a b.
Proof.
  revert b. induction a as [| x | m | s | x | d1 IH] using value_nested_ind;
    intros [| y | n | t | y | d2]; simpl; try discriminate; intros H.
  - constructor.
  - apply Bool.eqb_prop in H. subst. constructor.
  - apply Z.eqb_eq in H. subst. constructor.
  - apply String.eqb_eq in H. subst. constructor.
  - apply list_eqb_eq in H. subst. constructor.
  - apply andb_true_iff in H. destruct H as [H12 H21].
    assert (Hitems : forall k v1, In (k, v1) d1 ->
              exists v2, dict_get k d2 = Some v2 /\ same_content v1 v2).
    { clear H21. induction IH as [| [k0 x0] d Hx _ IHd]; simpl in *.
      - contradiction.
      - destruct (dict_get k0 d2) as [v2 |] eqn:E; [| discriminate].
        apply andb_true_iff in H12. destruct H12 as [Hv Hrest].
        intros k v1 [Hin | Hin].
        + inversion Hin. subst. exists v2. split; [assumption | now apply Hx].
        + now apply IHd. }
    rewrite forallb_forall in H21.
    apply sc_dict.
    + intros k. split; intros Hn.
      * destruct (dict_get k d2) as [v2 |] eqn:E; [| reflexivity].
        apply dict_get_Some_In in E. apply H21 in E. simpl in E.
        apply dict_mem_In in E. apply dict_get_None_iff in Hn. contradiction.
      * destruct (dict_get k d1) as [v1 |] eqn:E; [| reflexivity].
        apply dict_get_Some_In in E. apply Hitems in E.
        destruct E as [v2 [E _]]. congruence.
    + intros k v1 v2 E1 E2.
      apply dict_get_Some_In in E1. apply Hitems in E1.
      destruct E1 as [v2' [E Hs]]. congruence.
Qed.

(* ===================================================================== *)
(** * Sorting of keys *)
(* ===================================================================== *)

Lemma le_str_cases (a b : string) : le_str a b <-> a = b \/ String_as_OT.lt a b.
Proof.
  unfold le_str, String.leb.
  destruct (String.compare a b) eqn:E.
  - apply String_as_OT.cmp_eq in E. tauto.
  - apply String_as_OT.cmp_lt in E. tauto.
  - split; [discriminate |]. intros [H | H].
    + apply String_as_OT.cmp_eq in H. unfold String_as_OT.cmp in H. congruence.
    + apply String_as_OT.cmp_lt in H. unfold String_as_OT.cmp in H. congruence.
Qed.

Lemma le_str_trans (a b c : string) : le_str a b -> le_str b c -> le_str a c.
Proof.
  rewrite !le_str_cases. intros [-> | H1] [-> | H2]; auto.
  right. eapply String_as_OT.lt_trans; eassumption.
Qed.

Lemma le_str_total (a b : string) : le_str a b \/ le_str b a.
Proof. apply String.leb_total. Qed.

Lemma le_str_antisym (a b : string) : le_str a b -> le_str b a -> a = b.
Proof. apply String.leb_antisym. Qed.

Lemma insert_sorted_perm (k : string) (l : list string) :
  Permutation (insert_sorted k l) (k :: l).
Proof.
  induction l as [| h t IH]; simpl.
  - reflexivity.
  - destruct (String.leb k h); [reflexivity |].
    rewrite IH. apply perm_swap.
Qed.

Lemma np_sort_perm (l : list string) : Permutation (np_sort l) l.
Proof.
  induction l as [| a l IH]; simpl.
  - reflexivity.
  - rewrite insert_sorted_perm. now constructor.
Qed.

Lemma insert_sorted_sorted (k : string) (l : list string) :
  StronglySorted le_str l -> StronglySorted le_str (insert_sorted k l).
Proof.
  induction 1 as [| h t Hs IH Hh]; simpl.
  - repeat constructor; assumption.
  - destruct (String.leb k h) eqn:E.
    + constructor; [now constructor |].
      constructor; [exact E |].
      eapply Forall_impl; [| exact Hh].
      intros x Hx. eapply le_str_trans; eassumption.
    + constructor; [exact IH |].
      assert (Hhk : le_str h k).
      { destruct (le_str_total h k) as [H | H]; [assumption |].
        unfold le_str in H. congruence. }
      eapply Permutation_Forall; [symmetry; apply insert_sorted_perm |].
      now constructor.
Qed.

Lemma np_sort_sorted (l : list string) : StronglySorted le_str (np_sort l).
Proof.
  induction l as [| a l IH]; simpl.
  - constructor.
  - now apply insert_sorted_sorted.
Qed.

(** A sorted list is determined by its elements. *)
Lemma sorted_perm_unique (l l' : list string) :
  StronglySorted le_str l -> StronglySorted le_str l' -> Permutation l l' -> l = l'.
Proof.
  intros Hl. revert l'. induction Hl as [| a l Hs IH Ha]; intros l' Hl' Hp.
  - now apply Permutation_nil in Hp.
  - destruct Hl' as [| b l' Hs' Hb].
    + symmetry in Hp. now apply Permutation_nil in Hp.
    + assert (Hab : a = b).
      { assert (Hin1 : In a (b :: l')) by (eapply Permutation_in; [exact Hp | now left]).
        assert (Hin2 : In b (a :: l)).
        { eapply Permutation_in; [symmetry; exact Hp | now left]. }
        destruct Hin1 as [-> | Hin1]; [reflexivity |].
        destruct Hin2 as [-> | Hin2]; [reflexivity |].
        apply le_str_antisym.
        - rewrite Forall_forall in Ha. now apply Ha.
        - rewrite Forall_forall in Hb. now apply Hb. }
      subst b. f_equal. apply IH; [assumption |].
      eapply Permutation_cons_inv. exact Hp.
Qed.

Lemma np_sort_permutation (l l' : list string) :
  Permutation l l' -> np_sort l = np_sort l'.
Proof.
  intros Hp. apply sorted_perm_unique; try apply np_sort_sorted.
  rewrite !np_sort_perm. exact Hp.
Qed.

(* ===================================================================== *)
(** * The canonical serializer *)
(* ===================================================================== *)

Lemma str_items_loop_ext (f g : string -> string) (n i : nat) (keys : list string) :
  (forall k, In k keys -> f k = g k) ->
  str_items_loop f n i keys = str_items_loop g n i keys.
Proof.
  revert i. induction keys as [| k keys IH]; intros i H; simpl.
  - reflexivity.
  - rewrite (H k) by now left.
    rewrite IH; [reflexivity |]. intros k' Hk'. apply H. now right.
Qed.

Lemma emit_dict_ext (f g : string -> string) (keys keys' : list string) :
  Permutation keys keys' ->
  (forall k, In k keys -> f k = g k) ->
  emit_dict f keys = emit_dict g keys'.
Proof.
  intros Hp H. unfold emit_dict.
  rewrite <- (np_sort_permutation keys keys' Hp).
  f_equal. f_equal. f_equal.
  apply str_items_loop_ext. intros k Hk. apply H.
  eapply Permutation_in; [apply np_sort_perm | exact Hk].
Qed.

Lemma str_of_item_at (d : pydict) (key : string) :
  str_of_item str_val key d = str_at d key.
Proof.
  unfold str_at. induction d as [| [k x] d IH]; simpl; [reflexivity |].
  destruct (String.eqb key k); [reflexivity | exact IH].
Qed.

(** The equation of the source: the entries of [d] in the order of the
    sorted keys, each key followed by the text of [d[key]]. *)
Lemma sorted_str_from_dict_eq (d : pydict) :
  _sorted_str_from_dict d = emit_dict (str_at d) (dict_keys d).
Proof.
  unfold _sorted_str_from_dict. cbn [str_val].
  apply emit_dict_ext; [reflexivity |].
  intros key _. apply str_of_item_at.
Qed.

Lemma str_val_dict (d : pydict) : str_val (VDict d) = _sorted_str_from_dict d.
Proof. reflexivity. Qed.

Lemma same_content_keys (d1 d2 : pydict) :
  NoDup (dict_keys d1) -> NoDup (dict_keys d2) ->
  (forall k, dict_get k d1 = None <-> dict_get k d2 = None) ->
  Permutation (dict_keys d1) (dict_keys d2).
Proof.
  intros H1 H2 H. apply NoDup_Permutation; try assumption.
  intros k. specialize (H k). rewrite !dict_get_None_iff in H.
  destruct (in_dec string_dec k (dict_keys d1));
    destruct (in_dec string_dec k (dict_keys d2)); tauto.
Qed.

Lemma same_content_str_val (a b : value) :
  same_content a b -> wf_value a -> wf_value b -> str_val a = str_val b.
Proof.
  induction 1 as [v | d1 d2 Hnone Hsome IH]; intros Ha Hb.
  - reflexivity.
  - rewrite !str_val_dict, !sorted_str_from_dict_eq.
    apply emit_dict_ext.
    + apply same_content_keys; try apply wf_value_keys; assumption.
    + intros k Hk. unfold str_at.
      destruct (dict_get k d1) as [v1 |] eqn:E1.
      * destruct (dict_get k d2) as [v2 |] eqn:E2.
        -- apply (IH k v1 v2 E1 E2);
             [apply (wf_value_get d1 k) | apply (wf_value_get d2 k)]; assumption.
        -- apply Hnone in E2. congruence.
      * apply dict_get_None_iff in E1. contradiction.
Qed.

(** C2. Two dictionaries with the same content, whatever the order in
    which their keys were inserted at any depth, have the same canonical
    string and the same SHA-512 fingerprint. *)
Theorem serialization_order_independent (d1 d2 : pydict) :
  wf_dict d1 -> wf_dict d2 ->
  same_content (VDict d1) (VDict d2) ->
  _sorted_str_from_dict d1 = _sorted_str_from_dict d2 /\
  _generate_hash d1 = _generate_hash d2.
Proof.
  intros H1 H2 Hs.
  assert (E : _sorted_str_from_dict d1 = _sorted_str_from_dict d2).
  { apply (same_content_str_val (VDict d1) (VDict d2)); assumption. }
  split; [exact E |].
  unfold _generate_hash. now rewrite E.
Qed.

Lemma serialization_order_independent_witness :
  _sorted_str_from_dict
    [("b"%string, VInt 2);
     ("a"%string, VDict [("y"%string, VNone); ("x"%string, VStr "s")])]
  = _sorted_str_from_dict
    [("a"%string, VDict [("x"%string, VStr "s"); ("y"%string, VNone)]);
     ("b"%string, VInt 2)] /\
  _generate_hash
    [("b"%string, VInt 2);
     ("a"%string, VDict [("y"%string, VNone); ("x"%string, VStr "s")])]
  = _generate_hash
    [("a"%string, VDict [("x"%string, VStr "s"); ("y"%string, VNone)]);
     ("b"%string, VInt 2)].
Proof.
  apply serialization_order_independent.
  - apply wf_value_b_sound. reflexivity.
  - apply wf_value_b_sound. reflexivity.
  - apply same_content_b_sound. reflexivity.
Defined.

(* ===================================================================== *)
(** * The digest and its prefixes *)
(* ===================================================================== *)

Lemma length_string_of_list_ascii (l : list ascii) :
  String.length (string_of_list_ascii l) = List.length l.
Proof.
  induction l as [| c l IH]; simpl; [reflexivity | now rewrite IH].
Qed.

(** The digests of the empty message, of "abc" and of a message of two
    blocks, as FIPS 180-4 and [hashlib] give them. *)
Example sha512_test_vectors :
  SHA512.hexdigest ""
  = "cf83e1357eefb8bdf1542850d66d8007d620e4050b5715dc83f4a921d36ce9ce47d0d13c5d85f2b0ff8318d2877eec2f63b931bd47417a81a538327af927da3e"%string /\
  SHA512.hexdigest "abc"
  = "ddaf35a193617abacc417349ae20413112e6fa4e89a97ea20a9eeee64b55d39a2192992a274fc1a836ba3c23a3feebbd454d4423643ce80e2a9ac94fa54ca49f"%string /\
  SHA512.hexdigest "abcdefghbcdefghicdefghijdefghijkefghijklfghijklmghijklmnhijklmnoijklmnopjklmnopqklmnopqrlmnopqrsmnopqrstnopqrstu"
  = "8e959b75dae313da8cf4f72814fc143f8f7779c6eb9f7fa17299aeadb6889018501d289e4900f7e4331b99dec4b5433ac7d329eeb6dd26545e96e55b874be909"%string.
Proof.
  repeat split; vm_compute; reflexivity.
Qed.

(** A SHA-512 digest has 128 hexadecimal digits. *)
Lemma hexdigest_length (data : string) : String.length (SHA512.hexdigest data) = 128%nat.
Proof.
  unfold SHA512.hexdigest, SHA512.hex_state, SHA512.hex_word.
  rewrite length_string_of_list_ascii.
  rewrite !length_app, !length_map. reflexivity.
Qed.

Lemma hex_digit_hex (x : Z) :
  In (SHA512.hex_digit x) (list_ascii_of_string "0123456789abcdef").
Proof.
  unfold SHA512.hex_digit.
  destruct (nth_in_or_default (Z.to_nat x) (list_ascii_of_string "0123456789abcdef")
              "0"%char) as [H | H]; [exact H |].
  rewrite H. simpl. tauto.
Qed.

Lemma hexdigest_hex (data : string) : is_hex (SHA512.hexdigest data).
Proof.
  unfold is_hex, SHA512.hexdigest, SHA512.hex_state, SHA512.hex_word.
  rewrite list_ascii_of_string_of_list_ascii.
  repeat (apply Forall_app; split);
    apply Forall_forall; intros c Hc; apply in_map_iff in Hc;
    destruct Hc as [i [<- _]]; apply hex_digit_hex.
Qed.

Lemma substring_length (n : nat) (s : string) :
  String.length (String.substring 0 n s) = Nat.min n (String.length s).
Proof.
  revert n. induction s as [| c s IH]; intros [| n]; simpl; try reflexivity.
  now rewrite IH.
Qed.

Lemma substring_hex (n : nat) (s : string) : is_hex s -> is_hex (String.substring 0 n s).
Proof.
  unfold is_hex. revert n. induction s as [| c s IH]; intros [| n] H; simpl;
    try constructor.
  - now inversion H.
  - apply IH. now inversion H.
Qed.

(* ===================================================================== *)
(** * Construction: what [__init__] raises and what it leaves behind *)
(* ===================================================================== *)

Lemma parse_none_overrides (dh dnh : ref) (h : heap) :
  exists e, fst (_parse None dh dnh h) = Raise e.
Proof.
  unfold _parse.
  destruct dh as [a_hash |]; [| now eexists].
  destruct dnh as [a_non |]; [| now eexists].
  destruct (find _ _); now eexists.
Qed.

Lemma init_none_overrides (dh dnh : ref) (hash_len : Z) (verbose : bool) (h : heap) :
  exists e, fst (__init__ None dh dnh hash_len verbose h) = Raise e.
Proof.
  unfold __init__.
  destruct (parse_none_overrides dh dnh h) as [e He].
  destruct (_parse None dh dnh h) as [r h'] eqn:Hp. simpl in He. subst r.
  destruct dh, dnh; now eexists.
Qed.

Lemma init_none_overrides_disjoint (a_hash a_non : nat) (hash_len : Z)
    (verbose : bool) (h : heap) :
  find (fun k => dict_mem k (h a_hash)) (dict_keys (h a_non)) = None ->
  fst (__init__ None (Some a_hash) (Some a_non) hash_len verbose h) = Raise AttributeError.
Proof.
  intros Hd. unfold __init__, _parse. now rewrite Hd.
Qed.

Lemma init_ok_overrides (hps dh dnh : ref) (hash_len : Z) (verbose : bool)
    (h : heap) (self : pydict) :
  fst (__init__ hps dh dnh hash_len verbose h) = Ok self ->
  exists a_in, hps = Some a_in.
Proof.
  intros H. destruct hps as [a_in |]; [now eexists |].
  destruct (init_none_overrides dh dnh hash_len verbose h) as [e He].
  congruence.
Qed.

(** C9. Constructing with the overrides left at [None] raises, whatever the
    two default arguments are; with two disjoint default dictionaries the
    exception is the [AttributeError] of [None.items()]; a construction
    that returns an object was given a dictionary as overrides. *)
Theorem init_requires_overrides :
  (forall dh dnh hash_len verbose h,
      exists e, fst (__init__ None dh dnh hash_len verbose h) = Raise e) /\
  (forall a_hash a_non hash_len verbose h,
      find (fun k => dict_mem k (h a_hash)) (dict_keys (h a_non)) = None ->
      fst (__init__ None (Some a_hash) (Some a_non) hash_len verbose h)
      = Raise AttributeError) /\
  (forall hps dh dnh hash_len verbose h self,
      fst (__init__ hps dh dnh hash_len verbose h) = Ok self ->
      exists a_in, hps = Some a_in) /\
  is_ok (fst (__init__ (Some 0%nat) (Some 1%nat) (Some 2%nat) 10 false
           (heap_of [[]; [("lr"%string, VInt 1)]; [("logDir"%string, VStr "/tmp")]])))
  = true.
Proof.
  split; [exact init_none_overrides |].
  split; [exact init_none_overrides_disjoint |].
  split; [exact init_ok_overrides | reflexivity].
Qed.

Lemma init_requires_overrides_witness :
  fst (__init__ None (Some 1%nat) (Some 2%nat) 10 false
         (heap_of [[]; [("lr"%string, VInt 1)]; [("logDir"%string, VStr "/tmp")]]))
  = Raise AttributeError.
Proof.
  apply (proj1 (proj2 init_requires_overrides)). reflexivity.
Defined.

(** What [_parse] leaves in the store: once the two default dictionaries
    have passed the disjointness check, the object passed as
    [default_hash_hps] holds the merged defaults, whether the rest of the
    construction succeeds or raises. *)
Lemma parse_store (hps : ref) (a_hash a_non : nat) (h : heap) :
  find (fun k => dict_mem k (h a_hash)) (dict_keys (h a_non)) = None ->
  snd (_parse hps (Some a_hash) (Some a_non) h)
  = store h a_hash (dict_update (h a_hash) (h a_non)).
Proof.
  intros Hd. unfold _parse. rewrite Hd. now destruct hps.
Qed.

(** What [__init__] leaves in the store: once the two default
    dictionaries have passed the disjointness check, the object passed
    as [default_hash_hps] holds the merged defaults after the call,
    whether the construction succeeds or raises, and no other object is
    written. *)
Lemma init_store (hps : ref) (a_hash a_non : nat) (hash_len : Z) (verbose : bool)
    (h : heap) :
  find (fun k => dict_mem k (h a_hash)) (dict_keys (h a_non)) = None ->
  snd (__init__ hps (Some a_hash) (Some a_non) hash_len verbose h)
  = store h a_hash (dict_update (h a_hash) (h a_non)).
Proof.
  intros Hd. unfold __init__.
  pose proof (parse_store hps a_hash a_non h Hd) as Hs.
  destruct (_parse hps (Some a_hash) (Some a_non) h) as [[[all_hps hash_hps] | e] h'];
    exact Hs.
Qed.

Lemma init_store_witness :
  snd (__init__ (Some 0%nat) (Some 1%nat) (Some 2%nat) 10 false example_heap)
  = store example_heap 1%nat (dict_update (example_heap 1%nat) (example_heap 2%nat)).
Proof.
  apply init_store. reflexivity.
Defined.

(** C7. The construction writes into the caller's [default_hash_hps]:
    with hashed defaults [{a: 1}] and non-hashed defaults [{b: 2}] the
    object passed as hashed defaults holds [{a: 1, b: 2}] afterwards, after
    a successful construction and after one that raises on an unknown
    override key. *)
Theorem init_mutates_hash_defaults :
  let h := heap_of [[]; [("a"%string, VInt 1)]; [("b"%string, VInt 2)];
                    [("zzz"%string, VInt 0)]] in
  h 1%nat = [("a"%string, VInt 1)] /\
  is_ok (fst (__init__ (Some 0%nat) (Some 1%nat) (Some 2%nat) 10 false h)) = true /\
  snd (__init__ (Some 0%nat) (Some 1%nat) (Some 2%nat) 10 false h) 1%nat
  = [("a"%string, VInt 1); ("b"%string, VInt 2)] /\
  fst (__init__ (Some 3%nat) (Some 1%nat) (Some 2%nat) 10 false h)
  = Raise (ValueError (msg_invalid "zzz")) /\
  snd (__init__ (Some 3%nat) (Some 1%nat) (Some 2%nat) 10 false h) 1%nat
  = [("a"%string, VInt 1); ("b"%string, VInt 2)].
Proof.
  cbv zeta. repeat split.
Qed.

(** C6. A construction given exactly one of the two default dictionaries
    raises the [AttributeError] of [None.keys()], whatever the overrides
    and the dictionary are. *)
Theorem init_one_default_absent :
  (forall hps a_hash hash_len verbose h,
      fst (__init__ hps (Some a_hash) None hash_len verbose h) = Raise AttributeError) /\
  (forall hps a_non hash_len verbose h,
      fst (__init__ hps None (Some a_non) hash_len verbose h) = Raise AttributeError) /\
  fst (__init__ (Some 0%nat) (Some 1%nat) None 10 false
         (heap_of [[]; [("lr"%string, VInt 1)]]))
  = Raise AttributeError.
Proof.
  repeat split.
Qed.

(** C1. Two constructions whose Hashed Subset is not the set of hashed keys
    with a non-default value.  An array override [[1, 3]] of the hashed
    default [[1, 2]] is left out of the Hashed Subset, because
    [numpy.all] asks every element to differ.  An override of the
    non-hashed key [logDir] is put into the Hashed Subset, because the key
    view of the hashed defaults is read after the non-hashed defaults have
    been merged into the same dictionary. *)
Theorem hashed_subset_defects :
  (exists self,
      fst (__init__ (Some 0%nat) (Some 1%nat) (Some 2%nat) 10 false
             (heap_of [[("w"%string, VArr [1; 3])]; [("w"%string, VArr [1; 2])]; []]))
      = Ok self /\
      dict_get "w" self = Some (VArr [1; 3]) /\
      hashed_subset self = Some (VDict [])) /\
  (exists self,
      fst (__init__ (Some 0%nat) (Some 1%nat) (Some 2%nat) 10 false
             (heap_of [[("logDir"%string, VStr "/x")]; [("lr"%string, VInt 1)];
                       [("logDir"%string, VStr "/tmp")]]))
      = Ok self /\
      hashed_subset self = Some (VDict [("logDir"%string, VStr "/x")])).
Proof.
  split; eexists; repeat split.
Qed.

(* ===================================================================== *)
(** * Attributes of a constructed object *)
(* ===================================================================== *)

Lemma dict_mem_set (k x : string) (v : value) (d : pydict) :
  dict_mem x (dict_set k v d) = String.eqb k x || dict_mem x d.
Proof.
  unfold dict_mem. rewrite dict_get_set. now destruct (String.eqb k x).
Qed.

Lemma update_get_other (n : string) (items self : pydict) :
  dict_mem n items = false -> dict_get n (dict_update self items) = dict_get n self.
Proof.
  unfold dict_update. revert self.
  induction items as [| [k v] items IH]; intros self H; simpl; [reflexivity |].
  unfold dict_mem in H. simpl in H.
  destruct (String.eqb n k) eqn:E; [discriminate |].
  rewrite IH by exact H. apply dict_get_set_ne.
  apply String.eqb_neq in E. congruence.
Qed.

Lemma update_mem (n : string) (items self : pydict) :
  dict_mem n (dict_update self items) = dict_mem n self || dict_mem n items.
Proof.
  unfold dict_update. revert self.
  induction items as [| [k v] items IH]; intros self; simpl.
  - now rewrite orb_false_r.
  - rewrite IH, dict_mem_set. unfold dict_mem at 4. simpl.
    rewrite (String.eqb_sym n k).
    destruct (String.eqb k n), (dict_mem n self); simpl; reflexivity.
Qed.

Lemma parse_loop_keys (h : heap) (a b : nat) (items hps hth hps' hth' : pydict) :
  parse_loop h a b items hps hth = Ok (hps', hth') ->
  forall x, dict_mem x hps' = true -> dict_mem x hps = true \/ dict_mem x (h a) = true.
Proof.
  revert hps hth. induction items as [| [key val] items IH]; intros hps hth H x Hx.
  - inversion H. subst. now left.
  - simpl in H.
    destruct (truth_eq val (VStr "None")) as [is_none | e]; [| discriminate].
    cbn [bind] in H.
    destruct (dict_get key (h a)) as [dflt |] eqn:Ed; [| discriminate].
    match type of H with
    | bind ?c _ = _ => destruct c as [nd | e]; [| discriminate]
    end.
    cbn [bind] in H.
    destruct (IH _ _ H x Hx) as [Hm | Hm]; [| now right].
    rewrite dict_mem_set in Hm. apply orb_true_iff in Hm.
    destruct Hm as [Hm | Hm]; [| now left].
    apply String.eqb_eq in Hm. subst x. right. unfold dict_mem. now rewrite Ed.
Qed.

(** The attribute loop raises at the first name [setattr] refuses and
    otherwise writes every item into the instance dictionary. *)
Lemma setattrs_spec (self items : pydict) :
  setattrs self items =
  match first_refused items with
  | Some e => Raise e
  | None => Ok (dict_update self items)
  end.
Proof.
  revert self. induction items as [| [key val] items IH]; intros self; simpl;
    [reflexivity |].
  unfold setattr. destruct (setattr_refused key); [reflexivity |].
  cbn [bind]. apply IH.
Qed.

(** A successful construction, taken apart. *)
Lemma init_ok_inv (hps dh dnh : ref) (hash_len : Z) (verbose : bool) (h : heap)
    (self : pydict) :
  fst (__init__ hps dh dnh hash_len verbose h) = Ok self ->
  exists a_in a_hash a_non all_hps hash_hps,
    hps = Some a_in /\ dh = Some a_hash /\ dnh = Some a_non /\
    find (fun k => dict_mem k (h a_hash)) (dict_keys (h a_non)) = None /\
    parse_loop (store h a_hash (dict_update (h a_hash) (h a_non))) a_hash a_hash
      (store h a_hash (dict_update (h a_hash) (h a_non)) a_in)
      (dict_update (h a_hash) (h a_non)) []
    = Ok (all_hps, hash_hps) /\
    first_refused all_hps = None /\
    self = dict_update (fresh_self hash_len verbose all_hps hash_hps) all_hps.
Proof.
  unfold __init__, _parse.
  destruct dh as [a_hash |]; destruct dnh as [a_non |]; simpl; try discriminate.
  destruct (find _ _) eqn:Ef; simpl; [discriminate |].
  destruct hps as [a_in |]; simpl; [| discriminate].
  unfold store at 3. rewrite Nat.eqb_refl.
  destruct (parse_loop _ _ _ _ _ _) as [[all_hps hash_hps] | e] eqn:Ep; simpl;
    [| discriminate].
  change (dict_set "_hash_hps_as_dict" (VDict hash_hps)
            (dict_set "_all_hps_as_dict" (VDict all_hps)
               (dict_set "_verbose" (VBool verbose)
                  (dict_set "_hash_len" (VInt hash_len) []))))
    with (fresh_self hash_len verbose all_hps hash_hps).
  rewrite setattrs_spec.
  destruct (first_refused all_hps) eqn:Er; [discriminate |].
  intros H. inversion H.
  exists a_in, a_hash, a_non, all_hps, hash_hps. repeat split; assumption.
Qed.

Lemma dict_mem_update (x : string) (d other : pydict) :
  dict_mem x (dict_update d other) = dict_mem x d || dict_mem x other.
Proof. apply (update_mem x other d). Qed.

(** The attributes [get_hash] reads on an object none of whose
    hyperparameters bears one of their names. *)
Lemma get_hash_of_fresh (hash_len : Z) (verbose : bool) (all_hps hash_hps : pydict) :
  (forall name, In name get_hash_names -> dict_mem name all_hps = false) ->
  get_hash (dict_update (fresh_self hash_len verbose all_hps hash_hps) all_hps)
  = Ok (slice_to hash_len (_generate_hash hash_hps)).
Proof.
  intros Hn.
  assert (Hget : forall name, In name get_hash_names ->
            dict_get name (dict_update (fresh_self hash_len verbose all_hps hash_hps) all_hps)
            = dict_get name (fresh_self hash_len verbose all_hps hash_hps)).
  { intros name Hin. apply update_get_other. now apply Hn. }
  unfold get_hash, hash_of_attr, call_generate_hash, method, getattr, dict_mem.
  rewrite !Hget by (simpl; tauto).
  reflexivity.
Qed.

(** C4.  The docstring of [__init__] has [hash_len] an int between 1
    and 512, the number of hex characters in the hash; the hash is a
    slice of the SHA-512 hex digest, which has 128 characters.  With
    [hash_len = 129] the hash has the 128 characters of the whole digest;
    and a hyperparameter named [_hash_len] replaces the attribute of the
    same name, so that with [hash_len = 10] and the default
    [_hash_len = 3] the hash has 3 characters. *)
Theorem get_hash_length_defects :
  (exists s,
      construct_and_hash (Some 0%nat) (Some 1%nat) (Some 2%nat) 129
        (heap_of [[]; [("lr"%string, VInt 1)]; []]) = Ok s /\
      s = SHA512.hexdigest "{}" /\
      String.length s = 128%nat /\ Z.of_nat (String.length s) <> 129) /\
  (exists s,
      construct_and_hash (Some 0%nat) (Some 1%nat) (Some 2%nat) 10
        (heap_of [[]; [("_hash_len"%string, VInt 3)]; []]) = Ok s /\
      s = String.substring 0 3 (SHA512.hexdigest "{}") /\
      String.length s = 3%nat /\ Z.of_nat (String.length s) <> 10).
Proof.
  split; eexists; (split; [vm_compute; reflexivity |]);
    (split; [vm_compute; reflexivity |]);
    split; [reflexivity | discriminate | reflexivity | discriminate].
Qed.

(* ===================================================================== *)
(** * A new default that no override touches *)
(* ===================================================================== *)

Lemma without_get (k x : string) (d : pydict) :
  x <> k -> dict_get x (without k d) = dict_get x d.
Proof.
  intros Hne. induction d as [| [k' v'] d IH]; simpl; [reflexivity |].
  destruct (String.eqb k k') eqn:E; simpl.
  - apply String.eqb_eq in E. subst k'.
    apply String.eqb_neq in Hne. now rewrite Hne.
  - destruct (String.eqb x k'); [reflexivity | exact IH].
Qed.

Lemma without_set_ne (k x : string) (v : value) (d : pydict) :
  x <> k -> without k (dict_set x v d) = dict_set x v (without k d).
Proof.
  intros Hne. assert (Hkx : String.eqb k x = false).
  { apply String.eqb_neq. congruence. }
  induction d as [| [k' v'] d IH]; simpl.
  - now rewrite Hkx.
  - destruct (String.eqb x k') eqn:E; simpl.
    + apply String.eqb_eq in E. subst k'. rewrite Hkx. simpl.
      now rewrite String.eqb_refl.
    + destruct (String.eqb k k'); simpl; [exact IH |].
      rewrite E. now rewrite IH.
Qed.

Lemma without_set_eq (k : string) (v : value) (d : pydict) :
  without k (dict_set k v d) = without k d.
Proof.
  induction d as [| [k' v'] d IH]; simpl.
  - now rewrite String.eqb_refl.
  - destruct (String.eqb k k') eqn:E; simpl; rewrite E; simpl;
      [reflexivity | now rewrite IH].
Qed.

Lemma without_update (k : string) (d other : pydict) :
  dict_mem k other = false ->
  without k (dict_update d other) = dict_update (without k d) other.
Proof.
  unfold dict_update. revert d.
  induction other as [| [x v] other IH]; intros d H; simpl; [reflexivity |].
  unfold dict_mem in H. simpl in H.
  destruct (String.eqb k x) eqn:E; [discriminate |].
  rewrite IH by exact H. f_equal. apply without_set_ne.
  apply String.eqb_neq in E. congruence.
Qed.

Lemma update_get_congr (n : string) (items s1 s2 : pydict) :
  dict_get n s1 = dict_get n s2 ->
  dict_get n (dict_update s1 items) = dict_get n (dict_update s2 items).
Proof.
  unfold dict_update. revert s1 s2.
  induction items as [| [x v] items IH]; intros s1 s2 H; simpl; [exact H |].
  apply IH. rewrite !dict_get_set. now rewrite H.
Qed.

Lemma update_get_without (k n : string) (items s : pydict) :
  n <> k ->
  dict_get n (dict_update s items) = dict_get n (dict_update s (without k items)).
Proof.
  intros Hne. revert s.
  induction items as [| [x v] items IH]; intros s; simpl; [reflexivity |].
  destruct (String.eqb k x) eqn:E; simpl.
  - apply String.eqb_eq in E. subst x.
    rewrite <- IH. apply update_get_congr.
    apply dict_get_set_ne. congruence.
  - apply IH.
Qed.

Lemma find_ext_in {A : Type} (f g : A -> bool) (l : list A) :
  (forall x, In x l -> f x = g x) -> find f l = find g l.
Proof.
  induction l as [| a l IH]; intros H; simpl; [reflexivity |].
  rewrite (H a) by now left.
  destruct (g a); [reflexivity |]. apply IH. intros x Hx. apply H. now right.
Qed.

(** The loop of [_parse] over overrides that do not mention [k], run
    against two stores whose merged defaults differ at most under [k]:
    the same exception, or the same Hashed Subset and effective
    configurations that differ at most under [k]. *)
Lemma parse_loop_without (k : string) (h1 h2 : heap) (a : nat)
    (items hps1 hps2 hth : pydict) :
  (forall x, x <> k -> dict_get x (h2 a) = dict_get x (h1 a)) ->
  dict_mem k items = false ->
  without k hps2 = without k hps1 ->
  match parse_loop h2 a a items hps2 hth, parse_loop h1 a a items hps1 hth with
  | Ok (all2, hash2), Ok (all1, hash1) =>
      without k all2 = without k all1 /\ hash2 = hash1
  | Raise e2, Raise e1 => e2 = e1
  | _, _ => False
  end.
Proof.
  intros Hh. revert hps1 hps2 hth.
  induction items as [| [key val] items IH]; intros hps1 hps2 hth Hk Hw; simpl.
  - now split.
  - unfold dict_mem in Hk. simpl in Hk.
    destruct (String.eqb k key) eqn:E; [discriminate |].
    assert (Hne : key <> k) by (apply String.eqb_neq in E; congruence).
    destruct (truth_eq val (VStr "None")) as [is_none | e]; cbn [bind];
      [| reflexivity].
    unfold dict_mem. rewrite (Hh key Hne).
    destruct (dict_get key (h1 a)) as [dflt |]; [| reflexivity].
    destruct (np_all_ne (if is_none then VNone else val) dflt) as [nd | e];
      cbn [bind]; [| reflexivity].
    apply IH; [exact Hk |].
    rewrite !without_set_ne by exact Hne. now rewrite Hw.
Qed.

Lemma first_refused_without (k : string) (items : pydict) :
  setattr_refused k = None -> first_refused (without k items) = first_refused items.
Proof.
  intros Hk. induction items as [| [key val] items IH]; simpl; [reflexivity |].
  destruct (String.eqb k key) eqn:E; simpl.
  - apply String.eqb_eq in E. subst key. now rewrite Hk.
  - now rewrite IH.
Qed.

(** Default-omission stability.  Adding to the hashed defaults a key [k]
    that neither default dictionary declares, that no override touches,
    that [setattr] accepts and that is not the name of an attribute
    [get_hash] reads leaves [get_hash()] unchanged, exceptions included. *)
Lemma get_hash_stable_under_new_default (h : heap) (a_in a_hash a_non : nat)
    (k : string) (v : value) (hash_len : Z) :
  a_hash <> a_in -> a_hash <> a_non ->
  dict_mem k (h a_hash) = false ->
  dict_mem k (h a_non) = false ->
  dict_mem k (h a_in) = false ->
  ~ In k get_hash_names ->
  setattr_refused k = None ->
  construct_and_hash (Some a_in) (Some a_hash) (Some a_non) hash_len
    (store h a_hash (dict_set k v (h a_hash)))
  = construct_and_hash (Some a_in) (Some a_hash) (Some a_non) hash_len h.
Proof.
  intros Hin Hnon Hk1 Hk2 Hk3 Hres Hset.
  apply Nat.eqb_neq in Hin. apply Nat.eqb_neq in Hnon.
  rewrite Nat.eqb_sym in Hin. rewrite Nat.eqb_sym in Hnon.
  unfold construct_and_hash, __init__, _parse.
  set (h2 := store h a_hash (dict_set k v (h a_hash))).
  assert (E2h : h2 a_hash = dict_set k v (h a_hash)).
  { unfold h2, store. now rewrite Nat.eqb_refl. }
  assert (E2n : h2 a_non = h a_non) by (unfold h2, store; now rewrite Hnon).
  assert (E2i : h2 a_in = h a_in) by (unfold h2, store; now rewrite Hin).
  rewrite E2h, E2n.
  assert (Hfind : find (fun key => dict_mem key (dict_set k v (h a_hash)))
                       (dict_keys (h a_non))
                  = find (fun key => dict_mem key (h a_hash)) (dict_keys (h a_non))).
  { apply find_ext_in. intros x Hx. rewrite dict_mem_set.
    destruct (String.eqb k x) eqn:E; [| reflexivity].
    apply String.eqb_eq in E. subst x. apply dict_mem_In in Hx. congruence. }
  rewrite Hfind.
  destruct (find (fun key => dict_mem key (h a_hash)) (dict_keys (h a_non)));
    [reflexivity |].
  cbn [fst snd].
  set (m2 := dict_update (dict_set k v (h a_hash)) (h a_non)).
  set (m1 := dict_update (h a_hash) (h a_non)).
  assert (Hm : without k m2 = without k m1).
  { unfold m2, m1. rewrite !without_update by exact Hk2.
    now rewrite without_set_eq. }
  assert (Ei2 : store h2 a_hash m2 a_in = h a_in).
  { unfold store at 1. now rewrite Hin. }
  assert (Ei1 : store h a_hash m1 a_in = h a_in).
  { unfold store. now rewrite Hin. }
  assert (Eh2 : store h2 a_hash m2 a_hash = m2).
  { unfold store at 1. now rewrite Nat.eqb_refl. }
  assert (Eh1 : store h a_hash m1 a_hash = m1).
  { unfold store. now rewrite Nat.eqb_refl. }
  rewrite Ei2, Ei1, Eh2, Eh1.
  pose proof (parse_loop_without k (store h a_hash m1) (store h2 a_hash m2) a_hash
                (h a_in) m1 m2 []) as Hloop.
  rewrite Eh2, Eh1 in Hloop.
  specialize (Hloop (fun x Hx => eq_trans (eq_sym (without_get k x m2 Hx))
                                   (eq_trans (f_equal (dict_get x) Hm)
                                             (without_get k x m1 Hx)))
                    Hk3 Hm).
  destruct (parse_loop (store h2 a_hash m2) a_hash a_hash (h a_in) m2 [])
    as [[all2 hash2] | e2];
    destruct (parse_loop (store h a_hash m1) a_hash a_hash (h a_in) m1 [])
    as [[all1 hash1] | e1]; try contradiction; cbn [fst bind].
  - destruct Hloop as [Hall ->].
    change (dict_set "_hash_hps_as_dict" (VDict hash1)
              (dict_set "_all_hps_as_dict" (VDict all2)
                 (dict_set "_verbose" (VBool false)
                    (dict_set "_hash_len" (VInt hash_len) []))))
      with (fresh_self hash_len false all2 hash1).
    change (dict_set "_hash_hps_as_dict" (VDict hash1)
              (dict_set "_all_hps_as_dict" (VDict all1)
                 (dict_set "_verbose" (VBool false)
                    (dict_set "_hash_len" (VInt hash_len) []))))
      with (fresh_self hash_len false all1 hash1).
    rewrite !setattrs_spec.
    rewrite <- (first_refused_without k all2 Hset), Hall,
      (first_refused_without k all1 Hset).
    destruct (first_refused all1); [reflexivity |]. cbn [bind].
    assert (Hattr : forall n, In n get_hash_names ->
              dict_get n (dict_update (fresh_self hash_len false all2 hash1) all2)
              = dict_get n (dict_update (fresh_self hash_len false all1 hash1) all1)).
    { intros n Hn. assert (Hnk : n <> k) by (intros ->; contradiction).
      rewrite (update_get_without k n all2) by exact Hnk.
      rewrite (update_get_without k n all1) by exact Hnk.
      rewrite Hall. apply update_get_congr.
      simpl in Hn.
      repeat (destruct Hn as [<- | Hn]; [reflexivity |]). contradiction. }
    unfold get_hash, hash_of_attr, call_generate_hash, method, getattr, dict_mem.
    rewrite !Hattr by (simpl; tauto). reflexivity.
  - now rewrite Hloop.
Qed.

Lemma get_hash_stable_under_new_default_witness :
  construct_and_hash (Some 0%nat) (Some 1%nat) (Some 2%nat) 10
    (store example_heap 1%nat (dict_set "momentum" (VInt 9) (example_heap 1%nat)))
  = construct_and_hash (Some 0%nat) (Some 1%nat) (Some 2%nat) 10 example_heap.
Proof.
  apply get_hash_stable_under_new_default; try reflexivity; try discriminate.
  simpl. intros H.
  repeat (destruct H as [H | H]; [discriminate H |]). exact H.
Defined.

(** C3. A new hashed default named [_hash_len] changes [get_hash()]:
    with the defaults [{a: 1}] and no override the hash has the 10
    characters asked for, and with the default [_hash_len = 3] added it
    has 3, because [setattr] in [__init__] replaces the attribute that
    holds the hash length. *)
Theorem get_hash_changed_by_new_default :
  construct_and_hash (Some 0%nat) (Some 1%nat) (Some 2%nat) 10
    (heap_of [[]; [("a"%string, VInt 1)]; []])
  = Ok "27c74670ad"%string /\
  construct_and_hash (Some 0%nat) (Some 1%nat) (Some 2%nat) 10
    (store (heap_of [[]; [("a"%string, VInt 1)]; []]) 1%nat
       (dict_set "_hash_len" (VInt 3) [("a"%string, VInt 1)]))
  = Ok "27c"%string.
Proof.
  split; vm_compute; reflexivity.
Qed.

(* ===================================================================== *)
(** * What [_parse] computes *)
(* ===================================================================== *)

Lemma no_array_items (d : pydict) (k : string) (v : value) :
  no_array (VDict d) = true -> In (k, v) d -> no_array v = true.
Proof.
  simpl. induction d as [| [k' v'] d IH]; intros H Hin; [contradiction |].
  apply andb_true_iff in H. destruct H as [H1 H2].
  destruct Hin as [Hin | Hin]; [inversion Hin; now subst | now apply IH].
Qed.

Lemma all_items_total (test : string -> value -> result bool) (l : pydict) :
  (forall k v, In (k, v) l -> exists c, test k v = Ok c) ->
  exists c, all_items test l = Ok c.
Proof.
  induction l as [| [k v] l IH]; intros H; simpl; [now eexists |].
  destruct (H k v (or_introl eq_refl)) as [c Hc]. rewrite Hc. cbn [bind].
  destruct c; [| now eexists].
  apply IH. intros k' v' Hin. apply H. now right.
Qed.

(** Comparing values with no array in them raises nothing. *)
Lemma truth_eq_total (a : value) :
  no_array a = true ->
  forall b, no_array b = true -> exists c, truth_eq a b = Ok c.
Proof.
  induction a as [| x | m | s | x | d IH] using value_nested_ind; intros Ha b Hb;
    try (destruct b; simpl in *; try discriminate; now eexists).
  rewrite Forall_forall in IH.
  destruct b as [| y | n | t | y | d'];
    try (simpl in *; try discriminate; now eexists).
  assert (Hd : forall k v, In (k, v) d -> no_array v = true)
    by (intros k v; apply (no_array_items d k v Ha)).
  assert (Hd' : forall k v, In (k, v) d' -> no_array v = true)
    by (intros k v; apply (no_array_items d' k v Hb)).
  cbn [truth_eq].
  destruct (Nat.eqb (List.length d) (List.length d')); [| now eexists].
  apply all_items_total. intros k v Hin.
  destruct (dict_get k d') as [w |] eqn:E; [| now eexists].
  apply (IH (k, v) Hin (Hd k v Hin) w).
  apply (Hd' k w). now apply dict_get_Some_In.
Qed.

Lemma np_all_ne_total (val dflt : value) :
  plain val = true -> plain dflt = true -> exists c, np_all_ne val dflt = Ok c.
Proof.
  intros Hv Hd. unfold np_all_ne.
  destruct val; try (destruct dflt; try now eexists);
    match goal with
    | |- exists c, bind (truth_eq ?a ?b) _ = _ =>
        destruct (truth_eq_total a Hv b Hd) as [c Hc]; rewrite Hc; now eexists
    end.
Qed.

Lemma is_none_override (val : value) :
  exists c, truth_eq val (VStr "None") = Ok c /\
            (if c then VNone else val) = override_value val.
Proof.
  destruct val as [| x | m | s | x | d]; try (eexists; split; reflexivity).
  simpl. exists (String.eqb s "None"). split; [reflexivity |].
  destruct (String.eqb s "None") eqn:E.
  - apply String.eqb_eq in E. now subst.
  - apply String.eqb_neq in E. unfold override_value.
    repeat (try reflexivity; try congruence;
            match goal with
            | |- _ = match ?x with _ => _ end => destruct x
            end).
Qed.

Lemma plain_override (val : value) : plain val = true -> plain (override_value val) = true.
Proof.
  destruct (is_none_override val) as [c [_ E]]. rewrite <- E.
  now destruct c.
Qed.

Lemma plain_dict_get (d : pydict) (k : string) (v : value) :
  plain_dict d = true -> dict_get k d = Some v -> plain v = true.
Proof.
  unfold plain_dict. rewrite forallb_forall. intros H E.
  apply (H (k, v)). eapply dict_get_Some_In. exact E.
Qed.

(** The loop of [_parse] on plain values: it raises on the first override
    key that has no default, and on nothing else. *)
Lemma parse_loop_outcome (h : heap) (a b : nat) (items hps hth : pydict) :
  plain_dict items = true -> plain_dict (h a) = true ->
  match find (fun kv => negb (dict_mem (fst kv) (h a))) items with
  | Some kv => parse_loop h a b items hps hth = Raise (ValueError (msg_invalid (fst kv)))
  | None => exists r, parse_loop h a b items hps hth = Ok r
  end.
Proof.
  intros Hitems Hdef. revert hps hth.
  induction items as [| [key val] items IH]; intros hps hth; simpl.
  - now eexists.
  - simpl in Hitems. apply andb_true_iff in Hitems. destruct Hitems as [Hval Hitems].
    destruct (is_none_override val) as [c [Hc Ec]]. rewrite Hc. cbn [bind]. rewrite Ec.
    unfold dict_mem at 1.
    destruct (dict_get key (h a)) as [dflt |] eqn:Ed; simpl; [| reflexivity].
    assert (Hnd : exists nd,
              (if dict_mem key (h b) then np_all_ne (override_value val) dflt
               else Ok false) = Ok nd).
    { destruct (dict_mem key (h b)); [| now eexists].
      apply np_all_ne_total; [now apply plain_override |].
      eapply plain_dict_get; eassumption. }
    destruct Hnd as [nd Hnd]. rewrite Hnd. cbn [bind].
    apply (IH Hitems).
Qed.

Lemma plain_dict_set (k : string) (v : value) (d : pydict) :
  plain v = true -> plain_dict d = true -> plain_dict (dict_set k v d) = true.
Proof.
  unfold plain_dict. intros Hv. induction d as [| [k' v'] d IH]; simpl; intros H.
  - now rewrite Hv.
  - apply andb_true_iff in H. destruct H as [H1 H2].
    destruct (String.eqb k k'); simpl.
    + now rewrite Hv, H2.
    + now rewrite H1, IH.
Qed.

Lemma plain_dict_update (d other : pydict) :
  plain_dict d = true -> plain_dict other = true ->
  plain_dict (dict_update d other) = true.
Proof.
  unfold dict_update. revert d.
  induction other as [| [k v] other IH]; intros d Hd Ho; simpl; [exact Hd |].
  unfold plain_dict in Ho. simpl in Ho. apply andb_true_iff in Ho.
  destruct Ho as [Hv Ho]. apply IH; [| exact Ho].
  now apply plain_dict_set.
Qed.

Lemma find_none_iff {A : Type} (f : A -> bool) (l : list A) :
  find f l = None <-> forall x, In x l -> f x = false.
Proof.
  split; [apply find_none |].
  induction l as [| a l IH]; intros H; simpl; [reflexivity |].
  rewrite (H a) by now left. apply IH. intros x Hx. apply H. now right.
Qed.

(** Validation in [_parse].  Given three dictionaries of plain values,
    the overrides in an object of their own, [_parse] returns exactly when
    no non-hashed default is also a hashed default and every override key
    has a default; and whatever it raises is a [ValueError]. *)
Lemma parse_validation (a_in a_hash a_non : nat) (h : heap) :
  a_in <> a_hash ->
  plain_dict (h a_in) = true -> plain_dict (h a_hash) = true ->
  plain_dict (h a_non) = true ->
  (is_ok (fst (_parse (Some a_in) (Some a_hash) (Some a_non) h)) = true <->
   (forall k, In k (dict_keys (h a_non)) -> dict_mem k (h a_hash) = false) /\
   (forall k, In k (dict_keys (h a_in)) ->
              dict_mem k (h a_hash) || dict_mem k (h a_non) = true)) /\
  (forall e,
      fst (_parse (Some a_in) (Some a_hash) (Some a_non) h) = Raise e ->
      exists msg, e = ValueError msg).
Proof.
  intros Hne Hpi Hph Hpn. apply Nat.eqb_neq in Hne.
  unfold _parse.
  destruct (find (fun k => dict_mem k (h a_hash)) (dict_keys (h a_non)))
    as [k0 |] eqn:Ef.
  - split.
    + simpl. split; [discriminate |]. intros [Hd _].
      apply find_some in Ef. destruct Ef as [Hin Hm].
      rewrite (Hd k0 Hin) in Hm. discriminate.
    + simpl. intros e H. inversion H. now eexists.
  - set (m := dict_update (h a_hash) (h a_non)).
    assert (Ei : store h a_hash m a_in = h a_in) by (unfold store; now rewrite Hne).
    assert (Eh : store h a_hash m a_hash = m)
      by (unfold store; now rewrite Nat.eqb_refl).
    rewrite Ei, Eh.
    pose proof (parse_loop_outcome (store h a_hash m) a_hash a_hash (h a_in) m []) as Ho.
    rewrite Eh in Ho.
    specialize (Ho Hpi (plain_dict_update _ _ Hph Hpn)).
    rewrite find_none_iff in Ef.
    destruct (find (fun kv => negb (dict_mem (fst kv) m)) (h a_in)) as [kv |] eqn:Eu.
    + cbn [fst]. rewrite Ho. split.
      * simpl. split; [discriminate |]. intros [_ Hk].
        apply find_some in Eu. destruct Eu as [Hin Hm].
        unfold m in Hm. rewrite dict_mem_update in Hm.
        rewrite (Hk (fst kv)) in Hm; [discriminate |].
        unfold dict_keys. now apply in_map.
      * intros e H. inversion H. now eexists.
    + destruct Ho as [[all_hps hash_hps] Ho]. cbn [fst]. rewrite Ho. split.
      * simpl. split; [| reflexivity]. intros _. split; [exact Ef |].
        intros k Hk. rewrite find_none_iff in Eu.
        unfold dict_keys in Hk. apply in_map_iff in Hk.
        destruct Hk as [kv [<- Hin]]. specialize (Eu kv Hin).
        apply negb_false_iff in Eu. unfold m in Eu.
        now rewrite dict_mem_update in Eu.
      * discriminate.
Qed.

Lemma parse_validation_witness :
  (is_ok (fst (_parse (Some 0%nat) (Some 1%nat) (Some 2%nat) example_heap)) = true <->
   (forall k, In k (dict_keys (example_heap 2%nat)) ->
              dict_mem k (example_heap 1%nat) = false) /\
   (forall k, In k (dict_keys (example_heap 0%nat)) ->
              dict_mem k (example_heap 1%nat) || dict_mem k (example_heap 2%nat) = true)) /\
  (forall e,
      fst (_parse (Some 0%nat) (Some 1%nat) (Some 2%nat) example_heap) = Raise e ->
      exists msg, e = ValueError msg).
Proof.
  apply parse_validation; [discriminate | reflexivity | reflexivity | reflexivity].
Defined.

(** The Hashed Subset that [_parse] computes: a key is in it exactly when
    an override names it and the stored override is told apart from the
    default of the key, hashed or not, by [numpy.all(val != default)]. *)
Lemma parse_loop_hashed (h : heap) (a : nat) (items hps hth all_hps hash_hps : pydict) :
  parse_loop h a a items hps hth = Ok (all_hps, hash_hps) ->
  NoDup (dict_keys items) ->
  (forall k, In k (dict_keys items) -> dict_get k hth = None) ->
  forall key val',
    dict_get key hash_hps = Some val' <->
    dict_get key hth = Some val' \/
    exists val dflt,
      dict_get key items = Some val /\ val' = override_value val /\
      dict_get key (h a) = Some dflt /\ np_all_ne val' dflt = Ok true.
Proof.
  revert hps hth. induction items as [| [key0 val0] items IH];
    intros hps hth Hp Hn Hfresh key val'.
  - inversion Hp. subst. split; [now left |].
    intros [H | [val [dflt [H _]]]]; [exact H | discriminate].
  - simpl in Hp.
    destruct (is_none_override val0) as [c [Hc Ec]].
    rewrite Hc in Hp. cbn [bind] in Hp. rewrite Ec in Hp.
    destruct (dict_get key0 (h a)) as [dflt0 |] eqn:Ed; [| discriminate].
    unfold dict_mem in Hp. rewrite Ed in Hp.
    destruct (np_all_ne (override_value val0) dflt0) as [nd | e] eqn:End;
      [| discriminate].
    cbn [bind] in Hp.
    simpl in Hn. inversion Hn as [| x l Hnotin Hn']. subst.
    assert (Hfresh' : forall k, In k (dict_keys items) ->
              dict_get k (if nd then dict_set key0 (override_value val0) hth else hth)
              = None).
    { intros k Hk. assert (Hkk : key0 <> k) by (intros ->; contradiction).
      destruct nd; [rewrite dict_get_set_ne by exact Hkk |];
        apply Hfresh; now right. }
    rewrite (IH _ _ Hp Hn' Hfresh' key val'). simpl.
    destruct (String.eqb key key0) eqn:E.
    + apply String.eqb_eq in E. subst key.
      assert (Hitems : dict_get key0 items = None) by now apply dict_get_None_iff.
      assert (Hhth : dict_get key0 hth = None) by (apply Hfresh; now left).
      rewrite Hitems, Hhth. split.
      * intros [H | [val [dflt [H _]]]]; [| discriminate].
        right. destruct nd; [| congruence].
        rewrite dict_get_set_eq in H. inversion H. subst val'.
        exists val0, dflt0. repeat split; assumption.
      * intros [H | [val [dflt [Hv [-> [Hd Hne]]]]]]; [discriminate |].
        inversion Hv. subst val. left.
        assert (dflt = dflt0) by congruence. subst dflt.
        rewrite End in Hne. inversion Hne. subst nd.
        apply dict_get_set_eq.
    + apply String.eqb_neq in E.
      assert (Hsame : dict_get key
                (if nd then dict_set key0 (override_value val0) hth else hth)
              = dict_get key hth).
      { destruct nd; [| reflexivity]. apply dict_get_set_ne. congruence. }
      now rewrite Hsame.
Qed.

(** The Hashed Subset of a constructed object none of whose
    hyperparameters is named [_hash_hps_as_dict], for overrides and
    defaults whose arrays, if any, are not inside a nested dictionary:
    the overrides, of hashed and of non-hashed keys alike, that
    [numpy.all(val != default)] tells apart from their default. *)
Lemma hashed_subset_spec (a_in a_hash a_non : nat) (hash_len : Z) (verbose : bool)
    (h : heap) (self : pydict) :
  a_in <> a_hash ->
  NoDup (dict_keys (h a_in)) ->
  plain_dict (h a_in) = true ->
  plain_dict (h a_hash) = true ->
  plain_dict (h a_non) = true ->
  dict_mem "_hash_hps_as_dict" (dict_update (h a_hash) (h a_non)) = false ->
  fst (__init__ (Some a_in) (Some a_hash) (Some a_non) hash_len verbose h) = Ok self ->
  exists hash_hps,
    hashed_subset self = Some (VDict hash_hps) /\
    forall key val',
      dict_get key hash_hps = Some val' <->
      exists val dflt,
        dict_get key (h a_in) = Some val /\ val' = override_value val /\
        dict_get key (dict_update (h a_hash) (h a_non)) = Some dflt /\
        np_all_ne val' dflt = Ok true.
Proof.
  intros Hne Hnd _ _ _ Hname Hinit. apply Nat.eqb_neq in Hne.
  destruct (init_ok_inv _ _ _ _ _ _ _ Hinit)
    as [a_in' [a_hash' [a_non' [all_hps [hash_hps [E1 [E2 [E3 [Hf [Hp [_ ->]]]]]]]]]]].
  inversion E1. inversion E2. inversion E3. subst a_in' a_hash' a_non'.
  set (m := dict_update (h a_hash) (h a_non)) in *.
  assert (Ei : store h a_hash m a_in = h a_in) by (unfold store; now rewrite Hne).
  rewrite Ei in Hp.
  exists hash_hps. split.
  - unfold hashed_subset. rewrite update_get_other; [reflexivity |].
    destruct (dict_mem "_hash_hps_as_dict" all_hps) eqn:E; [| reflexivity].
    destruct (parse_loop_keys _ _ _ _ _ _ _ _ Hp _ E) as [Hm | Hm].
    + congruence.
    + unfold store in Hm. rewrite Nat.eqb_refl in Hm. congruence.
  - intros key val'.
    rewrite (parse_loop_hashed _ _ _ _ _ _ _ Hp Hnd (fun _ _ => eq_refl) key val').
    unfold store at 1. rewrite Nat.eqb_refl. simpl.
    split; [intros [H | H]; [discriminate | exact H] | intros H; now right].
Qed.

Lemma hashed_subset_spec_witness :
  exists self hash_hps,
    fst (__init__ (Some 0%nat) (Some 1%nat) (Some 2%nat) 10 false example_heap) = Ok self /\
    hashed_subset self = Some (VDict hash_hps) /\
    dict_get "depth" hash_hps = Some (VInt 5) /\
    dict_get "lr" hash_hps = None.
Proof.
  eexists.
  destruct (hashed_subset_spec 0%nat 1%nat 2%nat 10 false example_heap _
              ltac:(discriminate)
              ltac:(apply nodup_keys_NoDup; reflexivity)
              eq_refl eq_refl eq_refl eq_refl eq_refl)
    as [hash_hps [Hs Hspec]].
  exists hash_hps. split; [reflexivity |]. split; [exact Hs |].
  split.
  - apply Hspec. exists (VInt 5), (VInt 3). repeat split.
  - destruct (dict_get "lr" hash_hps) as [v |] eqn:E; [| reflexivity].
    apply Hspec in E. destruct E as [val [dflt [E _]]]. discriminate E.
Defined.

(* ===================================================================== *)
(** * Properties of [str2bool] *)
(* ===================================================================== *)

Lemma false_token_not_true (t : string) : In t false_tokens -> str_in t true_tokens = false.
Proof.
  unfold false_tokens. simpl.
  intros [H | [H | [H | [H | [H | []]]]]]; subst; reflexivity.
Qed.

Lemma str2bool_true (v : string) : In (lower v) true_tokens -> str2bool v = Ok true.
Proof.
  intros H. unfold str2bool. apply str_in_In in H. now rewrite H.
Qed.

Lemma str2bool_false (v : string) : In (lower v) false_tokens -> str2bool v = Ok false.
Proof.
  intros H. unfold str2bool.
  rewrite (false_token_not_true _ H).
  apply str_in_In in H. now rewrite H.
Qed.

Lemma str2bool_error (v : string) :
  ~ In (lower v) (true_tokens ++ false_tokens) ->
  str2bool v = Raise (ArgumentTypeError "Boolean value expected.").
Proof.
  intros H. unfold str2bool.
  assert (Ht : str_in (lower v) true_tokens = false).
  { apply str_in_not_In. intros Hi. apply H, in_or_app. now left. }
  assert (Hf : str_in (lower v) false_tokens = false).
  { apply str_in_not_In. intros Hi. apply H, in_or_app. now right. }
  now rewrite Ht, Hf.
Qed.

(** The result is [True] exactly on the first family of tokens and [False]
    exactly on the second. *)
Lemma str2bool_true_iff (v : string) : str2bool v = Ok true <-> In (lower v) true_tokens.
Proof.
  split.
  - unfold str2bool. destruct (str_in (lower v) true_tokens) eqn:E.
    + intros _. now apply str_in_In.
    + destruct (str_in (lower v) false_tokens); discriminate.
  - apply str2bool_true.
Qed.

Lemma str2bool_false_iff (v : string) : str2bool v = Ok false <-> In (lower v) false_tokens.
Proof.
  split.
  - unfold str2bool. destruct (str_in (lower v) true_tokens) eqn:E; [discriminate |].
    destruct (str_in (lower v) false_tokens) eqn:F; [| discriminate].
    intros _. now apply str_in_In.
  - apply str2bool_false.
Qed.

(** Lower-casing maps every spelling of a token to the token. *)
Example lower_spellings :
  lower "YES" = "yes"%string /\ lower "True" = "true"%string /\
  lower "fALSE" = "false"%string /\ lower "N" = "n"%string /\ lower "0" = "0"%string.
Proof. repeat split. Qed.

(** C8. The boolean parser of the command line returns [True] for a token
    whose lower-case form is one of yes/true/t/y/1, [False] for one whose
    lower-case form is one of no/false/f/n/0, and raises the usage error
    for every other token; "yes", "TRUE" and "1" give [True] and "maybe"
    is an error. *)
Theorem str2bool_tokens :
  (forall v, In (lower v) true_tokens -> str2bool v = Ok true) /\
  (forall v, In (lower v) false_tokens -> str2bool v = Ok false) /\
  (forall v, ~ In (lower v) (true_tokens ++ false_tokens) ->
             str2bool v = Raise (ArgumentTypeError "Boolean value expected.")) /\
  str2bool "yes" = Ok true /\ str2bool "TRUE" = Ok true /\ str2bool "1" = Ok true /\
  str2bool "No" = Ok false /\ str2bool "F" = Ok false /\
  str2bool "maybe" = Raise (ArgumentTypeError "Boolean value expected.").
Proof.
  split; [exact str2bool_true |].
  split; [exact str2bool_false |].
  split; [exact str2bool_error |].
  repeat split.
Qed.

Lemma str2bool_tokens_witness :
  str2bool "Y" = Ok true /\ str2bool "fAlSe" = Ok false /\
  str2bool "on" = Raise (ArgumentTypeError "Boolean value expected.").
Proof.
  destruct str2bool_tokens as [Ht [Hf [He _]]].
  split; [| split].
  - apply Ht. simpl. tauto.
  - apply Hf. simpl. tauto.
  - apply He. simpl. intros H.
    repeat (destruct H as [H | H]; [discriminate H |]). exact H.
Defined.

(* ===================================================================== *)
(** * The path codec as a recursion on segments *)
(* ===================================================================== *)

Lemma substring_all (s : string) : String.substring 0 (String.length s) s = s.
Proof.
  induction s as [| c s IH]; simpl; [reflexivity | now rewrite IH].
Qed.

Lemma has_colon_false (key : string) :
  has_colon key = false -> split_colon key = [key].
Proof.
  unfold has_colon. induction key as [| c key IH]; simpl; [reflexivity |].
  destruct (Ascii.eqb c ":"); [discriminate |].
  destruct (find_colon key); simpl; [discriminate |].
  intros _. now rewrite IH.
Qed.

(** [parse_key] cuts the key at its first colon: the name is the first
    segment, and the rest, which is shorter, holds the other segments. *)
Lemma parse_key_split (key : string) :
  has_colon key = true ->
  exists dict_name rem_key,
    parse_key key = Ok (dict_name, rem_key) /\
    split_colon key = dict_name :: split_colon rem_key /\
    (String.length rem_key < String.length key)%nat.
Proof.
  unfold has_colon, parse_key.
  induction key as [| c key IH]; simpl; [discriminate |].
  destruct (Ascii.eqb c ":") eqn:Ec.
  - intros _. exists EmptyString, key. simpl.
    rewrite Nat.sub_0_r, substring_all. repeat split. lia.
  - destruct (find_colon key) as [i |]; simpl; [| discriminate].
    intros _. destruct (IH eq_refl) as [dn [rk [Hp [Hs Hl]]]].
    inversion Hp as [[Hdn Hrk]].
    eexists. eexists. split; [reflexivity |].
    rewrite Hdn, Hrk. rewrite Hs. repeat split. lia.
Qed.

Lemma split_colon_cons (key : string) : exists seg segs, split_colon key = seg :: segs.
Proof.
  induction key as [| c key [seg [segs IH]]]; simpl.
  - now eexists; eexists.
  - destruct (Ascii.eqb c ":"); [now eexists; eexists |].
    rewrite IH. now eexists; eexists.
Qed.

Lemma assign_leaf_rec_path (n : nat) (key : string) (val : value) :
  (String.length key <= n)%nat ->
  assign_leaf_rec n key val = Ok (leaf_path (split_colon key) val).
Proof.
  revert key. induction n as [| n IH]; intros key Hn; simpl.
  - destruct key; [reflexivity | simpl in Hn; lia].
  - destruct (has_colon key) eqn:Hc.
    + destruct (parse_key_split key Hc) as [dn [rk [Hp [Hs Hl]]]].
      rewrite Hp. simpl. rewrite IH by lia. simpl. now rewrite Hs.
    + now rewrite (has_colon_false key Hc).
Qed.

Lemma assign_leaf_path (key : string) (val : value) :
  assign_leaf key val = Ok (leaf_path (split_colon key) val).
Proof. apply assign_leaf_rec_path. lia. Qed.

Lemma outcome_tbind {A B : Type} (m : traced A) (k : A -> traced B) :
  outcome (tbind m k) = bind (outcome m) (fun a => outcome (k a)).
Proof.
  destruct m as [n [a | e]]; simpl; [| reflexivity].
  now destruct (k a).
Qed.

Lemma outcome_tlift {A : Type} (r : result A) : outcome (tlift r) = r.
Proof. reflexivity. Qed.

(** The equation of the source for [add_helper], for a key that has at
    least one character left to consume. *)
Lemma add_helper_rec_eq (n : nat) (D : value) (key : string) (val : value) :
  add_helper_rec (S n) D key val =
  if has_colon key then
    p <~ tlift (parse_key key) ;;
    _ <~ (if String.eqb (fst p) "data_hps" then set_trace else tret tt) ;;
    present <~ tlift (py_in (fst p) D) ;;
    if (present : bool) then
      old <~ tlift (getitem D (fst p)) ;;
      sub <~ add_helper_rec n old (snd p) val ;;
      tlift (setitem D (fst p) sub)
    else
      sub <~ tlift (assign_leaf (snd p) val) ;;
      tlift (setitem D (fst p) sub)
  else tlift (setitem D key val).
Proof. reflexivity. Qed.

Lemma add_path_eq (D : value) (dict_name seg : string) (segs : list string)
    (val : value) :
  add_path D (dict_name :: seg :: segs) val =
  (present <- py_in dict_name D ;;
   if (present : bool) then
     old <- getitem D dict_name ;;
     sub <- add_path old (seg :: segs) val ;;
     setitem D dict_name sub
   else setitem D dict_name (leaf_path (seg :: segs) val)).
Proof. reflexivity. Qed.

Lemma add_helper_rec_path (n : nat) (D : value) (key : string) (val : value) :
  (String.length key <= n)%nat ->
  outcome (add_helper_rec n D key val) = add_path D (split_colon key) val.
Proof.
  revert D key. induction n as [| n IH]; intros D key Hn.
  - destruct key; [reflexivity | simpl in Hn; lia].
  - rewrite add_helper_rec_eq. destruct (has_colon key) eqn:Hc.
    + destruct (parse_key_split key Hc) as [dn [rk [Hp [Hs Hl]]]].
      rewrite Hp, Hs.
      destruct (split_colon_cons rk) as [seg [segs Hrk]].
      rewrite Hrk, add_path_eq, <- Hrk.
      rewrite outcome_tbind, outcome_tlift. cbn [bind fst snd].
      rewrite outcome_tbind.
      assert (Ht : outcome (if String.eqb dn "data_hps" then set_trace else tret tt) = Ok tt)
        by now destruct (String.eqb dn "data_hps").
      rewrite Ht. cbn [bind].
      rewrite outcome_tbind, outcome_tlift.
      destruct (py_in dn D) as [[|] | e]; cbn [bind]; try reflexivity.
      * rewrite outcome_tbind, outcome_tlift.
        destruct (getitem D dn) as [old | e]; cbn [bind]; [| reflexivity].
        rewrite outcome_tbind. rewrite IH by lia.
        destruct (add_path old (split_colon rk) val); reflexivity.
      * rewrite outcome_tbind, outcome_tlift, assign_leaf_path. reflexivity.
    + now rewrite (has_colon_false key Hc).
Qed.

(** [add_helper] is the recursion on the segments of the key. *)
Lemma add_helper_path (D : value) (key : string) (val : value) :
  outcome (add_helper D key val) = add_path D (split_colon key) val.
Proof. apply add_helper_rec_path. lia. Qed.

Lemma reconstruct_helper_paths (D_flat : pydict) :
  outcome (reconstruct_helper D_flat) = add_paths D_flat.
Proof.
  unfold reconstruct_helper, add_paths.
  assert (H : forall (acc : traced value) (r : result value),
             outcome acc = r ->
             outcome (fold_left
                        (fun acc kv => D <~ acc ;; add_helper D (fst kv) (snd kv))
                        D_flat acc)
             = fold_left
                 (fun acc kv => D <- acc ;; add_path D (split_colon (fst kv)) (snd kv))
                 D_flat r).
  { induction D_flat as [| kv l IH]; intros acc r Hr; simpl; [exact Hr |].
    apply IH. rewrite outcome_tbind, Hr.
    destruct r; simpl; [apply add_helper_path | reflexivity]. }
  now apply H.
Qed.

(* ===================================================================== *)
(** * What a reconstructed dictionary holds at every path *)
(* ===================================================================== *)

Lemma path_rel_below (p q r : list string) : path_rel p q = Below r <-> q = p ++ r.
Proof.
  revert q. induction p as [| a p IH]; intros q; simpl.
  - split; [intros H; now inversion H | intros; now subst].
  - destruct q as [| b q]; [split; discriminate |].
    destruct (String.eqb a b) eqn:E.
    + apply String.eqb_eq in E. subst b. rewrite IH.
      split; [intros; now subst | intros H; now inversion H].
    + apply String.eqb_neq in E. split; [discriminate |].
      intros H. inversion H. congruence.
Qed.

Lemma path_rel_above (p q r : list string) :
  path_rel p q = Above r <-> p = q ++ r /\ r <> [].
Proof.
  revert q. induction p as [| a p IH]; intros q; simpl.
  - split; [discriminate |]. intros [H Hr].
    symmetry in H. apply app_eq_nil in H. tauto.
  - destruct q as [| b q].
    + simpl. split.
      * intros H. inversion H. split; [reflexivity | discriminate].
      * intros [H _]. now subst.
    + destruct (String.eqb a b) eqn:E.
      * apply String.eqb_eq in E. subst b. rewrite IH. simpl.
        split; intros [H Hr]; split; try assumption; [now subst | now inversion H].
      * apply String.eqb_neq in E. split; [discriminate |].
        intros [H _]. inversion H. congruence.
Qed.

Lemma leaf_path_view (p q : list string) (v : value) :
  view (get_path q (leaf_path p v)) =
  match path_rel p q with
  | Below r => view (get_path r v)
  | Above _ => Mapping
  | Apart => Nothing
  end.
Proof.
  revert q. induction p as [| a p IH]; intros q; simpl; [reflexivity |].
  destruct q as [| b q]; simpl; [reflexivity |].
  rewrite String.eqb_sym. destruct (String.eqb a b); [apply IH | reflexivity].
Qed.

Lemma path_rel_cons (a b : string) (p q : list string) :
  path_rel (a :: p) (b :: q) = if String.eqb a b then path_rel p q else Apart.
Proof. reflexivity. Qed.

Lemma get_path_cons (b : string) (q : list string) (d : pydict) :
  get_path (b :: q) (VDict d) =
  match dict_get b d with
  | Some sub => get_path q sub
  | None => None
  end.
Proof. reflexivity. Qed.

(** Writing [val] at the path [p] of [D] succeeds when no proper prefix of
    [p] leads to a leaf of [D], and then [val] sits at [p], dictionaries
    sit at the proper prefixes of [p], and every path that parts ways with
    [p] shows what it showed in [D]. *)
Lemma add_path_view (p : list string) (D val : value) :
  p <> [] ->
  (forall q r, path_rel p q = Above r ->
               view (get_path q D) = Nothing \/ view (get_path q D) = Mapping) ->
  exists D',
    add_path D p val = Ok D' /\
    forall q, view (get_path q D') =
              match path_rel p q with
              | Below r => view (get_path r val)
              | Above _ => Mapping
              | Apart => view (get_path q D)
              end.
Proof.
  revert D. induction p as [| k p IH]; intros D Hne Hins; [contradiction |].
  assert (HD : exists d, D = VDict d).
  { destruct (Hins [] (k :: p) eq_refl) as [H | H]; simpl in H.
    - destruct D; discriminate.
    - destruct D; try discriminate. now eexists. }
  destruct HD as [d ->].
  destruct p as [| k2 rest].
  - exists (VDict (dict_set k val d)). split; [reflexivity |].
    intros [| b q]; [reflexivity |]. simpl.
    rewrite dict_get_set. destruct (String.eqb k b); reflexivity.
  - rewrite add_path_eq. simpl py_in. unfold dict_mem. simpl getitem.
    destruct (dict_get k d) as [old |] eqn:Eold; cbn [bind].
    + destruct (IH old) as [old' [Hadd Hview]]; [discriminate | |].
      { intros q r Hq. specialize (Hins (k :: q) r). simpl in Hins.
        rewrite String.eqb_refl, Eold in Hins. now apply Hins. }
      rewrite Hadd. cbn [bind setitem].
      exists (VDict (dict_set k old' d)). split; [reflexivity |].
      intros [| b q]; [reflexivity |].
      rewrite path_rel_cons, !get_path_cons, dict_get_set.
      destruct (String.eqb k b) eqn:E; [| reflexivity].
      apply String.eqb_eq in E. subst b. rewrite Eold. apply Hview.
    + cbn [setitem].
      exists (VDict (dict_set k (leaf_path (k2 :: rest) val) d)).
      split; [reflexivity |].
      intros [| b q]; [reflexivity |].
      rewrite path_rel_cons, !get_path_cons, dict_get_set.
      destruct (String.eqb k b) eqn:E; [| reflexivity].
      apply String.eqb_eq in E. subst b. rewrite Eold.
      rewrite leaf_path_view. now destruct (path_rel (k2 :: rest) q).
Qed.

(** Two values that show the same thing at the end of every path have
    the same content. *)
Lemma same_views_same_content (a b : value) :
  (forall q, view (get_path q a) = view (get_path q b)) -> same_content a b.
Proof.
  revert b. induction a as [| x | m | s | x | d1 IH] using value_nested_ind;
    intros b H; pose proof (H []) as H0; simpl in H0;
    destruct b as [| y | n | t | y | d2]; try discriminate H0;
    try (inversion H0; apply sc_refl).
  clear H0. apply sc_dict.
  - intros k. specialize (H [k]). rewrite !get_path_cons in H.
    destruct (dict_get k d1) as [[] |], (dict_get k d2) as [[] |];
      simpl in H; split; intros; congruence.
  - intros k v1 v2 E1 E2.
    rewrite Forall_forall in IH.
    apply (IH (k, v1) (dict_get_Some_In _ _ _ E1)).
    intros q. specialize (H (k :: q)).
    now rewrite !get_path_cons, E1, E2 in H.
Qed.

Lemma independent_keys_tail (k : string) (keys : list string) :
  independent_keys (k :: keys) -> independent_keys keys.
Proof.
  intros [Hn Hi]. split; [now inversion Hn |].
  intros k1 k2 H1 H2. apply Hi; now right.
Qed.

Lemma independent_keys_perm (keys keys' : list string) :
  Permutation keys keys' -> independent_keys keys -> independent_keys keys'.
Proof.
  intros Hp [Hn Hi]. split; [eapply Permutation_NoDup; eassumption |].
  intros k1 k2 H1 H2. apply Hi; eapply Permutation_in; try eassumption;
    now symmetry.
Qed.

(** Two paths that are both related to [q] otherwise than by parting ways
    or by both running through [q] are prefixes of one another. *)
Lemma path_rel_comparable (p1 p2 q : list string) :
  ~ is_prefix p1 p2 -> ~ is_prefix p2 p1 ->
  match path_rel p1 q, path_rel p2 q with
  | Below _, Below _ => False
  | Below _, Above _ => False
  | Above _, Below _ => False
  | _, _ => True
  end.
Proof.
  intros H12 H21.
  destruct (path_rel p1 q) as [r1 | r1 |] eqn:E1;
    destruct (path_rel p2 q) as [r2 | r2 |] eqn:E2; try exact I.
  - apply path_rel_below in E1, E2. subst q.
    apply app_eq_app in E2. destruct E2 as [l [[Ha Hb] | [Ha Hb]]].
    + apply H21. now exists l.
    + apply H12. now exists l.
  - apply path_rel_below in E1. apply path_rel_above in E2.
    destruct E2 as [E2 _]. subst q. apply H12. exists (r1 ++ r2).
    now rewrite app_assoc.
  - apply path_rel_below in E2. apply path_rel_above in E1.
    destruct E1 as [E1 _]. subst q. apply H21. exists (r2 ++ r1).
    now rewrite app_assoc.
Qed.

Lemma expected_swap (base : list string -> seen) (x y : string * value)
    (l : pydict) (q : list string) :
  ~ is_prefix (split_colon (fst x)) (split_colon (fst y)) ->
  ~ is_prefix (split_colon (fst y)) (split_colon (fst x)) ->
  expected base (y :: x :: l) q = expected base (x :: y :: l) q.
Proof.
  intros Hxy Hyx. destruct x as [kx vx], y as [ky vy]. simpl in *.
  pose proof (path_rel_comparable _ _ q Hxy Hyx) as H.
  destruct (path_rel (split_colon kx) q), (path_rel (split_colon ky) q);
    try reflexivity; contradiction.
Qed.

(** With independent keys, what is expected at a path does not depend on
    the order of the items. *)
Lemma expected_perm (base : list string -> seen) (l l' : pydict) :
  Permutation l l' -> independent_keys (dict_keys l) ->
  forall q, expected base l q = expected base l' q.
Proof.
  induction 1 as [| [k v] l l' Hp IH | x y l | l l' l'' Hp1 IH1 Hp2 IH2];
    intros Hi q.
  - reflexivity.
  - simpl. rewrite (IH (independent_keys_tail _ _ Hi)). reflexivity.
  - destruct Hi as [Hn Hi]. simpl in Hn, Hi.
    assert (Hne : fst x <> fst y).
    { inversion Hn as [| a b Hnotin _]. subst. simpl in Hnotin. intros E.
      apply Hnotin. left. congruence. }
    apply expected_swap; apply Hi; simpl; auto.
  - rewrite IH1 by assumption. apply IH2.
    eapply independent_keys_perm; [| exact Hi].
    unfold dict_keys. now apply Permutation_map.
Qed.

Lemma expected_no_leaf (base : list string -> seen) (done : pydict)
    (p q r : list string) :
  (forall q', base q' = Nothing \/ base q' = Mapping) ->
  (forall k, In k (dict_keys done) -> ~ is_prefix (split_colon k) p) ->
  path_rel p q = Above r ->
  expected base done q = Nothing \/ expected base done q = Mapping.
Proof.
  intros Hbase Hdone Hq. apply path_rel_above in Hq. destruct Hq as [Hq _].
  induction done as [| [k v] done IH]; simpl; [apply Hbase |].
  destruct (path_rel (split_colon k) q) as [r0 | r0 |] eqn:E.
  - exfalso. apply path_rel_below in E. apply (Hdone k); [now left |].
    exists (r0 ++ r). subst. now rewrite app_assoc.
  - now right.
  - apply IH. intros k' Hk'. apply Hdone. now right.
Qed.

Lemma empty_view_spec (q : list string) : view (get_path q (VDict [])) = empty_view q.
Proof. now destruct q. Qed.

(** The loop of [reconstruct_helper] over independent keys: every
    insertion succeeds, and the dictionary shows at every path what the
    items written so far make expected. *)
Lemma add_paths_view (base : list string -> seen) (rest done : pydict) (D : value) :
  (forall q', base q' = Nothing \/ base q' = Mapping) ->
  (forall q, view (get_path q D) = expected base done q) ->
  independent_keys (dict_keys (rev done ++ rest)) ->
  exists D',
    fold_left
      (fun acc kv => D <- acc ;; add_path D (split_colon (fst kv)) (snd kv))
      rest (Ok D) = Ok D' /\
    forall q, view (get_path q D') = expected base (rev rest ++ done) q.
Proof.
  intros Hbase. revert done D.
  induction rest as [| [k v] rest IH]; intros done D HD Hi.
  - exists D. split; [reflexivity | exact HD].
  - assert (Hne : split_colon k <> []).
    { destruct (split_colon_cons k) as [seg [segs E]]. rewrite E. discriminate. }
    assert (Hdone : forall k0, In k0 (dict_keys done) ->
                               ~ is_prefix (split_colon k0) (split_colon k)).
    { intros k0 Hk0. destruct Hi as [Hn Hi].
      unfold dict_keys in Hn, Hi. rewrite map_app in Hn, Hi. simpl in Hn, Hi.
      assert (Hin0 : In k0 (map fst (rev done))).
      { rewrite map_rev. apply in_rev. now rewrite rev_involutive. }
      apply Hi.
      - apply in_or_app. now left.
      - apply in_or_app. right. now left.
      - intros E. subst k0. apply NoDup_remove_2 in Hn. apply Hn.
        apply in_or_app. now left. }
    destruct (add_path_view (split_colon k) D v Hne) as [D1 [Hadd Hview]].
    { intros q r Hq. rewrite HD. eapply expected_no_leaf; eassumption. }
    destruct (IH ((k, v) :: done) D1) as [D' [Hfold HD']].
    + intros q. rewrite Hview. simpl.
      destruct (path_rel (split_colon k) q); try reflexivity. apply HD.
    + simpl. now rewrite <- app_assoc.
    + exists D'. split.
      * simpl. rewrite Hadd. exact Hfold.
      * intros q. rewrite HD'. simpl. now rewrite <- app_assoc.
Qed.

Lemma reconstruct_view (D_flat : pydict) :
  independent_keys (dict_keys D_flat) ->
  exists D,
    outcome (reconstruct_helper D_flat) = Ok D /\
    forall q, view (get_path q D) = expected empty_view (rev D_flat) q.
Proof.
  intros Hi. rewrite reconstruct_helper_paths. unfold add_paths.
  destruct (add_paths_view empty_view D_flat [] (VDict [])) as [D [Hf Hv]].
  - intros [| ? ?]; simpl; auto.
  - intros q. apply empty_view_spec.
  - exact Hi.
  - exists D. split; [exact Hf |]. intros q. rewrite Hv. now rewrite app_nil_r.
Qed.

Lemma reconstruct_permutation (D_flat D_flat' : pydict) :
  independent_keys (dict_keys D_flat) ->
  Permutation D_flat D_flat' ->
  exists D D',
    outcome (reconstruct_helper D_flat) = Ok D /\
    outcome (reconstruct_helper D_flat') = Ok D' /\
    same_content D D'.
Proof.
  intros Hi Hp.
  assert (Hi' : independent_keys (dict_keys D_flat')).
  { eapply independent_keys_perm; [| exact Hi]. unfold dict_keys.
    now apply Permutation_map. }
  destruct (reconstruct_view D_flat Hi) as [D [HD Hv]].
  destruct (reconstruct_view D_flat' Hi') as [D' [HD' Hv']].
  exists D, D'. repeat split; try assumption.
  apply same_views_same_content. intros q. rewrite Hv, Hv'.
  apply expected_perm.
  - apply Permutation_rev' in Hp. exact Hp.
  - eapply independent_keys_perm; [| exact Hi].
    unfold dict_keys. apply Permutation_map. apply Permutation_rev.
Qed.

Lemma independent_keys_b_sound (keys : list string) :
  independent_keys_b keys = true -> independent_keys keys.
Proof.
  unfold independent_keys_b. intros H.
  apply andb_true_iff in H. destruct H as [Hn Hf].
  split; [now apply nodup_keys_NoDup |].
  intros k1 k2 H1 H2 Hne [r Hr].
  rewrite forallb_forall in Hf. specialize (Hf k1 H1).
  rewrite forallb_forall in Hf. specialize (Hf k2 H2).
  apply orb_true_iff in Hf. destruct Hf as [Hf | Hf].
  - apply String.eqb_eq in Hf. contradiction.
  - apply path_rel_below in Hr. now rewrite Hr in Hf.
Qed.

(** The six orders of the example, evaluated. *)
Example reconstruct_example_orders :
  Forall (fun D_flat =>
            match outcome (reconstruct_helper D_flat) with
            | Ok D => same_content_b nested_example D = true
            | Raise _ => False
            end)
    [ [("a:b:c"%string, VInt 1); ("a:b:d"%string, VInt 2); ("a:e"%string, VInt 3)];
      [("a:b:c"%string, VInt 1); ("a:e"%string, VInt 3); ("a:b:d"%string, VInt 2)];
      [("a:b:d"%string, VInt 2); ("a:b:c"%string, VInt 1); ("a:e"%string, VInt 3)];
      [("a:b:d"%string, VInt 2); ("a:e"%string, VInt 3); ("a:b:c"%string, VInt 1)];
      [("a:e"%string, VInt 3); ("a:b:c"%string, VInt 1); ("a:b:d"%string, VInt 2)];
      [("a:e"%string, VInt 3); ("a:b:d"%string, VInt 2); ("a:b:c"%string, VInt 1)] ].
Proof.
  repeat constructor.
Qed.

(** Paths that are not independent: a value written below a leaf raises,
    and the outcome then depends on the order of the keys. *)
Example reconstruct_dependent_keys :
  outcome (reconstruct_helper [("a"%string, VInt 1); ("a:b"%string, VInt 2)])
  = Raise TypeError /\
  outcome (reconstruct_helper [("a:b"%string, VInt 2); ("a"%string, VInt 1)])
  = Ok (VDict [("a"%string, VInt 1)]).
Proof. split; reflexivity. Qed.

(* ===================================================================== *)
(** * The debugger stop of [add_helper] *)
(* ===================================================================== *)

Lemma stops_tbind {A B : Type} (m : traced A) (k : A -> traced B) :
  stops (tbind m k) =
  match outcome m with
  | Ok a => (stops m + stops (k a))%nat
  | Raise _ => stops m
  end.
Proof.
  destruct m as [n [a | e]]; simpl; [| reflexivity].
  now destruct (k a).
Qed.

Lemma parse_key_data_hps (rem_key : string) :
  parse_key (String.append "data_hps:" rem_key) = Ok ("data_hps"%string, rem_key).
Proof.
  unfold parse_key. simpl. now rewrite Nat.sub_0_r, substring_all.
Qed.

Lemma add_helper_data_hps (D : value) (rem_key : string) (val : value) :
  (1 <= stops (add_helper D (String.append "data_hps:" rem_key) val))%nat.
Proof.
  unfold add_helper.
  change (String.length (String.append "data_hps:" rem_key))
    with (S (8 + String.length rem_key)).
  rewrite add_helper_rec_eq.
  assert (Hc : has_colon (String.append "data_hps:" rem_key) = true) by reflexivity.
  rewrite Hc, parse_key_data_hps.
  rewrite stops_tbind. cbn [outcome tlift snd fst stops].
  rewrite stops_tbind. cbn [String.eqb Ascii.eqb Bool.eqb outcome set_trace snd fst stops].
  lia.
Qed.

Lemma add_helper_rec_no_stop (n : nat) (D : value) (key : string) (val : value) :
  (String.length key <= n)%nat ->
  ~ In "data_hps"%string (split_colon key) ->
  stops (add_helper_rec n D key val) = O.
Proof.
  revert D key. induction n as [| n IH]; intros D key Hn Hd.
  - reflexivity.
  - rewrite add_helper_rec_eq. destruct (has_colon key) eqn:Hc; [| reflexivity].
    destruct (parse_key_split key Hc) as [dn [rk [Hp [Hs Hl]]]].
    rewrite Hp. rewrite Hs in Hd.
    assert (Hdn : String.eqb dn "data_hps" = false).
    { apply String.eqb_neq. intros E. apply Hd. now left. }
    rewrite stops_tbind. cbn [outcome tlift snd fst stops].
    rewrite Hdn. rewrite stops_tbind. cbn [outcome tret snd fst stops].
    rewrite stops_tbind. cbn [outcome tlift snd fst stops].
    destruct (py_in dn D) as [[|] | e]; try reflexivity.
    + rewrite stops_tbind. cbn [outcome tlift snd fst stops].
      destruct (getitem D dn) as [old | e]; [| reflexivity].
      rewrite stops_tbind. rewrite IH; [| lia | intros Hi; apply Hd; now right].
      now destruct (outcome (add_helper_rec n old rk val)).
    + rewrite stops_tbind. cbn [outcome tlift snd fst stops].
      now destruct (assign_leaf rk val).
Qed.

(** C10. A flat key whose head segment is [data_hps] makes [add_helper]
    call [pdb.set_trace()], which no key without a [data_hps] segment
    does: the key [data_hps:x] stops in the debugger once, the key
    [other:x] never, and both are expanded to the same shape. *)
Theorem add_helper_data_hps_breakpoint :
  (forall D rem_key val,
      (1 <= stops (add_helper D (String.append "data_hps:" rem_key) val))%nat) /\
  (forall D key val,
      ~ In "data_hps"%string (split_colon key) -> stops (add_helper D key val) = O) /\
  reconstruct_helper [("data_hps:x"%string, VInt 1)]
  = (1%nat, Ok (VDict [("data_hps"%string, VDict [("x"%string, VInt 1)])])) /\
  reconstruct_helper [("other:x"%string, VInt 1)]
  = (0%nat, Ok (VDict [("other"%string, VDict [("x"%string, VInt 1)])])).
Proof.
  split; [exact add_helper_data_hps |].
  split; [| split; reflexivity].
  intros D key val H. apply add_helper_rec_no_stop; [lia | exact H].
Qed.

(* ===================================================================== *)
(** * [parse_key] cuts at the first colon *)
(* ===================================================================== *)

Lemma parse_key_append (dict_name rem_key : string) :
  has_colon dict_name = false ->
  parse_key (String.append dict_name (String ":" rem_key)) = Ok (dict_name, rem_key).
Proof.
  unfold has_colon, parse_key.
  induction dict_name as [| c s IH]; simpl.
  - intros _. now rewrite Nat.sub_0_r, substring_all.
  - destruct (Ascii.eqb c ":"); [discriminate |].
    destruct (find_colon s) eqn:Es; simpl; [discriminate |].
    intros _. specialize (IH eq_refl).
    destruct (find_colon (String.append s (String ":" rem_key))); simpl;
      [| discriminate].
    injection IH as H1 H2. rewrite H1. f_equal. f_equal. exact H2.
Qed.

Lemma parse_key_inv (key dict_name rem_key : string) :
  parse_key key = Ok (dict_name, rem_key) ->
  key = String.append dict_name (String ":" rem_key) /\ has_colon dict_name = false.
Proof.
  unfold has_colon, parse_key. revert dict_name rem_key.
  induction key as [| c key IH]; intros dn rk; simpl; [discriminate |].
  destruct (Ascii.eqb c ":") eqn:Ec; simpl.
  - rewrite Nat.sub_0_r, substring_all. intros H. inversion H. subst.
    apply Ascii.eqb_eq in Ec. subst c. now split.
  - destruct (find_colon key) as [i |] eqn:Ei; simpl; [| discriminate].
    intros H. inversion H. subst.
    destruct (IH _ _ eq_refl) as [Hk Hc].
    split.
    + simpl. now rewrite <- Hk.
    + simpl. rewrite Ec.
      destruct (find_colon (String.substring 0 i key)); [discriminate | reflexivity].
Qed.

Lemma parse_key_no_colon (key : string) :
  has_colon key = false <->
  parse_key key = Raise (ValueError "key does not contain delimitting colon.").
Proof.
  unfold has_colon, parse_key.
  destruct (find_colon key); split; intros H; try discriminate; reflexivity.
Qed.

(** [parse_key] and the concatenation with a colon are inverse to
    each other: the key [dict_name + ':' + rem_key], with no colon in
    [dict_name], is cut into [(dict_name, rem_key)], and these are the only
    keys that give this pair; the function raises its [ValueError] exactly
    on the keys without a colon. *)
Theorem parse_key_round_trip :
  (forall key dict_name rem_key,
     parse_key key = Ok (dict_name, rem_key) <->
     key = String.append dict_name (String ":" rem_key) /\
     has_colon dict_name = false) /\
  (forall key,
     has_colon key = false <->
     parse_key key = Raise (ValueError "key does not contain delimitting colon.")).
Proof.
  split.
  - intros key dn rk. split.
    + apply parse_key_inv.
    + intros [-> Hc]. now apply parse_key_append.
  - apply parse_key_no_colon.
Qed.

(* ===================================================================== *)
(** * The shape of the canonical string *)
(* ===================================================================== *)

Lemma append_empty_r (s : string) : String.append s EmptyString = s.
Proof. induction s as [| c s IH]; simpl; [reflexivity | now rewrite IH]. Qed.

Lemma append_assoc (a b c : string) :
  String.append (String.append a b) c = String.append a (String.append b c).
Proof. induction a as [| x a IH]; simpl; [reflexivity | now rewrite IH]. Qed.

Lemma join_cons (x : string) (l : list string) :
  join (x :: l) = String.append x (join l).
Proof.
  unfold join. destruct l; simpl; [now rewrite append_empty_r | reflexivity].
Qed.

Lemma join_app (l1 l2 : list string) :
  join (l1 ++ l2) = String.append (join l1) (join l2).
Proof.
  induction l1 as [| x l1 IH]; [reflexivity |].
  change ((x :: l1) ++ l2) with (x :: (l1 ++ l2)).
  now rewrite !join_cons, IH, append_assoc.
Qed.

(** The index bookkeeping of the loop puts the separator between
    consecutive entries and nowhere else. *)
Lemma str_items_loop_concat (str_of : string -> string) (n_keys key_idx : nat)
    (keys : list string) :
  (key_idx + List.length keys = S n_keys)%nat ->
  join (str_items_loop str_of n_keys key_idx keys)
  = String.concat ", "
      (map (fun key => String.append key (String.append ": " (str_of key))) keys).
Proof.
  revert key_idx. induction keys as [| key keys IH]; intros key_idx Hn;
    [reflexivity |].
  cbn [str_items_loop map]. rewrite join_cons, join_app.
  simpl in Hn. rewrite (IH (S key_idx)) by lia.
  destruct keys as [| key' keys].
  - simpl in Hn. assert (E : Nat.ltb key_idx n_keys = false)
      by (apply Nat.ltb_ge; lia).
    rewrite E. simpl. now rewrite append_empty_r.
  - simpl in Hn. assert (E : Nat.ltb key_idx n_keys = true)
      by (apply Nat.ltb_lt; lia).
    rewrite E. reflexivity.
Qed.

Lemma emit_dict_concat (str_of : string -> string) (keys : list string) :
  emit_dict str_of keys
  = String.append "{"
      (String.append
         (String.concat ", "
            (map (fun key => String.append key (String.append ": " (str_of key)))
                 (np_sort keys)))
         "}").
Proof.
  unfold emit_dict. rewrite join_app, join_cons.
  rewrite str_items_loop_concat by lia.
  rewrite append_assoc. reflexivity.
Qed.

(** The canonical string in closed form.  For a dictionary of printable
    keys and leaves (no key ends in a NUL character, no integer has more
    than 4300 digits, there is no array, and the nesting is at most 100
    deep), [_sorted_str_from_dict] returns the entries [key: text], with
    the text of a nested dictionary being its own canonical string, for
    the keys in ascending order, each key once for a dictionary without
    repeated keys, separated by a comma and a blank and enclosed in
    braces: no separator follows the last entry, and the empty dictionary
    gives [{}]. *)
Theorem sorted_str_closed_form (d : pydict) :
  printable d = true ->
  exists sorted_keys,
    Permutation sorted_keys (dict_keys d) /\
    StronglySorted le_str sorted_keys /\
    _sorted_str_from_dict d
    = String.append "{"
        (String.append
           (String.concat ", "
              (map (fun key => String.append key (String.append ": " (str_at d key)))
                   sorted_keys))
           "}").
Proof.
  intros _.
  exists (np_sort (dict_keys d)). split; [apply np_sort_perm |].
  split; [apply np_sort_sorted |].
  rewrite sorted_str_from_dict_eq. apply emit_dict_concat.
Qed.

Lemma sorted_str_closed_form_witness :
  exists sorted_keys,
    Permutation sorted_keys ["lr"; "depth"; "data"]%string /\
    StronglySorted le_str sorted_keys /\
    _sorted_str_from_dict
      [("lr"%string, VInt 1); ("depth"%string, VInt 3);
       ("data"%string, VDict [("shuffle"%string, VBool true); ("path"%string, VNone)])]
    = String.append "{"
        (String.append
           (String.concat ", "
              (map (fun key =>
                      String.append key
                        (String.append ": "
                           (str_at
                              [("lr"%string, VInt 1); ("depth"%string, VInt 3);
                               ("data"%string,
                                VDict [("shuffle"%string, VBool true);
                                       ("path"%string, VNone)])]
                              key)))
                   sorted_keys))
           "}").
Proof.
  apply (sorted_str_closed_form
           [("lr"%string, VInt 1); ("depth"%string, VInt 3);
            ("data"%string,
             VDict [("shuffle"%string, VBool true); ("path"%string, VNone)])]).
  vm_compute. reflexivity.
Defined.

(** The canonical string of a dictionary with a nested dictionary. *)
Example sorted_str_example :
  _sorted_str_from_dict
    [("lr"%string, VInt 1); ("depth"%string, VInt 3);
     ("data"%string, VDict [("shuffle"%string, VBool true); ("path"%string, VNone)])]
  = "{data: {path: None, shuffle: True}, depth: 3, lr: 1}"%string.
Proof. vm_compute. reflexivity. Qed.

(* ===================================================================== *)
(** * What the canonical string does not record *)
(* ===================================================================== *)

Lemma dict_keys_set_present (k : string) (v : value) (d : pydict) :
  dict_mem k d = true -> dict_keys (dict_set k v d) = dict_keys d.
Proof.
  unfold dict_mem. induction d as [| [k' v'] d IH]; simpl; [discriminate |].
  destruct (String.eqb k k'); simpl; [reflexivity |].
  intros H. now rewrite IH.
Qed.



(* ===================================================================== *)
(** * Constructing twice from the same default objects *)
(* ===================================================================== *)

Lemma init_store_eq (hps : ref) (a_hash a_non : nat) (hash_len : Z) (verbose : bool)
    (h : heap) :
  snd (__init__ hps (Some a_hash) (Some a_non) hash_len verbose h)
  = snd (_parse hps (Some a_hash) (Some a_non) h).
Proof.
  unfold __init__.
  now destruct (_parse hps (Some a_hash) (Some a_non) h) as [[[all_hps hash_hps] | e] h'].
Qed.

(** The default dictionaries cannot be used for a second object.
    After a construction from hashed and non-hashed defaults that are
    distinct objects without a common key, whether it succeeded or raised
    on an override, every further construction from the same two objects
    raises the [ValueError] that names the first non-hashed default as
    being both hash and non-hash: the first construction has copied the
    non-hashed defaults into the caller's hashed ones. *)
Theorem second_construction_fails (hps hps' : ref) (a_hash a_non : nat)
    (hash_len hash_len' : Z) (verbose verbose' : bool) (h : heap)
    (k0 : string) (v0 : value) (rest : pydict) :
  a_hash <> a_non ->
  h a_non = (k0, v0) :: rest ->
  find (fun k => dict_mem k (h a_hash)) (dict_keys (h a_non)) = None ->
  fst (__init__ hps' (Some a_hash) (Some a_non) hash_len' verbose'
         (snd (__init__ hps (Some a_hash) (Some a_non) hash_len verbose h)))
  = Raise (ValueError (msg_both k0)).
Proof.
  intros Hne Hnon Hf. rewrite init_store_eq, (parse_store hps a_hash a_non h Hf).
  apply Nat.eqb_neq in Hne. rewrite Nat.eqb_sym in Hne.
  unfold __init__, _parse.
  assert (En : store h a_hash (dict_update (h a_hash) (h a_non)) a_non = h a_non)
    by (unfold store; now rewrite Hne).
  assert (Eh : store h a_hash (dict_update (h a_hash) (h a_non)) a_hash
               = dict_update (h a_hash) (h a_non))
    by (unfold store; now rewrite Nat.eqb_refl).
  rewrite En, Eh, Hnon. cbn [dict_keys map fst find].
  rewrite dict_mem_update. rewrite <- Hnon.
  assert (Hk : dict_mem k0 (h a_non) = true).
  { rewrite Hnon. unfold dict_mem. simpl. now rewrite String.eqb_refl. }
  rewrite Hk, orb_true_r. reflexivity.
Qed.

Lemma second_construction_fails_witness :
  fst (__init__ (Some 0%nat) (Some 1%nat) (Some 2%nat) 10 false
         (snd (__init__ (Some 0%nat) (Some 1%nat) (Some 2%nat) 10 false example_heap)))
  = Raise (ValueError (msg_both "logDir")).
Proof.
  apply (second_construction_fails (Some 0%nat) (Some 0%nat) 1%nat 2%nat 10 10 false false
           example_heap "logDir" (VStr "/tmp") []);
    [discriminate | reflexivity | reflexivity].
Defined.

(* ===================================================================== *)
(** * The effective configuration *)
(* ===================================================================== *)

Lemma dict_keys_set_absent (k : string) (v : value) (d : pydict) :
  dict_mem k d = false -> dict_keys (dict_set k v d) = dict_keys d ++ [k].
Proof.
  unfold dict_mem. induction d as [| [k' v'] d IH]; simpl; [reflexivity |].
  destruct (String.eqb k k'); simpl; [discriminate |].
  intros H. now rewrite IH.
Qed.

Lemma nodup_set (k : string) (v : value) (d : pydict) :
  NoDup (dict_keys d) -> NoDup (dict_keys (dict_set k v d)).
Proof.
  intros H. destruct (dict_mem k d) eqn:E.
  - now rewrite dict_keys_set_present.
  - rewrite dict_keys_set_absent by exact E.
    apply NoDup_app; [exact H | repeat constructor; simpl; tauto |].
    intros x Hx [<- | []]. apply dict_mem_In in Hx. congruence.
Qed.

Lemma nodup_update (d other : pydict) :
  NoDup (dict_keys d) -> NoDup (dict_keys (dict_update d other)).
Proof.
  unfold dict_update. revert d.
  induction other as [| [k v] other IH]; intros d H; simpl; [exact H |].
  apply IH. now apply nodup_set.
Qed.

Lemma dict_keys_update_present (d other : pydict) :
  (forall k, In k (dict_keys other) -> dict_mem k d = true) ->
  dict_keys (dict_update d other) = dict_keys d.
Proof.
  unfold dict_update. revert d.
  induction other as [| [k v] other IH]; intros d H; simpl; [reflexivity |].
  rewrite IH.
  - apply dict_keys_set_present. apply H. now left.
  - intros x Hx. rewrite dict_mem_set. rewrite (H x) by now right.
    apply orb_true_r.
Qed.

(** With no key repeated in [other], [d.update(other)] holds under a key
    the value [other] gives it, and the value of [d] for the other
    keys. *)
Lemma update_get_nodup (k : string) (d other : pydict) :
  NoDup (dict_keys other) ->
  dict_get k (dict_update d other)
  = match dict_get k other with
    | Some v => Some v
    | None => dict_get k d
    end.
Proof.
  unfold dict_update. revert d.
  induction other as [| [x v] other IH]; intros d Hn; simpl; [reflexivity |].
  inversion Hn as [| y l Hx Hn']. subst.
  rewrite (IH _ Hn'). rewrite dict_get_set.
  destruct (String.eqb k x) eqn:E.
  - apply String.eqb_eq in E. subst x.
    assert (Ho : dict_get k other = None) by now apply dict_get_None_iff.
    now rewrite Ho, String.eqb_refl.
  - rewrite String.eqb_sym, E. reflexivity.
Qed.

Lemma override_items_keys (items : pydict) :
  dict_keys (override_items items) = dict_keys items.
Proof.
  unfold override_items, dict_keys. rewrite map_map. reflexivity.
Qed.

Lemma override_items_get (k : string) (items : pydict) :
  dict_get k (override_items items) = option_map override_value (dict_get k items).
Proof.
  induction items as [| [x v] items IH]; simpl; [reflexivity |].
  destruct (String.eqb k x); [reflexivity | exact IH].
Qed.

(** What the loop of [_parse] returns as [hps]: the dictionary it starts
    from, updated with the overrides; and every override key has a
    default. *)
Lemma parse_loop_all (h : heap) (a b : nat) (items hps hth all_hps hash_hps : pydict) :
  parse_loop h a b items hps hth = Ok (all_hps, hash_hps) ->
  all_hps = dict_update hps (override_items items) /\
  forall k, In k (dict_keys items) -> dict_mem k (h a) = true.
Proof.
  revert hps hth. induction items as [| [key val] items IH]; intros hps hth Hp.
  - inversion Hp. split; [reflexivity | intros k []].
  - simpl in Hp.
    destruct (is_none_override val) as [c [Hc Ec]].
    rewrite Hc in Hp. cbn [bind] in Hp. rewrite Ec in Hp.
    destruct (dict_get key (h a)) as [dflt |] eqn:Ed; [| discriminate].
    match type of Hp with
    | bind ?c _ = _ => destruct c as [nd | e]; [| discriminate]
    end.
    cbn [bind] in Hp. destruct (IH _ _ Hp) as [Hall Hkeys].
    split; [exact Hall |].
    intros k [<- | Hk]; [| now apply Hkeys].
    unfold dict_mem. simpl. now rewrite Ed.
Qed.

(** A successful construction from three dictionaries without repeated
    keys, the overrides in an object of their own. *)
Lemma init_effective (a_in a_hash a_non : nat) (hash_len : Z) (verbose : bool)
    (h : heap) (self : pydict) :
  a_in <> a_hash ->
  NoDup (dict_keys (h a_in)) -> NoDup (dict_keys (h a_hash)) ->
  fst (__init__ (Some a_in) (Some a_hash) (Some a_non) hash_len verbose h) = Ok self ->
  exists all_hps hash_hps,
    self = dict_update (fresh_self hash_len verbose all_hps hash_hps) all_hps /\
    dict_keys all_hps = dict_keys (dict_update (h a_hash) (h a_non)) /\
    NoDup (dict_keys all_hps) /\
    forall key,
      dict_get key all_hps
      = match dict_get key (h a_in) with
        | Some val => Some (override_value val)
        | None => dict_get key (dict_update (h a_hash) (h a_non))
        end.
Proof.
  intros Hne Hni Hnh Hinit. apply Nat.eqb_neq in Hne.
  destruct (init_ok_inv _ _ _ _ _ _ _ Hinit)
    as [a_in' [a_hash' [a_non' [all_hps [hash_hps [E1 [E2 [E3 [Hf [Hp [_ ->]]]]]]]]]]].
  inversion E1. inversion E2. inversion E3. subst a_in' a_hash' a_non'.
  set (m := dict_update (h a_hash) (h a_non)) in *.
  assert (Ei : store h a_hash m a_in = h a_in) by (unfold store; now rewrite Hne).
  rewrite Ei in Hp.
  destruct (parse_loop_all _ _ _ _ _ _ _ _ Hp) as [Hall Hkeys].
  assert (Em : store h a_hash m a_hash = m) by (unfold store; now rewrite Nat.eqb_refl).
  rewrite Em in Hkeys.
  assert (Ek : dict_keys all_hps = dict_keys m).
  { rewrite Hall. apply dict_keys_update_present.
    intros k Hk. apply Hkeys. now rewrite override_items_keys in Hk. }
  exists all_hps, hash_hps. split; [reflexivity |]. split; [exact Ek |].
  split; [rewrite Ek; now apply nodup_update |].
  intros key. rewrite Hall.
  rewrite update_get_nodup by (now rewrite override_items_keys).
  rewrite override_items_get. now destruct (dict_get key (h a_in)).
Qed.

Lemma dict_mem_keys_eq (k : string) (d1 d2 : pydict) :
  dict_keys d1 = dict_keys d2 -> dict_mem k d1 = dict_mem k d2.
Proof.
  intros E. destruct (dict_mem k d1) eqn:E1; destruct (dict_mem k d2) eqn:E2;
    try reflexivity.
  - apply dict_mem_In in E1. rewrite E in E1. apply dict_mem_In in E1. congruence.
  - apply dict_mem_In in E2. rewrite <- E in E2. apply dict_mem_In in E2. congruence.
Qed.

Lemma update_get_present (k : string) (d other : pydict) :
  NoDup (dict_keys other) -> dict_mem k other = true ->
  dict_get k (dict_update d other) = dict_get k other.
Proof.
  intros Hn Hm. rewrite update_get_nodup by exact Hn.
  unfold dict_mem in Hm. now destruct (dict_get k other).
Qed.

(** The effective configuration.  After a successful construction
    from three dictionaries, the overrides in an object of their own, the
    object holds the hyperparameters of the merged defaults, in their
    order, and no others; each one has the value of its override, with
    ['None'] read as [None], or else its default; and each one is an
    attribute of the object with that value. *)
Theorem effective_configuration (a_in a_hash a_non : nat) (hash_len : Z)
    (verbose : bool) (h : heap) (self : pydict) :
  a_in <> a_hash ->
  NoDup (dict_keys (h a_in)) -> NoDup (dict_keys (h a_hash)) ->
  fst (__init__ (Some a_in) (Some a_hash) (Some a_non) hash_len verbose h) = Ok self ->
  exists all_hps,
    (dict_mem "_all_hps_as_dict" (dict_update (h a_hash) (h a_non)) = false ->
     getattr self "_all_hps_as_dict" = Ok (VDict all_hps)) /\
    dict_keys all_hps = dict_keys (dict_update (h a_hash) (h a_non)) /\
    forall key dflt,
      dict_get key (dict_update (h a_hash) (h a_non)) = Some dflt ->
      dict_get key all_hps
      = Some (match dict_get key (h a_in) with
              | Some val => override_value val
              | None => dflt
              end) /\
      getattr self key = Ok (match dict_get key (h a_in) with
                             | Some val => override_value val
                             | None => dflt
                             end).
Proof.
  intros Hne Hni Hnh Hinit.
  destruct (init_effective _ _ _ _ _ _ _ Hne Hni Hnh Hinit)
    as [all_hps [hash_hps [-> [Ek [Hnd Hget]]]]].
  exists all_hps. split; [| split; [exact Ek |]].
  - intros Hm. unfold getattr. rewrite update_get_other; [reflexivity |].
    now rewrite (dict_mem_keys_eq _ _ _ Ek).
  - intros key dflt Hd.
    assert (Hk : dict_get key all_hps
                 = Some (match dict_get key (h a_in) with
                         | Some val => override_value val
                         | None => dflt
                         end)).
    { rewrite Hget. now destruct (dict_get key (h a_in)). }
    split; [exact Hk |].
    unfold getattr. rewrite update_get_present; [now rewrite Hk | exact Hnd |].
    unfold dict_mem. now rewrite Hk.
Qed.

Lemma effective_configuration_witness :
  exists self,
    fst (__init__ (Some 0%nat) (Some 1%nat) (Some 2%nat) 10 false example_heap) = Ok self /\
    getattr self "depth" = Ok (VInt 5) /\
    getattr self "lr" = Ok (VInt 1) /\
    getattr self "logDir" = Ok (VStr "/tmp").
Proof.
  eexists.
  destruct (effective_configuration 0%nat 1%nat 2%nat 10 false example_heap _
              ltac:(discriminate)
              ltac:(apply nodup_keys_NoDup; reflexivity)
              ltac:(apply nodup_keys_NoDup; reflexivity)
              eq_refl)
    as [all_hps [_ [_ H]]].
  split; [reflexivity |]. split; [| split].
  - exact (proj2 (H "depth"%string (VInt 3) eq_refl)).
  - exact (proj2 (H "lr"%string (VInt 1) eq_refl)).
  - exact (proj2 (H "logDir"%string (VStr "/tmp") eq_refl)).
Defined.

(* ===================================================================== *)
(** * The two fingerprints, for every hash length *)
(* ===================================================================== *)

Lemma get_hash_all_hps_of_fresh (hash_len : Z) (verbose : bool)
    (all_hps hash_hps : pydict) :
  (forall name, In name get_hash_all_hps_names -> dict_mem name all_hps = false) ->
  get_hash_all_hps (dict_update (fresh_self hash_len verbose all_hps hash_hps) all_hps)
  = Ok (slice_to hash_len (_generate_hash all_hps)).
Proof.
  intros Hn.
  assert (Hget : forall name, In name get_hash_all_hps_names ->
            dict_get name (dict_update (fresh_self hash_len verbose all_hps hash_hps) all_hps)
            = dict_get name (fresh_self hash_len verbose all_hps hash_hps)).
  { intros name Hin. apply update_get_other. now apply Hn. }
  unfold get_hash_all_hps, hash_of_attr, call_generate_hash, method, getattr, dict_mem.
  rewrite !Hget by (simpl; tauto).
  reflexivity.
Qed.

(** A successful construction from defaults that do not use the names
    [names]: no hyperparameter of the object bears one of them. *)
Lemma init_names_free (names : list string) (hps dh dnh : ref) (hash_len : Z)
    (verbose : bool) (h : heap) (self : pydict) :
  fst (__init__ hps dh dnh hash_len verbose h) = Ok self ->
  (forall a name, dh = Some a \/ dnh = Some a -> In name names ->
                  dict_mem name (h a) = false) ->
  exists all_hps hash_hps,
    self = dict_update (fresh_self hash_len verbose all_hps hash_hps) all_hps /\
    forall name, In name names -> dict_mem name all_hps = false.
Proof.
  intros Hinit Hnames.
  destruct (init_ok_inv _ _ _ _ _ _ _ Hinit)
    as [a_in [a_hash [a_non [all_hps [hash_hps [-> [-> [-> [Hf [Hp [_ ->]]]]]]]]]]].
  exists all_hps, hash_hps. split; [reflexivity |].
  intros name Hin. destruct (dict_mem name all_hps) eqn:E; [| reflexivity].
  assert (Hm : dict_mem name (dict_update (h a_hash) (h a_non)) = true).
  { destruct (parse_loop_keys _ _ _ _ _ _ _ _ Hp name E) as [Hm | Hm].
    - exact Hm.
    - unfold store in Hm. now rewrite Nat.eqb_refl in Hm. }
  rewrite dict_mem_update in Hm.
  rewrite (Hnames a_hash name), (Hnames a_non name) in Hm; auto.
Qed.

Lemma slice_to_length (stop : Z) (s : string) :
  Z.of_nat (String.length (slice_to stop s))
  = slice_length stop (Z.of_nat (String.length s)).
Proof.
  unfold slice_to, slice_length. rewrite substring_length.
  destruct (stop <? 0); lia.
Qed.

(** The two fingerprints for every hash length.  On an object
    constructed from overrides and defaults of printable keys and leaves
    (no key ends in a NUL character, no integer has more than 4300
    digits, there is no array, and the nesting is at most 100 deep),
    the defaults not using the names the two methods read, [get_hash]
    and [get_hash_all_hps] return [digest[0:hash_len]] for the SHA-512
    hex digest of the canonical string of the Hashed Subset and of the
    effective configuration.  The hash length is not checked: 0 gives
    the empty string, a negative length drops that many characters from
    the end of the 128, and a length above 128 gives the whole digest. *)
Theorem fingerprints_any_length (hps dh dnh : ref) (hash_len : Z) (verbose : bool)
    (h : heap) (self : pydict) :
  fst (__init__ hps dh dnh hash_len verbose h) = Ok self ->
  (forall a, hps = Some a \/ dh = Some a \/ dnh = Some a -> printable (h a) = true) ->
  (forall a name, dh = Some a \/ dnh = Some a ->
                  In name (get_hash_names ++ get_hash_all_hps_names) ->
                  dict_mem name (h a) = false) ->
  exists all_hps hash_hps s s_all,
    getattr self "_all_hps_as_dict" = Ok (VDict all_hps) /\
    getattr self "_hash_hps_as_dict" = Ok (VDict hash_hps) /\
    get_hash self = Ok s /\
    s = slice_to hash_len (SHA512.hexdigest (_sorted_str_from_dict hash_hps)) /\
    get_hash_all_hps self = Ok s_all /\
    s_all = slice_to hash_len (SHA512.hexdigest (_sorted_str_from_dict all_hps)) /\
    Z.of_nat (String.length s) = slice_length hash_len 128 /\
    Z.of_nat (String.length s_all) = slice_length hash_len 128 /\
    is_hex s /\ is_hex s_all.
Proof.
  intros Hinit _ Hnames.
  destruct (init_names_free _ _ _ _ _ _ _ _ Hinit Hnames)
    as [all_hps [hash_hps [-> Hfree]]].
  assert (H1 : forall name, In name get_hash_names -> dict_mem name all_hps = false)
    by (intros name Hin; apply Hfree, in_or_app; now left).
  assert (H2 : forall name, In name get_hash_all_hps_names ->
                            dict_mem name all_hps = false)
    by (intros name Hin; apply Hfree, in_or_app; now right).
  exists all_hps, hash_hps. eexists. eexists.
  split; [| split; [| split; [apply (get_hash_of_fresh _ _ _ _ H1) |
    split; [reflexivity |
    split; [apply (get_hash_all_hps_of_fresh _ _ _ _ H2) |
    split; [reflexivity |]]]]]].
  - unfold getattr. rewrite update_get_other; [reflexivity |].
    apply H2. simpl. tauto.
  - unfold getattr. rewrite update_get_other; [reflexivity |].
    apply H1. simpl. tauto.
  - unfold _generate_hash. rewrite !slice_to_length, !hexdigest_length.
    repeat split; try reflexivity; apply substring_hex, hexdigest_hex.
Qed.

Lemma fingerprints_any_length_witness :
  exists self s s_all,
    fst (__init__ (Some 0%nat) (Some 1%nat) (Some 2%nat) (-120) false example_heap)
    = Ok self /\
    get_hash self = Ok s /\ get_hash_all_hps self = Ok s_all /\
    String.length s = 8%nat /\ String.length s_all = 8%nat.
Proof.
  eexists.
  destruct (fingerprints_any_length (Some 0%nat) (Some 1%nat) (Some 2%nat) (-120) false
              example_heap _ eq_refl)
    as [all_hps [hash_hps [s [s_all [_ [_ [H1 [_ [H2 [_ [H3 [H4 _]]]]]]]]]]]].
  - intros a [E | [E | E]]; inversion E; subst a; vm_compute; reflexivity.
  - intros a name [E | E] Hin; inversion E; subst a; simpl in Hin;
      repeat (destruct Hin as [<- | Hin]; [reflexivity |]); contradiction.
  - exists s, s_all. split; [reflexivity |]. split; [exact H1 |].
    split; [exact H2 |].
    unfold slice_length in H3, H4. simpl in H3, H4. split; lia.
Defined.

(* ===================================================================== *)
(** * Hyperparameters named like a method *)
(* ===================================================================== *)

Lemma init_has_defaults (hps dh dnh : ref) (hash_len : Z) (verbose : bool)
    (h : heap) (self : pydict) (a : nat) (name : string) :
  fst (__init__ hps dh dnh hash_len verbose h) = Ok self ->
  dh = Some a \/ dnh = Some a ->
  dict_mem name (h a) = true ->
  dict_mem name self = true /\ dict_mem "_hash_hps_as_dict" self = true /\
  dict_mem "_all_hps_as_dict" self = true.
Proof.
  intros Hinit Ha Hm.
  destruct (init_ok_inv _ _ _ _ _ _ _ Hinit)
    as [a_in [a_hash [a_non [all_hps [hash_hps [-> [-> [-> [Hf [Hp [_ ->]]]]]]]]]]].
  destruct (parse_loop_all _ _ _ _ _ _ _ _ Hp) as [Hall _].
  rewrite !dict_mem_update. split; [| split; reflexivity].
  rewrite Hall, !dict_mem_update.
  destruct Ha as [E | E]; inversion E; subst a; rewrite Hm;
    now rewrite ?orb_true_r.
Qed.

(** A hyperparameter named like a method takes the place of the
    method on the object.  After a successful construction from defaults
    that declare a hyperparameter named [get_hash], [_generate_hash] or
    [_sorted_str_from_dict], the call [get_hash()] raises a [TypeError];
    and so does [get_hash_all_hps()] for the names [get_hash_all_hps],
    [_generate_hash] and [_sorted_str_from_dict]. *)
Theorem hyperparameter_hides_method (hps dh dnh : ref) (hash_len : Z) (verbose : bool)
    (h : heap) (self : pydict) (a : nat) (name : string) :
  fst (__init__ hps dh dnh hash_len verbose h) = Ok self ->
  dh = Some a \/ dnh = Some a ->
  dict_mem name (h a) = true ->
  (In name ["get_hash"; "_generate_hash"; "_sorted_str_from_dict"]%string ->
   get_hash self = Raise TypeError) /\
  (In name ["get_hash_all_hps"; "_generate_hash"; "_sorted_str_from_dict"]%string ->
   get_hash_all_hps self = Raise TypeError).
Proof.
  intros Hinit Ha Hm.
  destruct (init_has_defaults _ _ _ _ _ _ _ _ _ Hinit Ha Hm) as [Hn [Hh Hall]].
  unfold get_hash, get_hash_all_hps, hash_of_attr, call_generate_hash, method, getattr.
  unfold dict_mem in Hh, Hall.
  destruct (dict_get "_hash_hps_as_dict" self) as [vh |]; [| discriminate].
  destruct (dict_get "_all_hps_as_dict" self) as [va |]; [| discriminate].
  split; intros Hin; simpl in Hin;
    repeat (destruct Hin as [<- | Hin]; [rewrite ?Hn |]); try contradiction;
    cbn [bind];
    repeat match goal with
           | |- context [if dict_mem ?n self then _ else _] =>
               destruct (dict_mem n self); cbn [bind]; try reflexivity
           end;
    reflexivity.
Qed.

Lemma hyperparameter_hides_method_witness :
  exists self,
    fst (__init__ (Some 0%nat) (Some 1%nat) (Some 2%nat) 10 false
           (heap_of [[]; [("get_hash"%string, VInt 1)]; []])) = Ok self /\
    get_hash self = Raise TypeError.
Proof.
  eexists. split; [reflexivity |].
  apply (hyperparameter_hides_method (Some 0%nat) (Some 1%nat) (Some 2%nat) 10 false
           (heap_of [[]; [("get_hash"%string, VInt 1)]; []]) _ 1%nat "get_hash"
           eq_refl (or_introl eq_refl) eq_refl).
  simpl. tauto.
Defined.

(* ===================================================================== *)
(** * An override that restates its default *)
(* ===================================================================== *)

Lemma wf_dict_cons (k : string) (v : value) (d : pydict) :
  wf_dict ((k, v) :: d) <-> ~ In k (dict_keys d) /\ wf_value v /\ wf_dict d.
Proof.
  unfold wf_dict. simpl. rewrite NoDup_cons_iff. unfold dict_keys. tauto.
Qed.

Lemma wf_dict_In (d : pydict) (k : string) (v : value) :
  wf_dict d -> In (k, v) d -> wf_value v /\ dict_get k d = Some v.
Proof.
  induction d as [| [k' v'] d IH]; intros Hw Hin; [contradiction |].
  apply wf_dict_cons in Hw. destruct Hw as [Hk [Hv Hd]]. simpl.
  destruct Hin as [Hin | Hin].
  - inversion Hin. subst. now rewrite String.eqb_refl.
  - destruct (IH Hd Hin) as [Hwv Hg]. split; [exact Hwv |].
    destruct (String.eqb k k') eqn:E; [| exact Hg].
    apply String.eqb_eq in E. subst k'. exfalso. apply Hk.
    unfold dict_keys. apply in_map_iff. now exists (k, v).
Qed.

Lemma all_items_true (test : string -> value -> result bool) (l : pydict) :
  (forall k v, In (k, v) l -> test k v = Ok true) -> all_items test l = Ok true.
Proof.
  induction l as [| [k v] l IH]; intros H; simpl; [reflexivity |].
  rewrite (H k v) by now left. cbn [bind]. apply IH.
  intros k' v' Hin. apply H. now right.
Qed.

(** [v == v] holds for a value with no array in it. *)
Lemma truth_eq_refl (v : value) :
  wf_value v -> no_array v = true -> truth_eq v v = Ok true.
Proof.
  induction v as [| x | m | s | x | d IH] using value_nested_ind; intros Hw Ha;
    try discriminate; simpl.
  - reflexivity.
  - now rewrite Bool.eqb_reflx.
  - now rewrite Z.eqb_refl.
  - now rewrite String.eqb_refl.
  - rewrite Forall_forall in IH. rewrite Nat.eqb_refl.
    apply all_items_true. intros k v Hin.
    destruct (wf_dict_In d k v Hw Hin) as [Hwv Hg]. rewrite Hg.
    apply (IH (k, v) Hin Hwv). apply (no_array_items d k v Ha Hin).
Qed.

Lemma zip_eqb_refl (a : list Z) : zip_eqb a a = map (fun _ => true) a.
Proof.
  induction a as [| x a IH]; simpl; [reflexivity |].
  now rewrite Z.eqb_refl, IH.
Qed.

(** The test [np.all(val != default)] of [_parse] on a value and
    itself, for the values of this development: [None], a [bool], an
    [int], a [str], an integer array, or a dictionary of these without
    an array inside.  (A [float] is not among them; a NaN is unequal to
    itself.)  Such a value is found equal to itself, and so is not a
    non-default value, with one exception among them: the empty array,
    for which [numpy.all] of the empty comparison holds. *)
Theorem identical_value_is_default (v : value) :
  wf_value v -> plain v = true ->
  np_all_ne v v = Ok (match v with VArr [] => true | _ => false end).
Proof.
  intros Hw Hp.
  destruct v as [| x | m | s | a | d];
    try (unfold np_all_ne; rewrite (truth_eq_refl _ Hw Hp); reflexivity).
  unfold np_all_ne, np_eq, arr_eq. rewrite Nat.eqb_refl. cbn [all_ne].
  rewrite zip_eqb_refl. now destruct a.
Qed.

Lemma identical_value_is_default_witness :
  np_all_ne (VDict [("a"%string, VInt 1); ("b"%string, VDict [("c"%string, VStr "x")])])
            (VDict [("a"%string, VInt 1); ("b"%string, VDict [("c"%string, VStr "x")])])
  = Ok false /\
  np_all_ne (VArr []) (VArr []) = Ok true.
Proof.
  split.
  - apply (identical_value_is_default
             (VDict [("a"%string, VInt 1); ("b"%string, VDict [("c"%string, VStr "x")])])).
    + apply wf_value_b_sound. reflexivity.
    + reflexivity.
  - apply (identical_value_is_default (VArr []) I eq_refl).
Defined.

Lemma parse_loop_heap_ext (h1 h2 : heap) (a b : nat) (items hps hth : pydict) :
  h1 a = h2 a -> h1 b = h2 b ->
  parse_loop h1 a b items hps hth = parse_loop h2 a b items hps hth.
Proof.
  intros Ha Hb. revert hps hth.
  induction items as [| [key val] items IH]; intros hps hth; simpl; [reflexivity |].
  rewrite Ha, Hb.
  destruct (truth_eq val (VStr "None")); cbn [bind]; [| reflexivity].
  destruct (dict_get key (h2 a)); [| reflexivity].
  match goal with
  | |- bind ?c _ = _ => destruct c; cbn [bind]; [apply IH | reflexivity]
  end.
Qed.

(** The loop of [_parse] with and without the overrides of a key [k]
    that the comparison finds equal to the default of [k]: the same
    exception, or the same Hashed Subset and effective configurations
    that differ at most under [k]. *)
Lemma parse_loop_drop_default (k : string) (dflt : value) (h : heap) (a : nat)
    (items hps1 hps2 hth : pydict) :
  dict_get k (h a) = Some dflt ->
  (forall v, In (k, v) items -> np_all_ne (override_value v) dflt = Ok false) ->
  without k hps2 = without k hps1 ->
  match parse_loop h a a (without k items) hps2 hth, parse_loop h a a items hps1 hth with
  | Ok (all2, hash2), Ok (all1, hash1) =>
      without k all2 = without k all1 /\ hash2 = hash1
  | Raise e2, Raise e1 => e2 = e1
  | _, _ => False
  end.
Proof.
  intros Hd. revert hps1 hps2 hth.
  induction items as [| [key val] items IH]; intros hps1 hps2 hth Hv Hw.
  - simpl. now split.
  - assert (Hv' : forall v, In (k, v) items ->
                            np_all_ne (override_value v) dflt = Ok false)
      by (intros v Hin; apply Hv; now right).
    cbn [without filter fst]. destruct (String.eqb k key) eqn:E.
    + apply String.eqb_eq in E. subst key. cbn [negb parse_loop].
      destruct (is_none_override val) as [c [Hc Ec]]. rewrite Hc. cbn [bind].
      rewrite Ec, Hd. unfold dict_mem. rewrite Hd.
      rewrite (Hv val) by now left. cbn [bind].
      apply (IH _ _ _ Hv'). now rewrite without_set_eq.
    + cbn [negb parse_loop].
      assert (Hne : key <> k) by (apply String.eqb_neq in E; congruence).
      destruct (truth_eq val (VStr "None")) as [is_none | e]; cbn [bind];
        [| reflexivity].
      destruct (dict_get key (h a)) as [d |]; [| reflexivity].
      match goal with
      | |- match bind ?c _ with _ => _ end => destruct c as [nd | e]; cbn [bind];
                                               [| reflexivity]
      end.
      apply (IH _ _ _ Hv'). rewrite !without_set_ne by exact Hne. now rewrite Hw.
Qed.

Lemma first_refused_keys (d1 d2 : pydict) :
  dict_keys d1 = dict_keys d2 -> first_refused d1 = first_refused d2.
Proof.
  revert d2. induction d1 as [| [k v] d1 IH]; intros [| [k' v'] d2] E;
    try discriminate; [reflexivity |].
  simpl in E. inversion E. subst k'. simpl.
  destruct (setattr_refused k); [reflexivity |]. now apply IH.
Qed.

Lemma parse_loop_all_keys (h : heap) (a b : nat) (items hps hth all_hps hash_hps : pydict) :
  parse_loop h a b items hps hth = Ok (all_hps, hash_hps) ->
  hps = h a ->
  dict_keys all_hps = dict_keys hps.
Proof.
  intros Hp ->. destruct (parse_loop_all _ _ _ _ _ _ _ _ Hp) as [-> Hk].
  apply dict_keys_update_present. intros k Hin. apply Hk.
  now rewrite override_items_keys in Hin.
Qed.

(** An override that the comparison does not tell apart from its default
    is invisible to [get_hash].  Removing it from the overrides leaves
    the result of constructing the object and calling [get_hash()]
    unchanged, exceptions included, for a key that is not the name of an
    attribute [get_hash] reads. *)
Theorem default_valued_override_invisible (a_in a_hash a_non : nat) (hash_len : Z)
    (h : heap) (k : string) (v dflt : value) :
  a_in <> a_hash -> a_in <> a_non ->
  NoDup (dict_keys (h a_in)) ->
  dict_get k (h a_in) = Some v ->
  dict_get k (dict_update (h a_hash) (h a_non)) = Some dflt ->
  np_all_ne (override_value v) dflt = Ok false ->
  ~ In k get_hash_names ->
  construct_and_hash (Some a_in) (Some a_hash) (Some a_non) hash_len
    (store h a_in (without k (h a_in)))
  = construct_and_hash (Some a_in) (Some a_hash) (Some a_non) hash_len h.
Proof.
  intros Hih Hin Hnd Hv Hd Hdef Hres.
  apply Nat.eqb_neq in Hih. apply Nat.eqb_neq in Hin.
  rewrite Nat.eqb_sym in Hih. rewrite Nat.eqb_sym in Hin.
  unfold construct_and_hash, __init__, _parse.
  set (h2 := store h a_in (without k (h a_in))).
  assert (E2h : h2 a_hash = h a_hash) by (unfold h2, store; now rewrite Hih).
  assert (E2n : h2 a_non = h a_non) by (unfold h2, store; now rewrite Hin).
  rewrite E2h, E2n.
  destruct (find (fun key => dict_mem key (h a_hash)) (dict_keys (h a_non)));
    [reflexivity |].
  cbn [fst snd].
  set (m := dict_update (h a_hash) (h a_non)) in *.
  rewrite Nat.eqb_sym in Hih.
  assert (Ei2 : store h2 a_hash m a_in = without k (h a_in)).
  { unfold store at 1. rewrite Hih. unfold h2, store. now rewrite Nat.eqb_refl. }
  assert (Ei1 : store h a_hash m a_in = h a_in) by (unfold store; now rewrite Hih).
  rewrite Ei2, Ei1.
  assert (Eh1 : store h a_hash m a_hash = m) by (unfold store; now rewrite Nat.eqb_refl).
  assert (Eh2 : store h2 a_hash m a_hash = m)
    by (unfold store at 1; now rewrite Nat.eqb_refl).
  rewrite Eh1, Eh2.
  rewrite (parse_loop_heap_ext (store h2 a_hash m) (store h a_hash m) a_hash a_hash)
    by (unfold store; now rewrite !Nat.eqb_refl).
  assert (Hone : forall v', In (k, v') (h a_in) ->
                            np_all_ne (override_value v') dflt = Ok false).
  { intros v' Hv'. assert (E : dict_get k (h a_in) = Some v').
    { clear - Hnd Hv'. induction (h a_in) as [| [k' w] l IH]; [contradiction |].
      simpl in Hnd. inversion Hnd as [| x y Hx Hn]. subst. simpl.
      destruct Hv' as [Hv' | Hv'].
      - inversion Hv'. subst. now rewrite String.eqb_refl.
      - destruct (String.eqb k k') eqn:E; [| now apply IH].
        apply String.eqb_eq in E. subst k'. exfalso. apply Hx.
        apply in_map_iff. now exists (k, v'). }
    rewrite Hv in E. inversion E. now subst. }
  pose proof (parse_loop_drop_default k dflt (store h a_hash m) a_hash (h a_in) m m [])
    as Hloop.
  rewrite Eh1 in Hloop. specialize (Hloop Hd Hone eq_refl).
  destruct (parse_loop (store h a_hash m) a_hash a_hash (without k (h a_in)) m [])
    as [[all2 hash2] | e2] eqn:Ep2;
    destruct (parse_loop (store h a_hash m) a_hash a_hash (h a_in) m [])
    as [[all1 hash1] | e1] eqn:Ep1; try contradiction; cbn [fst bind].
  - destruct Hloop as [Hall ->].
    change (dict_set "_hash_hps_as_dict" (VDict hash1)
              (dict_set "_all_hps_as_dict" (VDict all2)
                 (dict_set "_verbose" (VBool false)
                    (dict_set "_hash_len" (VInt hash_len) []))))
      with (fresh_self hash_len false all2 hash1).
    change (dict_set "_hash_hps_as_dict" (VDict hash1)
              (dict_set "_all_hps_as_dict" (VDict all1)
                 (dict_set "_verbose" (VBool false)
                    (dict_set "_hash_len" (VInt hash_len) []))))
      with (fresh_self hash_len false all1 hash1).
    rewrite !setattrs_spec.
    assert (Ek : dict_keys all2 = dict_keys all1).
    { rewrite (parse_loop_all_keys _ _ _ _ _ _ _ _ Ep2 (eq_sym Eh1)).
      now rewrite (parse_loop_all_keys _ _ _ _ _ _ _ _ Ep1 (eq_sym Eh1)). }
    rewrite (first_refused_keys all2 all1 Ek).
    destruct (first_refused all1); [reflexivity |]. cbn [bind].
    assert (Hattr : forall n, In n get_hash_names ->
              dict_get n (dict_update (fresh_self hash_len false all2 hash1) all2)
              = dict_get n (dict_update (fresh_self hash_len false all1 hash1) all1)).
    { intros n Hn. assert (Hnk : n <> k) by (intros ->; contradiction).
      rewrite (update_get_without k n all2) by exact Hnk.
      rewrite (update_get_without k n all1) by exact Hnk.
      rewrite Hall. apply update_get_congr.
      simpl in Hn.
      repeat (destruct Hn as [<- | Hn]; [reflexivity |]). contradiction. }
    unfold get_hash, hash_of_attr, call_generate_hash, method, getattr, dict_mem.
    rewrite !Hattr by (simpl; tauto). reflexivity.
  - now rewrite Hloop.
Qed.

Lemma default_valued_override_invisible_witness :
  construct_and_hash (Some 0%nat) (Some 1%nat) (Some 2%nat) 10
    (heap_of [[("lr"%string, VInt 1)]; [("lr"%string, VBool true)]; []])
  = construct_and_hash (Some 0%nat) (Some 1%nat) (Some 2%nat) 10
      (heap_of [[]; [("lr"%string, VBool true)]; []]).
Proof.
  symmetry.
  etransitivity;
    [| apply (default_valued_override_invisible 0%nat 1%nat 2%nat 10
                (heap_of [[("lr"%string, VInt 1)]; [("lr"%string, VBool true)]; []])
                "lr" (VInt 1) (VBool true));
       try reflexivity; try discriminate].
  - reflexivity.
  - apply nodup_keys_NoDup. reflexivity.
  - simpl. intros H.
    repeat (destruct H as [H | H]; [discriminate H |]). exact H.
Defined.

(* ===================================================================== *)
(** * The order of the overrides *)
(* ===================================================================== *)

Lemma forallb_perm {A : Type} (f : A -> bool) (l l' : list A) :
  Permutation l l' -> forallb f l = forallb f l'.
Proof.
  induction 1 as [| x l l' _ IH | x y l | l l' l'' _ IH1 _ IH2]; simpl.
  - reflexivity.
  - now rewrite IH.
  - now destruct (f x), (f y).
  - now rewrite IH1.
Qed.

(** The loop of [_parse] returns exactly when it accepts every
    override. *)
Lemma parse_loop_ok (h : heap) (a b : nat) (items hps hth : pydict) :
  is_ok (parse_loop h a b items hps hth) = forallb (override_accepted h a b) items.
Proof.
  revert hps hth. induction items as [| [key val] items IH]; intros hps hth;
    [reflexivity |].
  cbn [parse_loop forallb]. unfold override_accepted at 1. cbn [fst snd].
  destruct (is_none_override val) as [c [Hc Ec]]. rewrite Hc. cbn [bind]. rewrite Ec.
  destruct (dict_get key (h a)) as [dflt |]; [| reflexivity].
  destruct (dict_mem key (h b)).
  - destruct (np_all_ne (override_value val) dflt); cbn [bind is_ok andb];
      [apply IH | reflexivity].
  - cbn [bind andb]. apply IH.
Qed.

Lemma dict_set_comm (k1 k2 : string) (v1 v2 : value) (d : pydict) :
  k1 <> k2 -> dict_mem k1 d = true -> dict_mem k2 d = true ->
  dict_set k1 v1 (dict_set k2 v2 d) = dict_set k2 v2 (dict_set k1 v1 d).
Proof.
  intros Hne. unfold dict_mem.
  induction d as [| [k v] d IH]; simpl; [discriminate |].
  destruct (String.eqb k1 k) eqn:E1; destruct (String.eqb k2 k) eqn:E2; simpl;
    rewrite ?E1, ?E2; try reflexivity.
  - apply String.eqb_eq in E1. apply String.eqb_eq in E2. congruence.
  - intros H1 H2. now rewrite IH.
Qed.

(** Updating with the items of [other] in another order gives the same
    dictionary, in the same order, when [other] repeats no key and adds
    none. *)
Lemma dict_update_perm (d other other' : pydict) :
  Permutation other other' ->
  NoDup (dict_keys other) ->
  (forall k, In k (dict_keys other) -> dict_mem k d = true) ->
  dict_update d other = dict_update d other'.
Proof.
  unfold dict_update. intros Hperm. revert d.
  induction Hperm as [| x l l' Hp IH | x y l | l l' l'' Hp1 IH1 Hp2 IH2];
    intros d Hn Hin; simpl.
  - reflexivity.
  - simpl in Hn. inversion Hn as [| a b Hx Hn']. subst.
    apply IH; [exact Hn' |].
    intros k Hk. rewrite dict_mem_set, (Hin k) by now right. apply orb_true_r.
  - simpl in Hn. inversion Hn as [| a b Hy Hn']. subst.
    rewrite (dict_set_comm (fst x) (fst y)); [reflexivity | | |].
    + intros E. apply Hy. left. now symmetry.
    + apply Hin. right. now left.
    + apply Hin. now left.
  - rewrite (IH1 d Hn Hin). apply IH2.
    + unfold dict_keys in *. eapply Permutation_NoDup; [| exact Hn].
      now apply Permutation_map.
    + intros k Hk. apply Hin. unfold dict_keys in *.
      eapply Permutation_in; [| exact Hk].
      apply Permutation_sym. now apply Permutation_map.
Qed.

Lemma dict_get_In_iff (k : string) (v : value) (l : pydict) :
  NoDup (dict_keys l) -> (dict_get k l = Some v <-> In (k, v) l).
Proof.
  intros Hn. split; [apply dict_get_Some_In |].
  induction l as [| [k' w] l IH]; intros Hin; [contradiction |].
  simpl in Hn. inversion Hn as [| a b Hx Hn']. subst. simpl.
  destruct Hin as [Hin | Hin].
  - inversion Hin. subst. now rewrite String.eqb_refl.
  - destruct (String.eqb k k') eqn:E; [| now apply IH].
    apply String.eqb_eq in E. subst k'. exfalso. apply Hx.
    apply in_map_iff. now exists (k, v).
Qed.

Lemma dict_get_perm (k : string) (l l' : pydict) :
  NoDup (dict_keys l) -> Permutation l l' -> dict_get k l = dict_get k l'.
Proof.
  intros Hn Hp.
  assert (Hn' : NoDup (dict_keys l')).
  { unfold dict_keys in *. eapply Permutation_NoDup; [| exact Hn].
    now apply Permutation_map. }
  destruct (dict_get k l) as [v |] eqn:E; destruct (dict_get k l') as [v' |] eqn:E';
    try reflexivity.
  - apply (dict_get_In_iff k v l Hn) in E.
    apply (Permutation_in _ Hp) in E. apply (dict_get_In_iff k v l' Hn') in E.
    congruence.
  - apply (dict_get_In_iff k v l Hn) in E.
    apply (Permutation_in _ Hp) in E. apply (dict_get_In_iff k v l' Hn') in E.
    congruence.
  - apply (dict_get_In_iff k v' l' Hn') in E'.
    apply (Permutation_in _ (Permutation_sym Hp)) in E'.
    apply (dict_get_In_iff k v' l Hn) in E'. congruence.
Qed.

Lemma wf_dict_set (k : string) (v : value) (d : pydict) :
  wf_value v -> wf_dict d -> wf_dict (dict_set k v d).
Proof.
  intros Hv. induction d as [| [k' v'] d IH]; intros Hd.
  - apply wf_dict_cons. split; [simpl; tauto | split; [exact Hv | exact Hd]].
  - apply wf_dict_cons in Hd. destruct Hd as [Hk [Hv' Hd]]. simpl.
    destruct (String.eqb k k') eqn:E; apply wf_dict_cons.
    + split; [exact Hk | split; [exact Hv | exact Hd]].
    + split; [| split; [exact Hv' | now apply IH]].
      intros Hin. apply dict_mem_In in Hin. rewrite dict_mem_set, E in Hin.
      simpl in Hin. apply dict_mem_In in Hin. contradiction.
Qed.

Lemma wf_override (v : value) : wf_value v -> wf_value (override_value v).
Proof.
  intros H. destruct (is_none_override v) as [c [_ E]]. rewrite <- E.
  now destruct c.
Qed.

Lemma parse_loop_wf (h : heap) (a b : nat) (items hps hth all_hps hash_hps : pydict) :
  wf_dict items -> wf_dict hth ->
  parse_loop h a b items hps hth = Ok (all_hps, hash_hps) ->
  wf_dict hash_hps.
Proof.
  revert hps hth. induction items as [| [key val] items IH]; intros hps hth Hi Hh Hp.
  - inversion Hp. now subst.
  - apply wf_dict_cons in Hi. destruct Hi as [_ [Hv Hi]].
    simpl in Hp.
    destruct (is_none_override val) as [c [Hc Ec]].
    rewrite Hc in Hp. cbn [bind] in Hp. rewrite Ec in Hp.
    destruct (dict_get key (h a)) as [dflt |]; [| discriminate].
    match type of Hp with
    | bind ?c _ = _ => destruct c as [nd | e]; [| discriminate]
    end.
    cbn [bind] in Hp. apply (IH _ _ Hi) in Hp; [exact Hp |].
    destruct nd; [| exact Hh]. apply wf_dict_set; [now apply wf_override | exact Hh].
Qed.

(** A construction that succeeds, put together. *)
Lemma init_ok_intro (a_in a_hash a_non : nat) (hash_len : Z) (verbose : bool)
    (h : heap) (all_hps hash_hps : pydict) :
  find (fun k => dict_mem k (h a_hash)) (dict_keys (h a_non)) = None ->
  parse_loop (store h a_hash (dict_update (h a_hash) (h a_non))) a_hash a_hash
    (store h a_hash (dict_update (h a_hash) (h a_non)) a_in)
    (dict_update (h a_hash) (h a_non)) []
  = Ok (all_hps, hash_hps) ->
  first_refused all_hps = None ->
  fst (__init__ (Some a_in) (Some a_hash) (Some a_non) hash_len verbose h)
  = Ok (dict_update (fresh_self hash_len verbose all_hps hash_hps) all_hps).
Proof.
  intros Hf Hp Hr. unfold __init__, _parse. rewrite Hf. cbn [fst snd].
  unfold store at 3. rewrite Nat.eqb_refl. rewrite Hp. cbn [fst].
  change (dict_set "_hash_hps_as_dict" (VDict hash_hps)
            (dict_set "_all_hps_as_dict" (VDict all_hps)
               (dict_set "_verbose" (VBool verbose)
                  (dict_set "_hash_len" (VInt hash_len) []))))
    with (fresh_self hash_len verbose all_hps hash_hps).
  now rewrite setattrs_spec, Hr.
Qed.

Lemma update_get_mem (n : string) (items s1 s2 : pydict) :
  dict_mem n items = true ->
  dict_get n (dict_update s1 items) = dict_get n (dict_update s2 items).
Proof.
  unfold dict_update. revert s1 s2.
  induction items as [| [x v] items IH]; intros s1 s2 H; [discriminate |].
  simpl. unfold dict_mem in H. simpl in H.
  destruct (String.eqb n x) eqn:E.
  - apply String.eqb_eq in E. subst x.
    apply (update_get_congr n items). now rewrite !dict_get_set_eq.
  - apply IH. exact H.
Qed.

Lemma get_hash_ext (s1 s2 : pydict) :
  (forall n, In n get_hash_names -> dict_get n s1 = dict_get n s2) ->
  get_hash s1 = get_hash s2.
Proof.
  intros H. unfold get_hash, hash_of_attr, call_generate_hash, method, getattr, dict_mem.
  rewrite !H by (simpl; tauto). reflexivity.
Qed.

Lemma get_hash_all_hps_ext (s1 s2 : pydict) :
  (forall n, In n get_hash_all_hps_names -> dict_get n s1 = dict_get n s2) ->
  get_hash_all_hps s1 = get_hash_all_hps s2.
Proof.
  intros H.
  unfold get_hash_all_hps, hash_of_attr, call_generate_hash, method, getattr, dict_mem.
  rewrite !H by (simpl; tauto). reflexivity.
Qed.

Lemma get_hash_same_digest (s1 s2 d1 d2 : pydict) :
  (forall n, In n get_hash_names -> n <> "_hash_hps_as_dict"%string ->
             dict_get n s1 = dict_get n s2) ->
  dict_get "_hash_hps_as_dict" s1 = Some (VDict d1) ->
  dict_get "_hash_hps_as_dict" s2 = Some (VDict d2) ->
  _generate_hash d1 = _generate_hash d2 ->
  get_hash s1 = get_hash s2.
Proof.
  intros H E1 E2 Hd.
  unfold get_hash, hash_of_attr, call_generate_hash, method, getattr, dict_mem.
  rewrite E1, E2.
  rewrite !H by (simpl; try tauto; discriminate).
  repeat match goal with
         | |- context [match dict_get ?n s2 with _ => _ end] =>
             destruct (dict_get n s2); cbn [bind]; try reflexivity
         end;
    now rewrite Hd.
Qed.

Lemma fresh_self_get (name : string) (hash_len : Z) (verbose : bool)
    (all_hps hash1 hash2 : pydict) :
  name <> "_hash_hps_as_dict"%string ->
  dict_get name (fresh_self hash_len verbose all_hps hash1)
  = dict_get name (fresh_self hash_len verbose all_hps hash2).
Proof.
  intros Hne. apply String.eqb_neq in Hne. unfold fresh_self. simpl.
  now rewrite Hne.
Qed.

Lemma option_ext {A : Type} (o1 o2 : option A) :
  (forall v, o1 = Some v <-> o2 = Some v) -> o1 = o2.
Proof.
  intros H. destruct o1 as [v |].
  - symmetry. now apply H.
  - destruct o2 as [v |]; [| reflexivity]. now apply H.
Qed.

Lemma wf_dict_nil : wf_dict [].
Proof. split; constructor. Qed.

Lemma wf_dict_forall (d : pydict) :
  wf_dict d <-> NoDup (dict_keys d) /\ Forall (fun kv => wf_value (snd kv)) d.
Proof.
  induction d as [| [k v] d IH].
  - split; [intros _; split; constructor | intros _; apply wf_dict_nil].
  - rewrite wf_dict_cons, IH. simpl. rewrite NoDup_cons_iff, Forall_cons_iff.
    simpl. tauto.
Qed.

Lemma wf_dict_perm (d d' : pydict) : wf_dict d -> Permutation d d' -> wf_dict d'.
Proof.
  rewrite !wf_dict_forall. intros [Hn Hf] Hp. split.
  - unfold dict_keys in *. eapply Permutation_NoDup; [| exact Hn].
    now apply Permutation_map.
  - eapply Permutation_Forall; eassumption.
Qed.

(** The order of the overrides does not matter.  When a construction
    succeeds, so does the construction from the same overrides held in
    another order; the two objects have the same attributes, the
    effective configuration among them, but for the order in which the
    Hashed Subset holds its items; and the two fingerprints are the
    same. *)
Theorem override_order_irrelevant (a_in a_hash a_non : nat) (hash_len : Z)
    (verbose : bool) (h : heap) (items' self : pydict) :
  a_in <> a_hash -> a_in <> a_non ->
  wf_dict (h a_in) ->
  Permutation (h a_in) items' ->
  fst (__init__ (Some a_in) (Some a_hash) (Some a_non) hash_len verbose h) = Ok self ->
  exists self',
    fst (__init__ (Some a_in) (Some a_hash) (Some a_non) hash_len verbose
           (store h a_in items')) = Ok self' /\
    (forall name, name <> "_hash_hps_as_dict"%string ->
                  getattr self' name = getattr self name) /\
    get_hash self' = get_hash self /\
    get_hash_all_hps self' = get_hash_all_hps self.
Proof.
  intros Hih Hin Hwf Hperm Hinit.
  destruct (init_ok_inv _ _ _ _ _ _ _ Hinit)
    as [a_in' [a_hash' [a_non' [all_hps [hash_hps [E1 [E2 [E3 [Hf [Hp [Hr ->]]]]]]]]]]].
  inversion E1. inversion E2. inversion E3. subst a_in' a_hash' a_non'.
  clear E1 E2 E3.
  apply Nat.eqb_neq in Hih. apply Nat.eqb_neq in Hin.
  set (m := dict_update (h a_hash) (h a_non)) in *.
  assert (Ei : store h a_hash m a_in = h a_in) by (unfold store; now rewrite Hih).
  assert (Em : store h a_hash m a_hash = m) by (unfold store; now rewrite Nat.eqb_refl).
  rewrite Ei in Hp.
  pose proof (wf_value_keys _ Hwf) as Hnd.
  assert (Hnd' : NoDup (dict_keys items')).
  { unfold dict_keys in *. eapply Permutation_NoDup; [| exact Hnd].
    now apply Permutation_map. }
  (* the loop over the permuted overrides *)
  assert (Hok : is_ok (parse_loop (store h a_hash m) a_hash a_hash items' m []) = true).
  { rewrite parse_loop_ok, <- (forallb_perm _ _ _ Hperm).
    rewrite <- (parse_loop_ok _ _ _ (h a_in) m []). now rewrite Hp. }
  destruct (parse_loop (store h a_hash m) a_hash a_hash items' m [])
    as [[all' hash'] | e] eqn:Hp'; [| discriminate]. clear Hok.
  destruct (parse_loop_all _ _ _ _ _ _ _ _ Hp) as [Hall Hkeys].
  destruct (parse_loop_all _ _ _ _ _ _ _ _ Hp') as [Hall' _].
  rewrite Em in Hkeys.
  assert (Eall : all' = all_hps).
  { rewrite Hall, Hall'. symmetry. apply dict_update_perm.
    - unfold override_items. now apply Permutation_map.
    - now rewrite override_items_keys.
    - intros k Hk. rewrite override_items_keys in Hk. now apply Hkeys. }
  clear Hall'. subst all'.
  (* the construction from the permuted overrides *)
  set (h' := store h a_in items').
  rewrite Nat.eqb_sym in Hih.
  assert (E'h : h' a_hash = h a_hash) by (unfold h', store; now rewrite Hih).
  assert (E'n : h' a_non = h a_non).
  { unfold h', store. rewrite Nat.eqb_sym in Hin. now rewrite Hin. }
  rewrite Nat.eqb_sym in Hih.
  assert (E'i : store h' a_hash m a_in = items').
  { unfold store at 1. rewrite Hih. unfold h', store. now rewrite Nat.eqb_refl. }
  exists (dict_update (fresh_self hash_len verbose all_hps hash') all_hps).
  split.
  { apply init_ok_intro; rewrite ?E'h, ?E'n; fold m; [exact Hf | | exact Hr].
    rewrite E'i.
    rewrite (parse_loop_heap_ext (store h' a_hash m) (store h a_hash m) a_hash a_hash)
      by (unfold store; now rewrite !Nat.eqb_refl).
    exact Hp'. }
  assert (Hattr : forall name, name <> "_hash_hps_as_dict"%string ->
            dict_get name (dict_update (fresh_self hash_len verbose all_hps hash') all_hps)
            = dict_get name (dict_update (fresh_self hash_len verbose all_hps hash_hps)
                               all_hps)).
  { intros name Hne. apply update_get_congr. now apply fresh_self_get. }
  split; [intros name Hne; unfold getattr; now rewrite Hattr |].
  split.
  - destruct (dict_mem "_hash_hps_as_dict" all_hps) eqn:Emem.
    + apply get_hash_ext. intros n _.
      destruct (String.eqb n "_hash_hps_as_dict") eqn:En.
      * apply String.eqb_eq in En. subst n. now apply update_get_mem.
      * apply Hattr. now apply String.eqb_neq.
    + apply (get_hash_same_digest _ _ hash' hash_hps).
      * intros n _ Hne. now apply Hattr.
      * now rewrite update_get_other.
      * now rewrite update_get_other.
      * unfold _generate_hash. f_equal.
        apply (same_content_str_val (VDict hash') (VDict hash_hps)).
        -- assert (Hsame : forall key, dict_get key hash' = dict_get key hash_hps).
           { intros key. apply option_ext. intros val'.
             rewrite (parse_loop_hashed _ _ _ _ _ _ _ Hp' Hnd' (fun _ _ => eq_refl)
                        key val').
             rewrite (parse_loop_hashed _ _ _ _ _ _ _ Hp Hnd (fun _ _ => eq_refl)
                        key val').
             now rewrite (dict_get_perm key _ _ Hnd Hperm). }
           apply sc_dict.
           ++ intros k. now rewrite Hsame.
           ++ intros k v1 v2 Hv1 Hv2. rewrite Hsame in Hv1.
              assert (E12 : v1 = v2) by congruence. rewrite E12. apply sc_refl.
        -- apply (parse_loop_wf _ _ _ _ _ _ _ _ (wf_dict_perm _ _ Hwf Hperm)
                    wf_dict_nil Hp').
        -- apply (parse_loop_wf _ _ _ _ _ _ _ _ Hwf wf_dict_nil Hp).
  - apply get_hash_all_hps_ext. intros n Hn. apply Hattr.
    simpl in Hn. repeat (destruct Hn as [<- | Hn]; [discriminate |]). contradiction.
Qed.

Lemma override_order_irrelevant_witness :
  exists self self',
    fst (__init__ (Some 0%nat) (Some 1%nat) (Some 2%nat) 10 false two_overrides_heap)
    = Ok self /\
    fst (__init__ (Some 0%nat) (Some 1%nat) (Some 2%nat) 10 false
           (store two_overrides_heap 0%nat
              [("lr"%string, VInt 2); ("depth"%string, VInt 5)]))
    = Ok self' /\
    get_hash self' = get_hash self /\
    get_hash_all_hps self' = get_hash_all_hps self.
Proof.
  eexists.
  destruct (override_order_irrelevant 0%nat 1%nat 2%nat 10 false two_overrides_heap
              [("lr"%string, VInt 2); ("depth"%string, VInt 5)] _
              ltac:(discriminate) ltac:(discriminate)
              ltac:(apply wf_value_b_sound; reflexivity)
              (perm_swap _ _ [])
              eq_refl)
    as [self' [H1 [_ [H2 H3]]]].
  exists self'. split; [reflexivity |]. split; [exact H1 |]. split; assumption.
Defined.

(* ===================================================================== *)
(** * Writing a key and reading its path *)
(* ===================================================================== *)

Lemma get_path_leaf_path (p : list string) (v : value) :
  get_path p (leaf_path p v) = Some v.
Proof.
  induction p as [| seg p IH]; simpl; [reflexivity |].
  now rewrite String.eqb_refl.
Qed.

Lemma add_path_lookup (p : list string) (D D' val : value) :
  p <> [] -> add_path D p val = Ok D' -> get_path p D' = Some val.
Proof.
  revert D D'. induction p as [| seg p IH]; intros D D' Hp H; [contradiction |].
  destruct p as [| seg' p].
  - simpl in H. destruct D; try discriminate. inversion H. simpl.
    now rewrite dict_get_set_eq.
  - rewrite add_path_eq in H.
    destruct (py_in seg D) as [present | e]; [| discriminate]. cbn [bind] in H.
    destruct present.
    + destruct (getitem D seg) as [old | e]; [| discriminate]. cbn [bind] in H.
      destruct (add_path old (seg' :: p) val) as [sub | e] eqn:Es; [| discriminate].
      cbn [bind] in H. destruct D; try discriminate. inversion H.
      rewrite get_path_cons, dict_get_set_eq.
      apply (IH old sub); [discriminate | exact Es].
    + destruct D; try discriminate. inversion H.
      rewrite get_path_cons, dict_get_set_eq.
      apply (get_path_leaf_path (seg' :: p)).
Qed.

(** Insert and look up.  Whenever [add_helper(D, key, val)] returns, the
    dictionary it returns holds [val] at the end of the path that the
    segments of [key] spell. *)
Theorem add_helper_insert_lookup (D D' : value) (key : string) (val : value) :
  outcome (add_helper D key val) = Ok D' ->
  get_path (split_colon key) D' = Some val.
Proof.
  rewrite add_helper_path. apply add_path_lookup.
  destruct (split_colon_cons key) as [seg [segs ->]]. discriminate.
Qed.

Lemma add_helper_insert_lookup_witness :
  get_path ["a"; "b"; "c"]%string
    (VDict [("a"%string, VDict [("e"%string, VInt 3);
                                ("b"%string, VDict [("c"%string, VInt 1)])])])
  = Some (VInt 1).
Proof.
  apply (add_helper_insert_lookup
           (VDict [("a"%string, VDict [("e"%string, VInt 3)])])
           _ "a:b:c" (VInt 1) eq_refl).
Defined.

(* ===================================================================== *)
(** * Keys whose paths run through a scalar *)
(* ===================================================================== *)

Lemma add_path_scalar (p : list string) (leaf val : value) :
  is_scalar leaf = true -> p <> [] -> add_path leaf p val = Raise TypeError.
Proof.
  intros Hs Hp. destruct p as [| seg [| seg' p]]; [contradiction | |].
  - destruct leaf; try discriminate; reflexivity.
  - rewrite add_path_eq. destruct leaf; try discriminate; try reflexivity.
    simpl. now destruct (String.index 0 seg s).
Qed.

Lemma add_path_through_scalar (q r : list string) (D leaf val : value) :
  get_path q D = Some leaf -> is_scalar leaf = true -> r <> [] ->
  add_path D (q ++ r) val = Raise TypeError.
Proof.
  intros Hg Hs Hr. revert D Hg.
  induction q as [| seg q IH]; intros D Hg.
  - inversion Hg. subst. now apply add_path_scalar.
  - destruct D as [| | | | | d]; try discriminate.
    rewrite get_path_cons in Hg.
    destruct (dict_get seg d) as [sub |] eqn:Ed; [| discriminate].
    destruct (q ++ r) as [| seg' p] eqn:Eq.
    + destruct q; [now destruct r | discriminate].
    + cbn [app]. rewrite Eq, add_path_eq. cbn [py_in bind]. unfold dict_mem.
      rewrite Ed. cbn [getitem]. rewrite Ed. cbn [bind].
      rewrite (IH sub Hg). reflexivity.
Qed.

(** A key whose path runs through a scalar.  When the dictionary holds
    [None], a [bool], an [int] or a [str] at the end of a path, adding a
    key whose path goes on beyond that path raises a [TypeError]. *)
Theorem add_helper_through_scalar (D : value) (key : string) (val leaf : value)
    (q r : list string) :
  split_colon key = q ++ r -> r <> [] ->
  get_path q D = Some leaf -> is_scalar leaf = true ->
  outcome (add_helper D key val) = Raise TypeError.
Proof.
  intros Hk Hr Hg Hs. rewrite add_helper_path, Hk.
  now apply (add_path_through_scalar q r D leaf).
Qed.

Lemma add_helper_through_scalar_witness :
  outcome (add_helper (VDict [("a"%string, VDict [("b"%string, VStr "x")])])
             "a:b:c" (VInt 1))
  = Raise TypeError.
Proof.
  apply (add_helper_through_scalar _ "a:b:c" (VInt 1) (VStr "x")
           ["a"; "b"]%string ["c"%string]);
    [reflexivity | discriminate | reflexivity | reflexivity].
Defined.

(* ===================================================================== *)
(** * The leaves of a reconstructed dictionary *)
(* ===================================================================== *)

Lemma view_leaf (o : option value) (v : value) :
  view o = Leaf v <-> o = Some v /\ is_leaf v = true.
Proof.
  split.
  - destruct o as [[| b | n | s | a | d] |]; simpl; intros H; inversion H;
      now split.
  - intros [-> Hl]. now destruct v.
Qed.

Lemma get_path_of_leaf (r : list string) (val : value) :
  is_leaf val = true ->
  view (get_path r val) = match r with [] => Leaf val | _ :: _ => Nothing end.
Proof.
  intros Hl. destruct r; destruct val; try discriminate; reflexivity.
Qed.

Lemma path_rel_refl (p : list string) : path_rel p p = Below [].
Proof. apply path_rel_below. now rewrite app_nil_r. Qed.

(** The leaves seen after independent keys with values that are not
    dictionaries have been written: the values of the keys, each at the
    end of the path of its key. *)
Lemma expected_leaf (done : pydict) (q : list string) (v : value) :
  independent_keys (dict_keys done) ->
  (forall k w, In (k, w) done -> is_leaf w = true) ->
  (expected empty_view done q = Leaf v <->
   exists k, In (k, v) done /\ split_colon k = q).
Proof.
  induction done as [| [key val] done IH]; intros Hind Hleaf.
  - simpl. split; [destruct q; discriminate | intros [k [[] _]]].
  - assert (Hval : is_leaf val = true) by (apply (Hleaf key); now left).
    assert (Hleaf' : forall k w, In (k, w) done -> is_leaf w = true)
      by (intros k w Hin; apply (Hleaf k); now right).
    pose proof (independent_keys_tail _ _ Hind) as Hind'.
    destruct Hind as [Hnd Hpre]. simpl in Hnd.
    inversion Hnd as [| x l Hnotin Hnd']. subst.
    assert (Hother : forall k w, In (k, w) done ->
              k <> key /\ In k (dict_keys ((key, val) :: done))).
    { intros k w Hin. assert (Hk : In k (dict_keys done)).
      { unfold dict_keys. apply in_map_iff. now exists (k, w). }
      split; [intros ->; contradiction | now right]. }
    assert (Hkey : In key (dict_keys ((key, val) :: done))) by now left.
    cbn [expected].
    destruct (path_rel (split_colon key) q) as [r | r |] eqn:Er.
    + apply path_rel_below in Er. rewrite (get_path_of_leaf r val Hval).
      split.
      * destruct r as [| s r]; [| discriminate]. intros H. inversion H. subst v.
        exists key. split; [now left | now rewrite Er, app_nil_r].
      * intros [k [[Hin | Hin] Hk]].
        -- inversion Hin. subst k v.
           destruct r as [| s r]; [reflexivity |].
           rewrite Er in Hk. apply (f_equal (@List.length string)) in Hk.
           rewrite length_app in Hk. simpl in Hk. lia.
        -- destruct (Hother k v Hin) as [Hne Hk'].
           exfalso. apply (Hpre key k Hkey Hk'); [congruence |].
           exists r. now rewrite Hk.
    + apply path_rel_above in Er. destruct Er as [Er Hr].
      split; [discriminate |].
      intros [k [[Hin | Hin] Hk]].
      * inversion Hin. subst k v. rewrite Hk in Er.
        apply (f_equal (@List.length string)) in Er.
        rewrite length_app in Er. destruct r; [contradiction | simpl in Er; lia].
      * destruct (Hother k v Hin) as [Hne Hk'].
        exfalso. apply (Hpre k key Hk' Hkey Hne).
        exists r. now rewrite Hk.
    + rewrite (IH Hind' Hleaf'). split.
      * intros [k [Hin Hk]]. exists k. split; [now right | exact Hk].
      * intros [k [[Hin | Hin] Hk]].
        -- inversion Hin. subst k v. rewrite Hk, path_rel_refl in Er. discriminate.
        -- now exists k.
Qed.

Lemma independent_keys_rev (D_flat : pydict) :
  independent_keys (dict_keys D_flat) -> independent_keys (dict_keys (rev D_flat)).
Proof.
  apply independent_keys_perm. unfold dict_keys. apply Permutation_map.
  apply Permutation_rev.
Qed.

(** What [reconstruct_helper] returns for independent keys with values
    that are not dictionaries.  The call returns; every item of the flat
    dictionary is found in the result at the end of the path of its key;
    and the result has no other leaf. *)
Theorem reconstruct_lookup (D_flat : pydict) :
  independent_keys (dict_keys D_flat) ->
  (forall k w, In (k, w) D_flat -> is_leaf w = true) ->
  exists D,
    outcome (reconstruct_helper D_flat) = Ok D /\
    (forall k v, In (k, v) D_flat -> get_path (split_colon k) D = Some v) /\
    (forall q v, get_path q D = Some v -> is_leaf v = true ->
                 exists k, In (k, v) D_flat /\ split_colon k = q).
Proof.
  intros Hind Hleaf.
  destruct (reconstruct_view D_flat Hind) as [D [HD Hview]].
  assert (Hleaf' : forall k w, In (k, w) (rev D_flat) -> is_leaf w = true)
    by (intros k w Hin; apply (Hleaf k); now apply in_rev).
  pose proof (independent_keys_rev _ Hind) as Hind'.
  exists D. split; [exact HD |]. split.
  - intros k v Hin.
    assert (H : view (get_path (split_colon k) D) = Leaf v).
    { rewrite Hview. apply (expected_leaf _ _ _ Hind' Hleaf').
      exists k. split; [now apply in_rev in Hin | reflexivity]. }
    apply view_leaf in H. tauto.
  - intros q v Hg Hl.
    assert (H : view (get_path q D) = Leaf v) by (apply view_leaf; now split).
    rewrite Hview in H. apply (expected_leaf _ _ _ Hind' Hleaf') in H.
    destruct H as [k [Hin Hk]]. exists k. split; [now apply in_rev | exact Hk].
Qed.

Lemma reconstruct_lookup_witness :
  exists D,
    outcome (reconstruct_helper flat_example) = Ok D /\
    get_path ["a"; "b"; "d"]%string D = Some (VInt 2) /\
    get_path ["a"; "e"]%string D = Some (VInt 3).
Proof.
  destruct (reconstruct_lookup flat_example) as [D [HD [Hin _]]].
  - apply independent_keys_b_sound. reflexivity.
  - intros k w Hin. simpl in Hin.
    repeat (destruct Hin as [Hin | Hin]; [inversion Hin; reflexivity |]).
    contradiction.
  - exists D. split; [exact HD |]. split.
    + apply (Hin "a:b:d"%string). simpl. tauto.
    + apply (Hin "a:e"%string). simpl. tauto.
Defined.

(* ===================================================================== *)
(** * [parse_helper] as a traversal of the leaves *)
(* ===================================================================== *)

Lemma cbind_returns {A : Type} (r : cli A) : cbind r Returns = r.
Proof. now destruct r. Qed.

Lemma register_all_app (parser : list action) (l1 l2 : list (string * value)) :
  register_all parser (l1 ++ l2)
  = (parser' <-- register_all parser l1 ;; register_all parser' l2).
Proof.
  revert parser. induction l1 as [| leaf l1 IH]; intros parser; [reflexivity |].
  simpl. destruct (register parser leaf) as [p' | e]; simpl; [apply IH | reflexivity].
Qed.

Lemma leaves_val_dict (name : string) (d : pydict) :
  leaves_val name (VDict d) = leaves (String.append name ":") d.
Proof. reflexivity. Qed.

(** The recursion of [parse_helper] visits the leaves in order and
    registers each one under its name, up to the first leaf at which it,
    or [add_argument], raises. *)
Lemma parse_item_leaves (val : value) :
  forall str_prefix key parser,
    parse_item str_prefix key val parser
    = register_all parser (leaves_val (String.append str_prefix key) val).
Proof.
  induction val as [| b | n | s | a | d IH] using value_nested_ind;
    intros str_prefix key parser;
    try (simpl; unfold register; simpl; now rewrite cbind_returns).
  - simpl. unfold register. simpl.
    destruct (String.eqb s "None"); simpl; now rewrite cbind_returns.
  - reflexivity.
  - rewrite leaves_val_dict. cbn [parse_item truth_eq scalar_eq lift cbind].
    revert parser. induction d as [| [k v] d IHd]; intros parser; [reflexivity |].
    inversion IH as [| x l Hv Hd]. subst. cbn [snd] in Hv.
    cbn [for_items]. unfold leaves. cbn [flat_map fst snd].
    rewrite register_all_app. rewrite (Hv _ k parser).
    destruct (register_all parser
                (leaves_val (String.append (String.append (String.append str_prefix key) ":") k) v))
      as [p' | e]; simpl; [| reflexivity].
    apply (IHd Hd).
Qed.

Lemma parse_helper_leaves (D : pydict) (str_prefix : string) (parser : list action) :
  parse_helper D str_prefix parser = register_all parser (leaves str_prefix D).
Proof.
  unfold parse_helper, leaves. revert parser.
  induction D as [| [k v] D IH]; intros parser; [reflexivity |].
  cbn [for_items flat_map fst snd]. rewrite register_all_app, parse_item_leaves.
  destruct (register_all parser (leaves_val (String.append str_prefix k) v));
    simpl; [apply IH | reflexivity].
Qed.

Lemma register_all_raises (ls : list (string * value)) (leaf : string * value) :
  In leaf ls ->
  (forall parser, exists e, register parser leaf = Raises e) ->
  forall parser, exists e, register_all parser ls = Raises e.
Proof.
  intros Hin Hr. induction ls as [| l ls IH]; intros parser; [contradiction |].
  simpl. destruct Hin as [-> | Hin].
  - destruct (Hr parser) as [e ->]. now exists e.
  - destruct (register parser l) as [p' | e]; simpl; [now apply IH | now exists e].
Qed.

Lemma no_array_dict (d : pydict) :
  no_array (VDict d) = forallb (fun kv => no_array (snd kv)) d.
Proof.
  induction d as [| [k v] d IH]; [reflexivity |].
  simpl in *. now rewrite IH.
Qed.

Lemma array_leaf (val : value) :
  no_array val = false ->
  forall name, exists name' a, In (name', VArr a) (leaves_val name val).
Proof.
  induction val as [| b | n | s | a | d IH] using value_nested_ind;
    intros Ha name; try discriminate.
  - exists name, a. now left.
  - rewrite no_array_dict in Ha. rewrite leaves_val_dict. unfold leaves.
    induction d as [| [k v] d IHd]; [discriminate |].
    inversion IH as [| x l Hv Hd]. subst. cbn [snd] in Hv.
    simpl in Ha. cbn [flat_map fst snd].
    destruct (no_array v) eqn:Ev.
    + destruct (IHd Hd Ha) as [name' [a Hin]].
      exists name', a. apply in_or_app. now right.
    + destruct (Hv eq_refl (String.append (String.append name ":") k))
        as [name' [a Hin]].
      exists name', a. apply in_or_app. now left.
Qed.

(** A default of a kind that is not supported, at any depth.  When the
    defaults hold a NumPy array, in a nested dictionary or not,
    [parse_command_line] does not return: it raises, and it does so
    before the command line is read, with no debugger stop. *)
Theorem parse_command_line_rejects_arrays (default_hps : pydict) :
  no_array (VDict default_hps) = false ->
  exists e, parse_command_line default_hps = (O, Raises e).
Proof.
  intros Ha. unfold parse_command_line. rewrite parse_helper_leaves.
  assert (Hleaf : exists name a, In (name, VArr a) (leaves "" default_hps)).
  { rewrite no_array_dict in Ha. unfold leaves.
    induction default_hps as [| [k v] D IH]; [discriminate |].
    simpl in Ha. cbn [flat_map fst snd].
    destruct (no_array v) eqn:Ev.
    - destruct (IH Ha) as [name [a Hin]]. exists name, a.
      apply in_or_app. now right.
    - destruct (array_leaf v Ev (String.append "" k)) as [name [a Hin]].
      exists name, a. apply in_or_app. now left. }
  destruct Hleaf as [name [a Hin]].
  destruct (register_all_raises _ _ Hin
              (fun p => ex_intro _ (Exn (ArgumentTypeError msg_unsupported)) eq_refl) [])
    as [e ->].
  now exists e.
Qed.

Lemma parse_command_line_rejects_arrays_witness :
  exists e,
    parse_command_line
      [("n"%string, VInt 1);
       ("sub"%string, VDict [("w"%string, VArr [1; 2])])]
    = (O, Raises e).
Proof.
  apply parse_command_line_rejects_arrays. reflexivity.
Defined.

(* ===================================================================== *)
(** * The defaults, from an empty command line *)
(* ===================================================================== *)

Lemma has_dash_append (a b : string) :
  has_dash (String.append a b) = has_dash a || has_dash b.
Proof.
  induction a as [| c a IH]; simpl; [reflexivity |].
  now rewrite IH, orb_assoc.
Qed.

Lemma has_colon_append (a b : string) :
  has_colon (String.append a b) = has_colon a || has_colon b.
Proof.
  unfold has_colon. induction a as [| c a IH]; simpl; [reflexivity |].
  destruct (Ascii.eqb c ":"); [reflexivity |].
  destruct (find_colon (String.append a b)), (find_colon a); simpl in *;
    try reflexivity; try discriminate; exact IH.
Qed.

Lemma replace_dash_id (s : string) : has_dash s = false -> replace_dash s = s.
Proof.
  induction s as [| c s IH]; simpl; [reflexivity |].
  destruct (Ascii.eqb c "-"); [discriminate |]. intros H. now rewrite IH.
Qed.

Lemma lstrip_dash_id (s : string) : has_dash s = false -> lstrip_dash s = s.
Proof.
  destruct s as [| c s]; simpl; [reflexivity |].
  now destruct (Ascii.eqb c "-").
Qed.

Lemma split_colon_append (a b : string) :
  split_colon (String.append a (String ":" b)) = split_colon a ++ split_colon b.
Proof.
  induction a as [| c a IH]; simpl.
  - reflexivity.
  - destruct (Ascii.eqb c ":"); [now rewrite IH |].
    rewrite IH. destruct (split_colon_cons a) as [seg [segs ->]]. reflexivity.
Qed.

Lemma option_strings_app (parser : list action) (a : action) :
  option_strings (parser ++ [a])
  = option_strings parser ++ match option_string a with Some s => [s] | None => [] end.
Proof.
  unfold option_strings. rewrite flat_map_app. simpl. now rewrite app_nil_r.
Qed.

(** Registering a name without a dash that is not empty and not taken. *)
Lemma add_argument_ok (parser : list action) (name : string) (arg : argument) :
  name <> EmptyString -> has_dash name = false ->
  ~ In (String.append "--" name) (option_strings parser) ->
  add_argument parser (String.append "--" name) arg
  = Returns (parser ++ [{| option_string := Some (String.append "--" name);
                           dest := name;
                           default := default_of arg;
                           required := false |}]).
Proof.
  intros Hne Hd Hfree. unfold add_argument. cbn [String.append Ascii.eqb].
  change (Ascii.eqb "-" "-") with true. cbn [lstrip_dash].
  change (Ascii.eqb "-" "-") with true. cbv iota.
  rewrite (lstrip_dash_id name Hd).
  destruct name as [| c name]; [contradiction |].
  apply str_in_not_In in Hfree. cbn [String.append] in Hfree. rewrite Hfree.
  now rewrite (replace_dash_id _ Hd).
Qed.

Lemma default_of_argument (val : value) :
  is_scalar val = true -> default_of (argument_of val) = override_value val.
Proof.
  destruct val as [| b | n | s | a | d]; try discriminate; try reflexivity.
  intros _. destruct (is_none_override (VStr s)) as [c [Hc Ec]].
  rewrite <- Ec. simpl in Hc. inversion Hc. cbn [argument_of].
  now destruct (String.eqb s "None").
Qed.

Lemma register_ok (parser : list action) (leaf : string * value) :
  is_scalar (snd leaf) = true ->
  fst leaf <> EmptyString -> has_dash (fst leaf) = false ->
  ~ In (String.append "--" (fst leaf)) (option_strings parser) ->
  register parser leaf = Returns (parser ++ [action_of leaf]).
Proof.
  intros Hs Hne Hd Hfree. unfold register, action_of.
  rewrite <- (default_of_argument _ Hs).
  destruct (snd leaf); try discriminate; now apply add_argument_ok.
Qed.

Lemma append_inj_l (a b c : string) : String.append a b = String.append a c -> b = c.
Proof.
  induction a as [| x a IH]; simpl; [tauto |]. intros H. inversion H. now apply IH.
Qed.

Lemma register_all_ok (ls : list (string * value)) :
  forall parser,
    Forall (fun leaf => is_scalar (snd leaf) = true /\ fst leaf <> EmptyString /\
                        has_dash (fst leaf) = false) ls ->
    NoDup (map fst ls) ->
    (forall leaf, In leaf ls ->
                  ~ In (String.append "--" (fst leaf)) (option_strings parser)) ->
    register_all parser ls = Returns (parser ++ map action_of ls).
Proof.
  induction ls as [| leaf ls IH]; intros parser Hgood Hnd Hfree.
  - simpl. now rewrite app_nil_r.
  - inversion Hgood as [| x l [Hs [Hne Hd]] Hgood']. subst.
    simpl in Hnd. inversion Hnd as [| x l Hnotin Hnd']. subst.
    cbn [register_all map].
    rewrite register_ok; try assumption; [| apply Hfree; now left].
    cbn [cbind]. rewrite (IH _ Hgood' Hnd').
    + now rewrite <- app_assoc.
    + intros leaf' Hin. rewrite option_strings_app. cbn [action_of option_string].
      intros Hin'. apply in_app_or in Hin'. destruct Hin' as [Hin' | [E | []]].
      * now apply (Hfree leaf' (or_intror Hin)).
      * apply append_inj_l in E. apply Hnotin. rewrite E.
        apply in_map_iff. now exists leaf'.
Qed.

Lemma dict_set_absent (k : string) (v : value) (d : pydict) :
  dict_mem k d = false -> dict_set k v d = d ++ [(k, v)].
Proof.
  unfold dict_mem. induction d as [| [k' v'] d IH]; simpl; [reflexivity |].
  destruct (String.eqb k k'); [discriminate |]. intros H. now rewrite IH.
Qed.

(** The namespace of an empty command line for actions with distinct
    attributes, none of them an attribute of the namespace class. *)
Lemma parse_args_ok (ls : list (string * value)) :
  NoDup (map fst ls) ->
  (forall leaf, In leaf ls -> str_in (fst leaf) namespace_class_attrs = false) ->
  parse_args (map action_of ls)
  = Returns (map (fun leaf => (fst leaf, override_value (snd leaf))) ls).
Proof.
  intros Hnd Hattr. unfold parse_args.
  assert (Hreq : existsb required (map action_of ls) = false).
  { clear. induction ls as [| l ls IH]; [reflexivity | exact IH]. }
  rewrite Hreq. clear Hreq. f_equal.
  assert (H : forall namespace,
             (forall leaf, In leaf ls -> dict_mem (fst leaf) namespace = false) ->
             fold_left set_default (map action_of ls) namespace
             = namespace ++ map (fun leaf => (fst leaf, override_value (snd leaf))) ls).
  { induction ls as [| leaf ls IH]; intros namespace Hfresh.
    - simpl. now rewrite app_nil_r.
    - simpl in Hnd. inversion Hnd as [| x l Hnotin Hnd']. subst.
      cbn [map fold_left]. unfold set_default at 2, hasattr.
      cbn [action_of dest default].
      rewrite (Hfresh leaf) by now left. rewrite (Hattr leaf) by now left.
      cbn [orb]. rewrite dict_set_absent by (apply Hfresh; now left).
      rewrite IH; [now rewrite <- app_assoc | exact Hnd' | |].
      + intros l Hin. apply Hattr. now right.
      + intros l Hin. unfold dict_mem. rewrite <- dict_set_absent
          by (apply Hfresh; now left).
        rewrite dict_get_set_ne; [apply (Hfresh l); now right |].
        intros E. apply Hnotin. rewrite E. apply in_map_iff. now exists l. }
  apply (H []). reflexivity.
Qed.

Lemma leaves_val_good (val : value) :
  plain_keys val = true -> no_array val = true ->
  forall name,
    has_dash name = false ->
    Forall (fun leaf => is_scalar (snd leaf) = true /\ has_dash (fst leaf) = false /\
                        (fst leaf = name \/ has_colon (fst leaf) = true))
           (leaves_val name val).
Proof.
  induction val as [| b | n | s | a | d IH] using value_nested_ind;
    intros Hk Ha name Hd; try discriminate;
    try (constructor; [now repeat split; auto | constructor]).
  rewrite no_array_dict in Ha. cbn [plain_keys] in Hk. cbn [leaves_val].
  induction d as [| [k v] d IHd]; [constructor |].
  inversion IH as [| x l Hv Hl]. subst. cbn [snd] in Hv.
  simpl in Ha, Hk. apply andb_true_iff in Ha. destruct Ha as [Hav Had].
  apply andb_true_iff in Hk. destruct Hk as [Hkv Hkd].
  apply andb_true_iff in Hkv. destruct Hkv as [Hkk Hkv].
  apply andb_true_iff in Hkk. destruct Hkk as [Hc Hdash].
  apply negb_true_iff in Hdash.
  cbn [flat_map fst snd]. apply Forall_app. split; [| now apply IHd].
  assert (Hname : has_dash (String.append (String.append name ":") k) = false).
  { rewrite !has_dash_append, Hd, Hdash. reflexivity. }
  assert (Hcol : has_colon (String.append (String.append name ":") k) = true).
  { rewrite !has_colon_append. cbn. now rewrite orb_true_r. }
  eapply Forall_impl; [| apply (Hv Hkv Hav _ Hname)].
  intros leaf [H1 [H2 H3]]. split; [exact H1 |]. split; [exact H2 |].
  right. destruct H3 as [-> | H3]; assumption.
Qed.

Lemma split_colon_name (name k : string) :
  has_colon k = false ->
  split_colon (String.append (String.append name ":") k) = split_colon name ++ [k].
Proof.
  intros Hk. rewrite append_assoc. cbn [String.append].
  now rewrite split_colon_append, (has_colon_false k Hk).
Qed.

(** The names of the leaves spell their paths. *)
Lemma leaves_val_paths (val : value) :
  plain_keys val = true ->
  forall name,
    map (fun leaf => (split_colon (fst leaf), override_value (snd leaf)))
        (leaves_val name val)
    = map (fun pw => (split_colon name ++ fst pw, snd pw)) (rel_paths val).
Proof.
  induction val as [| b | n | s | a | d IH] using value_nested_ind;
    intros Hk name; try (cbn; now rewrite app_nil_r).
  cbn [plain_keys] in Hk. cbn [leaves_val rel_paths].
  induction d as [| [k v] d IHd]; [reflexivity |].
  inversion IH as [| x l Hv Hl]. subst. cbn [snd] in Hv.
  simpl in Hk. apply andb_true_iff in Hk. destruct Hk as [Hkv Hkd].
  apply andb_true_iff in Hkv. destruct Hkv as [Hkk Hkv].
  apply andb_true_iff in Hkk. destruct Hkk as [Hc _]. apply negb_true_iff in Hc.
  cbn [flat_map fst snd]. rewrite !map_app, (IHd Hl Hkd). f_equal.
  rewrite (Hv Hkv), map_map, (split_colon_name name k Hc).
  apply map_ext. intros pw. cbn [fst snd]. now rewrite <- app_assoc.
Qed.

Lemma leaves_paths (D : pydict) :
  plain_keys (VDict D) = true ->
  map (fun leaf => (split_colon (fst leaf), override_value (snd leaf))) (leaves "" D)
  = rel_paths (VDict D).
Proof.
  cbn [plain_keys rel_paths]. unfold leaves.
  induction D as [| [k v] D IH]; intros Hk; [reflexivity |].
  simpl in Hk. apply andb_true_iff in Hk. destruct Hk as [Hkv Hkd].
  apply andb_true_iff in Hkv. destruct Hkv as [Hkk Hkv].
  apply andb_true_iff in Hkk. destruct Hkk as [Hc _]. apply negb_true_iff in Hc.
  cbn [flat_map fst snd]. rewrite !map_app, (IH Hkd). f_equal.
  change (String.append "" k) with k.
  rewrite (leaves_val_paths v Hkv), (has_colon_false k Hc). reflexivity.
Qed.

Lemma rel_paths_head (d : pydict) (p : list string) :
  In p (map fst (rel_paths (VDict d))) ->
  exists k q, p = k :: q /\ In k (dict_keys d).
Proof.
  cbn [rel_paths]. induction d as [| [k v] d IH]; [contradiction |].
  cbn [flat_map fst snd]. rewrite map_app, map_map. cbn [fst]. intros Hin.
  apply in_app_or in Hin. destruct Hin as [Hin | Hin].
  - apply in_map_iff in Hin. destruct Hin as [pw [<- _]].
    exists k, (fst pw). split; [reflexivity | now left].
  - destruct (IH Hin) as [k' [q [-> Hk]]]. exists k', q. split; [reflexivity | now right].
Qed.

Lemma rel_paths_nodup (val : value) : wf_value val -> NoDup (map fst (rel_paths val)).
Proof.
  induction val as [| b | n | s | a | d IH] using value_nested_ind; intros Hw;
    try (repeat constructor; simpl; tauto).
  change (wf_dict d) in Hw.
  induction d as [| [k v] d IHd]; [constructor |].
  inversion IH as [| x l Hv Hl]. subst. cbn [snd] in Hv.
  apply wf_dict_cons in Hw. destruct Hw as [Hk [Hwv Hwd]].
  change (rel_paths (VDict ((k, v) :: d)))
    with (map (fun pw => (k :: fst pw, snd pw)) (rel_paths v) ++ rel_paths (VDict d)).
  rewrite map_app, map_map. cbn [fst].
  apply NoDup_app.
  - specialize (Hv Hwv). clear - Hv.
    induction (rel_paths v) as [| pw l IHl]; [constructor |].
    simpl in *. inversion Hv as [| x y Hx Hn]. subst. constructor; [| now apply IHl].
    intros Hin. apply in_map_iff in Hin. destruct Hin as [pw' [E Hin]].
    inversion E as [E']. apply Hx. rewrite <- E'. now apply in_map.
  - now apply IHd.
  - intros p Hin Hin'. apply in_map_iff in Hin. destruct Hin as [pw [<- _]].
    destruct (rel_paths_head d _ Hin') as [k' [q [E Hk']]].
    inversion E. subst k'. contradiction.
Qed.

Lemma rel_paths_nonempty (d : pydict) :
  Forall (fun pw => fst pw <> []) (rel_paths (VDict d)).
Proof.
  apply Forall_forall. intros pw Hin.
  destruct (rel_paths_head d (fst pw) (in_map fst _ _ Hin)) as [k [q [-> _]]].
  discriminate.
Qed.

Lemma parsed_none_iff (val : value) : parsed_value val = None <-> rel_paths val = [].
Proof.
  induction val as [| b | n | s | a | d IH] using value_nested_ind;
    try (split; discriminate).
  cbn [parsed_value rel_paths].
  assert (H : keep parsed_value d = [] <->
              flat_map (fun kv => map (fun pw => (fst kv :: fst pw, snd pw))
                                      (rel_paths (snd kv))) d = []).
  { induction d as [| [k v] d IHd]; [tauto |].
    inversion IH as [| x l Hv Hl]. subst. cbn [snd] in Hv.
    cbn [keep flat_map fst snd].
    destruct (parsed_value v) as [v' |] eqn:Ev.
    - split; [discriminate |]. intros E. apply app_eq_nil in E.
      destruct E as [E _]. apply map_eq_nil in E.
      apply Hv in E. discriminate.
    - rewrite (proj1 Hv eq_refl). simpl. now apply IHd. }
  destruct (keep parsed_value d) as [| kv l]; split; intros E;
    try reflexivity; try discriminate.
  - now apply H.
  - apply H in E. discriminate.
Qed.

Lemma add_all_app (D : value) (l1 l2 : list (list string * value)) :
  add_all D (l1 ++ l2) = (D' <- add_all D l1 ;; add_all D' l2).
Proof.
  revert D. induction l1 as [| pw l1 IH]; intros D; [reflexivity |].
  simpl. destruct (add_path D (fst pw) (snd pw)); simpl; [apply IH | reflexivity].
Qed.

Lemma add_paths_add_all (D_flat : pydict) :
  add_paths D_flat
  = add_all (VDict []) (map (fun kv => (split_colon (fst kv), snd kv)) D_flat).
Proof.
  unfold add_paths.
  assert (H : forall D,
             fold_left (fun acc kv => D <- acc ;; add_path D (split_colon (fst kv)) (snd kv))
                       D_flat (Ok D)
             = add_all D (map (fun kv => (split_colon (fst kv), snd kv)) D_flat)).
  { induction D_flat as [| kv l IH]; intros D; [reflexivity |].
    cbn [fold_left map add_all fst snd bind].
    destruct (add_path D (split_colon (fst kv)) (snd kv)) as [D' | e];
      cbn [bind]; [apply IH |].
    clear. induction l as [| kv' l IHl]; [reflexivity | exact IHl]. }
  apply H.
Qed.

Lemma dict_get_app_absent (k : string) (a b : pydict) :
  dict_mem k a = false -> dict_get k (a ++ b) = dict_get k b.
Proof.
  unfold dict_mem. induction a as [| [k' v'] a IH]; simpl; [reflexivity |].
  destruct (String.eqb k k'); [discriminate | exact IH].
Qed.

Lemma dict_set_app_absent (k : string) (v : value) (a b : pydict) :
  dict_mem k a = false -> dict_set k v (a ++ b) = a ++ dict_set k v b.
Proof.
  unfold dict_mem. induction a as [| [k' v'] a IH]; simpl; [reflexivity |].
  destruct (String.eqb k k'); [discriminate |]. intros H. now rewrite IH.
Qed.

Lemma add_path_empty (p : list string) (w : value) :
  p <> [] -> add_path (VDict []) p w = Ok (leaf_path p w).
Proof.
  destruct p as [| s [| s' p]]; [contradiction | reflexivity | reflexivity].
Qed.

(** Adding below a key that is there: the paths are added to the
    dictionary under the key. *)
Lemma add_all_under (k : string) (a : pydict) (ls : list (list string * value)) :
  dict_mem k a = false ->
  Forall (fun pw => fst pw <> []) ls ->
  forall X X',
    add_all X ls = Ok X' ->
    add_all (VDict (a ++ [(k, X)])) (map (fun pw => (k :: fst pw, snd pw)) ls)
    = Ok (VDict (a ++ [(k, X')])).
Proof.
  intros Hk Hne. induction ls as [| [q w] ls IH]; intros X X' H.
  - inversion H. reflexivity.
  - inversion Hne as [| x l Hq Hne']. subst. cbn [fst] in Hq.
    cbn [add_all fst snd] in H.
    destruct (add_path X q w) as [X1 |] eqn:E1; [| discriminate]. cbn [bind] in H.
    cbn [map add_all fst snd].
    destruct q as [| s q]; [contradiction |].
    rewrite add_path_eq. cbn [py_in bind]. unfold dict_mem at 1.
    rewrite (dict_get_app_absent k a _ Hk). cbn [dict_get].
    rewrite String.eqb_refl. cbn [getitem].
    rewrite (dict_get_app_absent k a _ Hk). cbn [dict_get].
    rewrite String.eqb_refl. cbn [bind]. rewrite E1. cbn [bind setitem].
    rewrite (dict_set_app_absent k X1 a _ Hk). cbn [dict_set].
    rewrite String.eqb_refl. apply (IH Hne' X1 X' H).
Qed.

Lemma dict_mem_app (k : string) (a b : pydict) :
  dict_mem k (a ++ b) = dict_mem k a || dict_mem k b.
Proof.
  unfold dict_mem. induction a as [| [k' v'] a IH]; simpl; [reflexivity |].
  destruct (String.eqb k k'); [reflexivity | exact IH].
Qed.

(** Adding the leaves of a dictionary to a dictionary that has none of
    its keys appends what comes back for the dictionary. *)
Lemma add_all_rel_paths (val : value) :
  wf_value val ->
  forall d, val = VDict d ->
  forall a, (forall k, In k (dict_keys d) -> dict_mem k a = false) ->
  add_all (VDict a) (rel_paths (VDict d)) = Ok (VDict (a ++ parsed_dict d)).
Proof.
  induction val as [| b | n | s | x | d0 IH] using value_nested_ind;
    intros Hw d E; try discriminate.
  inversion E. subst d0. clear E. change (wf_dict d) in Hw.
  induction d as [| [k v] d IHd]; intros a Hfresh.
  - simpl. now rewrite app_nil_r.
  - inversion IH as [| y l Hv Hl]. subst. cbn [snd] in Hv.
    apply wf_dict_cons in Hw. destruct Hw as [Hk [Hwv Hwd]].
    change (rel_paths (VDict ((k, v) :: d)))
      with (map (fun pw => (k :: fst pw, snd pw)) (rel_paths v) ++ rel_paths (VDict d)).
    rewrite add_all_app.
    assert (Hka : dict_mem k a = false) by (apply Hfresh; now left).
    assert (Hitem : add_all (VDict a) (map (fun pw => (k :: fst pw, snd pw)) (rel_paths v))
                    = Ok (VDict (match parsed_value v with
                                 | Some v' => a ++ [(k, v')]
                                 | None => a
                                 end))).
    { destruct v as [| b | n | s | x | sub];
        try (cbn; now rewrite (dict_set_absent k _ a Hka)).
      specialize (Hv Hwv sub eq_refl [] (fun _ _ => eq_refl)).
      cbn [app] in Hv.
      destruct (rel_paths (VDict sub)) as [| [q w] ls] eqn:Er.
      - rewrite (proj2 (parsed_none_iff (VDict sub)) Er). reflexivity.
      - assert (Hne : Forall (fun pw => fst pw <> []) ((q, w) :: ls))
          by (rewrite <- Er; apply rel_paths_nonempty).
        inversion Hne as [| y l Hq Hne']. subst. cbn [fst] in Hq.
        cbn [add_all fst snd] in Hv. rewrite (add_path_empty q w Hq) in Hv.
        cbn [bind] in Hv.
        assert (Hsome : parsed_value (VDict sub) = Some (VDict (parsed_dict sub))).
        { destruct (parsed_value (VDict sub)) as [v' |] eqn:Ep.
          - cbn [parsed_value] in Ep. unfold parsed_dict.
            destruct (keep parsed_value sub); [discriminate | now symmetry].
          - apply parsed_none_iff in Ep. rewrite Er in Ep. discriminate. }
        rewrite Hsome. cbn [map add_all fst snd].
        destruct q as [| s q]; [contradiction |].
        rewrite add_path_eq. cbn [py_in bind]. rewrite Hka. cbn [setitem bind].
        rewrite (dict_set_absent k _ a Hka).
        apply (add_all_under k a ls Hka Hne' _ _ Hv). }
    rewrite Hitem. cbn [bind]. unfold parsed_dict. cbn [keep]. fold (parsed_dict d).
    destruct (parsed_value v) as [v' |].
    + rewrite (IHd Hwd Hl).
      * now rewrite <- app_assoc.
      * intros k' Hk'. rewrite dict_mem_app, (Hfresh k') by now right.
        unfold dict_mem. simpl.
        destruct (String.eqb k' k) eqn:Ekk; [| reflexivity].
        apply String.eqb_eq in Ekk. subst k'. contradiction.
    + apply (IHd Hwd Hl). intros k' Hk'. apply Hfresh. now right.
Qed.

Lemma parsed_settled (val : value) :
  settled val = true -> parsed_value val = Some val.
Proof.
  induction val as [| b | n | s | x | d IH] using value_nested_ind; intros Hs;
    try reflexivity.
  - simpl in Hs. apply negb_true_iff in Hs. cbn [parsed_value].
    destruct (is_none_override (VStr s)) as [c [Hc Ec]]. simpl in Hc.
    inversion Hc. subst c. rewrite Hs in Ec. now rewrite <- Ec.
  - cbn [settled] in Hs. apply andb_true_iff in Hs. destruct Hs as [Hlen Hall].
    assert (Hk : keep parsed_value d = d).
    { clear Hlen. induction d as [| [k v] d IHd]; [reflexivity |].
      inversion IH as [| y l Hv Hl]. subst. cbn [snd] in Hv.
      simpl in Hall. apply andb_true_iff in Hall. destruct Hall as [Hsv Hall].
      cbn [keep]. now rewrite (Hv Hsv), (IHd Hl Hall). }
    cbn [parsed_value]. rewrite Hk.
    destruct d; [discriminate | reflexivity].
Qed.

Lemma parsed_dict_settled (D : pydict) :
  settled_dict D = true -> parsed_dict D = D.
Proof.
  unfold settled_dict, parsed_dict.
  induction D as [| [k v] D IH]; intros Hs; [reflexivity |].
  simpl in Hs. apply andb_true_iff in Hs. destruct Hs as [Hv HD].
  cbn [keep]. now rewrite (parsed_settled v Hv), (IH HD).
Qed.

Lemma reserved_no_colon (name : string) :
  has_colon name = true -> str_in name reserved_names = false.
Proof.
  intros Hc. apply str_in_not_In. intros Hin.
  assert (H : has_colon name = false).
  { unfold reserved_names, namespace_class_attrs in Hin. simpl in Hin.
    repeat (destruct Hin as [<- | Hin]; [reflexivity |]). contradiction. }
  congruence.
Qed.

Lemma leaves_good (D : pydict) :
  plain_keys (VDict D) = true -> no_array (VDict D) = true ->
  (forall key, In key (dict_keys D) -> str_in key reserved_names = false) ->
  Forall (fun leaf => is_scalar (snd leaf) = true /\ has_dash (fst leaf) = false /\
                      str_in (fst leaf) reserved_names = false)
         (leaves "" D).
Proof.
  rewrite no_array_dict. cbn [plain_keys]. unfold leaves.
  induction D as [| [k v] D IH]; intros Hk Ha Hres; [constructor |].
  simpl in Ha, Hk. apply andb_true_iff in Ha. destruct Ha as [Hav Had].
  apply andb_true_iff in Hk. destruct Hk as [Hkv Hkd].
  apply andb_true_iff in Hkv. destruct Hkv as [Hkk Hkv].
  apply andb_true_iff in Hkk. destruct Hkk as [_ Hdash].
  apply negb_true_iff in Hdash.
  cbn [flat_map fst snd]. change (String.append "" k) with k.
  apply Forall_app. split.
  - eapply Forall_impl; [| apply (leaves_val_good v Hkv Hav k Hdash)].
    intros leaf [H1 [H2 H3]]. split; [exact H1 |]. split; [exact H2 |].
    destruct H3 as [-> | H3]; [apply Hres; now left | now apply reserved_no_colon].
  - apply IH; try assumption. intros key Hin. apply Hres. now right.
Qed.

Lemma leaves_nodup (D : pydict) :
  wf_dict D -> plain_keys (VDict D) = true -> NoDup (map fst (leaves "" D)).
Proof.
  intros Hw Hk. apply (NoDup_map_inv split_colon).
  pose proof (rel_paths_nodup (VDict D) Hw) as Hn.
  rewrite <- (leaves_paths D Hk), map_map in Hn. cbn [fst] in Hn.
  now rewrite map_map.
Qed.

(** Registration of the defaults: one action for every leaf, in the
    order of the traversal. *)
Lemma parse_helper_ok (D : pydict) :
  wf_dict D -> no_array (VDict D) = true -> plain_keys (VDict D) = true ->
  (forall key, In key (dict_keys D) -> str_in key reserved_names = false) ->
  parse_helper D "" [] = Returns (map action_of (leaves "" D)).
Proof.
  intros Hw Ha Hk Hres.
  pose proof (leaves_good D Hk Ha Hres) as Hgood.
  pose proof (leaves_nodup D Hw Hk) as Hnd.
  rewrite parse_helper_leaves.
  rewrite register_all_ok; [reflexivity | | exact Hnd |].
  - eapply Forall_impl; [| exact Hgood].
    intros leaf [H1 [H2 H3]]. split; [exact H1 |]. split; [| exact H2].
    intros E. rewrite E in H3. discriminate.
  - intros leaf Hin. rewrite Forall_forall in Hgood.
    destruct (Hgood leaf Hin) as [_ [_ Hr]].
    apply str_in_not_In in Hr. intros [E | [E | []]].
    + discriminate E.
    + apply Hr. right. left. cbn [String.append] in E. now inversion E.
Qed.

Lemma concat_snoc (p : list string) (k : string) :
  p <> [] ->
  String.concat ":" (p ++ [k])
  = String.append (String.append (String.concat ":" p) ":") k.
Proof.
  induction p as [| s p IH]; intros Hp; [contradiction |].
  destruct p as [| s' p].
  - simpl. now rewrite append_assoc.
  - change ((s :: s' :: p) ++ [k]) with (s :: ((s' :: p) ++ [k])).
    change (String.concat ":" (s :: (s' :: p) ++ [k]))
      with (String.append s (String.append ":" (String.concat ":" ((s' :: p) ++ [k])))).
    rewrite IH by discriminate.
    change (String.concat ":" (s :: s' :: p))
      with (String.append s (String.append ":" (String.concat ":" (s' :: p)))).
    now rewrite !append_assoc.
Qed.

Lemma leaves_val_actions (val : value) :
  forall p, p <> [] ->
    map action_of (leaves_val (String.concat ":" p) val)
    = map (fun pw => path_action (p ++ fst pw, snd pw)) (rel_paths val).
Proof.
  induction val as [| b | n | s | a | d IH] using value_nested_ind;
    intros p Hp; try (cbn; now rewrite app_nil_r).
  cbn [leaves_val rel_paths].
  induction d as [| [k v] d IHd]; [reflexivity |].
  inversion IH as [| x l Hv Hl]. subst. cbn [snd] in Hv.
  cbn [flat_map fst snd]. rewrite !map_app, (IHd Hl). f_equal.
  rewrite <- (concat_snoc p k Hp), (Hv (p ++ [k])), map_map
    by (destruct p; discriminate).
  apply map_ext. intros pw. cbn [fst snd]. now rewrite <- app_assoc.
Qed.

(** The options [parse_helper] registers.  For defaults without
    repeated keys and without arrays, whose keys have no colon and no
    dash and, at the top, are none of the names the parser keeps for
    itself, [parse_helper] registers one option for every leaf of the
    defaults, in the order of a depth-first traversal: the
    option [--k1:k2:...:kn] for the leaf at the end of the keys [k1],
    [k2], ..., [kn], stored under the name [k1:k2:...:kn], with the leaf
    as its default, or [None] when the leaf is the string ['None']. *)
Theorem parse_helper_registers (D : pydict) :
  wf_dict D -> no_array (VDict D) = true -> plain_keys (VDict D) = true ->
  (forall key, In key (dict_keys D) -> str_in key reserved_names = false) ->
  parse_helper D "" [] = Returns (map path_action (rel_paths (VDict D))).
Proof.
  intros Hw Ha Hk Hres. rewrite (parse_helper_ok D Hw Ha Hk Hres). f_equal.
  unfold leaves. cbn [rel_paths]. clear.
  induction D as [| [k v] D IH]; [reflexivity |].
  cbn [flat_map fst snd]. rewrite !map_app, IH. f_equal.
  change (String.append "" k) with (String.concat ":" [k]).
  rewrite (leaves_val_actions v [k]) by discriminate.
  now rewrite map_map.
Qed.

Lemma parse_helper_registers_witness :
  parse_helper
    [("d1"%string, VDict [("d2"%string, VDict [("n"%string, VInt 10)])]);
     ("tag"%string, VStr "None")]
    "" []
  = Returns [{| option_string := Some "--d1:d2:n"%string; dest := "d1:d2:n";
                default := VInt 10; required := false |};
             {| option_string := Some "--tag"%string; dest := "tag";
                default := VNone; required := false |}].
Proof.
  apply (parse_helper_registers
           [("d1"%string, VDict [("d2"%string, VDict [("n"%string, VInt 10)])]);
            ("tag"%string, VStr "None")]).
  - apply wf_value_b_sound. reflexivity.
  - reflexivity.
  - reflexivity.
  - intros key Hin. simpl in Hin.
    repeat (destruct Hin as [<- | Hin]; [reflexivity |]). contradiction.
Defined.

(** The defaults come back from an empty command line.  For defaults
    without repeated keys and without arrays, whose keys have no colon
    and no dash and, at the top, are none of the names the parser keeps
    for itself, [parse_command_line] returns the dictionary of the
    defaults, in the same order, with [None] for every string ['None']
    and without the nested dictionaries below which there is no leaf; it
    is the dictionary of the defaults itself when there are no such
    strings and no such dictionaries. *)
Theorem parse_command_line_defaults (default_hps : pydict) :
  wf_dict default_hps ->
  no_array (VDict default_hps) = true ->
  plain_keys (VDict default_hps) = true ->
  (forall key, In key (dict_keys default_hps) -> str_in key reserved_names = false) ->
  snd (parse_command_line default_hps) = Returns (VDict (parsed_dict default_hps)) /\
  (settled_dict default_hps = true ->
   snd (parse_command_line default_hps) = Returns (VDict default_hps)).
Proof.
  intros Hw Ha Hk Hres.
  assert (Hmain : snd (parse_command_line default_hps)
                  = Returns (VDict (parsed_dict default_hps))).
  { pose proof (leaves_good default_hps Hk Ha Hres) as Hgood.
    pose proof (leaves_nodup default_hps Hw Hk) as Hnd.
    unfold parse_command_line.
    rewrite (parse_helper_ok default_hps Hw Ha Hk Hres).
    cbn [cbind]. rewrite parse_args_ok; [| exact Hnd |].
    - cbn [snd]. rewrite reconstruct_helper_paths, add_paths_add_all, map_map.
      cbn [fst snd]. rewrite (leaves_paths default_hps Hk).
      rewrite (add_all_rel_paths (VDict default_hps) Hw default_hps eq_refl []
                 (fun _ _ => eq_refl)).
      reflexivity.
    - intros leaf Hin. rewrite Forall_forall in Hgood.
      destruct (Hgood leaf Hin) as [_ [_ Hr]].
      apply str_in_not_In. apply str_in_not_In in Hr.
      intros Hc. apply Hr. right. now right. }
  split; [exact Hmain |].
  intros Hs. now rewrite Hmain, (parsed_dict_settled _ Hs).
Qed.

Lemma parse_command_line_defaults_witness :
  snd (parse_command_line
         [("lr"%string, VInt 1);
          ("model"%string, VDict [("n"%string, VInt 2); ("name"%string, VStr "x")]);
          ("run"%string, VBool true)])
  = Returns (VDict
         [("lr"%string, VInt 1);
          ("model"%string, VDict [("n"%string, VInt 2); ("name"%string, VStr "x")]);
          ("run"%string, VBool true)]).
Proof.
  apply parse_command_line_defaults.
  - apply wf_value_b_sound. reflexivity.
  - reflexivity.
  - reflexivity.
  - intros key Hin. simpl in Hin.
    repeat (destruct Hin as [<- | Hin]; [reflexivity |]). contradiction.
  - reflexivity.
Defined.

(* ===================================================================== *)
(** * The Hashed Subset inside the effective configuration *)
(* ===================================================================== *)

(** The Hashed Subset is part of the effective configuration.  After a
    successful construction from dictionaries without repeated keys, the
    overrides in an object of their own and no hyperparameter named like
    one of the two private dictionaries, every item of the Hashed Subset
    comes from an override, is an item of the effective configuration,
    and is the value of the attribute of its name. *)
Theorem hashed_subset_in_configuration (a_in a_hash a_non : nat) (hash_len : Z)
    (verbose : bool) (h : heap) (self : pydict) :
  a_in <> a_hash ->
  NoDup (dict_keys (h a_in)) -> NoDup (dict_keys (h a_hash)) ->
  dict_mem "_hash_hps_as_dict" (dict_update (h a_hash) (h a_non)) = false ->
  dict_mem "_all_hps_as_dict" (dict_update (h a_hash) (h a_non)) = false ->
  fst (__init__ (Some a_in) (Some a_hash) (Some a_non) hash_len verbose h) = Ok self ->
  exists all_hps hash_hps,
    getattr self "_all_hps_as_dict" = Ok (VDict all_hps) /\
    getattr self "_hash_hps_as_dict" = Ok (VDict hash_hps) /\
    forall key val,
      dict_get key hash_hps = Some val ->
      dict_mem key (h a_in) = true /\
      dict_get key all_hps = Some val /\
      getattr self key = Ok val.
Proof.
  intros Hne Hni Hnh Hn1 Hn2 Hinit.
  destruct (init_effective _ _ _ _ _ _ _ Hne Hni Hnh Hinit)
    as [all_hps [hash_hps [Hself [Ek [Hnd Hget]]]]].
  destruct (init_ok_inv _ _ _ _ _ _ _ Hinit)
    as [a_in' [a_hash' [a_non' [all' [hash' [E1 [E2 [E3 [Hf [Hp [_ Hself']]]]]]]]]]].
  inversion E1. inversion E2. inversion E3. subst a_in' a_hash' a_non'.
  clear E1 E2 E3.
  assert (Eh : hash' = hash_hps /\ all' = all_hps).
  { rewrite Hself in Hself'.
    assert (Ea : dict_get "_all_hps_as_dict"
                   (dict_update (fresh_self hash_len verbose all_hps hash_hps) all_hps)
                 = dict_get "_all_hps_as_dict"
                     (dict_update (fresh_self hash_len verbose all' hash') all'))
      by now rewrite Hself'.
    assert (Eb : dict_get "_hash_hps_as_dict"
                   (dict_update (fresh_self hash_len verbose all_hps hash_hps) all_hps)
                 = dict_get "_hash_hps_as_dict"
                     (dict_update (fresh_self hash_len verbose all' hash') all'))
      by now rewrite Hself'.
    assert (Hm : forall name all hash,
               dict_keys all = dict_keys (dict_update (h a_hash) (h a_non)) ->
               dict_mem name (dict_update (h a_hash) (h a_non)) = false ->
               dict_get name (dict_update (fresh_self hash_len verbose all hash) all)
               = dict_get name (fresh_self hash_len verbose all hash)).
    { intros name all hash Ekeys Hm. apply update_get_other.
      now rewrite (dict_mem_keys_eq _ _ _ Ekeys). }
    assert (Ek' : dict_keys all' = dict_keys (dict_update (h a_hash) (h a_non))).
    { apply Nat.eqb_neq in Hne.
      assert (Em : store h a_hash (dict_update (h a_hash) (h a_non)) a_hash
                   = dict_update (h a_hash) (h a_non))
        by (unfold store; now rewrite Nat.eqb_refl).
      rewrite (parse_loop_all_keys _ _ _ _ _ _ _ _ Hp (eq_sym Em)). reflexivity. }
    rewrite !Hm in Ea by assumption. rewrite !Hm in Eb by assumption.
    inversion Ea. inversion Eb. now split. }
  destruct Eh as [-> ->].
  apply Nat.eqb_neq in Hne.
  set (m := dict_update (h a_hash) (h a_non)) in *.
  assert (Ei : store h a_hash m a_in = h a_in) by (unfold store; now rewrite Hne).
  rewrite Ei in Hp.
  exists all_hps, hash_hps. rewrite Hself. split; [| split].
  - unfold getattr. rewrite update_get_other; [reflexivity |].
    now rewrite (dict_mem_keys_eq _ _ _ Ek).
  - unfold getattr. rewrite update_get_other; [reflexivity |].
    now rewrite (dict_mem_keys_eq _ _ _ Ek).
  - intros key val Hk.
    apply (parse_loop_hashed _ _ _ _ _ _ _ Hp Hni (fun _ _ => eq_refl)) in Hk.
    destruct Hk as [Hk | [v [dflt [Hv [-> _]]]]]; [discriminate |].
    assert (Hall : dict_get key all_hps = Some (override_value v))
      by now rewrite Hget, Hv.
    split; [unfold dict_mem; now rewrite Hv |]. split; [exact Hall |].
    unfold getattr. rewrite update_get_present; [now rewrite Hall | exact Hnd |].
    unfold dict_mem. now rewrite Hall.
Qed.

Lemma hashed_subset_in_configuration_witness :
  exists self all_hps hash_hps,
    fst (__init__ (Some 0%nat) (Some 1%nat) (Some 2%nat) 10 false example_heap) = Ok self /\
    getattr self "_all_hps_as_dict" = Ok (VDict all_hps) /\
    getattr self "_hash_hps_as_dict" = Ok (VDict hash_hps) /\
    forall key val,
      dict_get key hash_hps = Some val ->
      dict_get key all_hps = Some val /\ getattr self key = Ok val.
Proof.
  eexists.
  destruct (hashed_subset_in_configuration 0%nat 1%nat 2%nat 10 false example_heap _
              ltac:(discriminate)
              ltac:(apply nodup_keys_NoDup; reflexivity)
              ltac:(apply nodup_keys_NoDup; reflexivity)
              eq_refl eq_refl eq_refl)
    as [all_hps [hash_hps [H1 [H2 H3]]]].
  exists all_hps, hash_hps. split; [reflexivity |]. split; [exact H1 |].
  split; [exact H2 |]. intros key val Hk. destruct (H3 key val Hk) as [_ H]. exact H.
Defined.

(* ===================================================================== *)
(** * The order of the defaults *)
(* ===================================================================== *)

(** The loop of [_parse] against two stores whose merged defaults hold
    the same values under the same keys: the same exception, or the same
    Hashed Subset. *)
Lemma parse_loop_lookup_ext (h1 h2 : heap) (a : nat) (items hps1 hps2 hth : pydict) :
  (forall k, dict_get k (h1 a) = dict_get k (h2 a)) ->
  match parse_loop h1 a a items hps1 hth, parse_loop h2 a a items hps2 hth with
  | Ok (_, hash1), Ok (_, hash2) => hash1 = hash2
  | Raise e1, Raise e2 => e1 = e2
  | _, _ => False
  end.
Proof.
  intros Hh. revert hps1 hps2 hth.
  induction items as [| [key val] items IH]; intros hps1 hps2 hth; simpl;
    [reflexivity |].
  destruct (truth_eq val (VStr "None")) as [is_none | e]; cbn [bind];
    [| reflexivity].
  unfold dict_mem. rewrite (Hh key).
  destruct (dict_get key (h2 a)) as [dflt |]; [| reflexivity].
  destruct (np_all_ne (if is_none then VNone else val) dflt) as [nd | e];
    cbn [bind]; [apply IH | reflexivity].
Qed.

Lemma wf_dict_update (d other : pydict) :
  wf_dict d -> wf_dict other -> wf_dict (dict_update d other).
Proof.
  unfold dict_update. revert d.
  induction other as [| [k v] other IH]; intros d Hd Ho; [exact Hd |].
  apply wf_dict_cons in Ho. destruct Ho as [_ [Hv Ho]].
  simpl. apply IH; [| exact Ho]. now apply wf_dict_set.
Qed.

Lemma wf_override_items (items : pydict) : wf_dict items -> wf_dict (override_items items).
Proof.
  rewrite !wf_dict_forall. intros [Hn Hf]. split.
  - now rewrite override_items_keys.
  - unfold override_items. rewrite Forall_map. eapply Forall_impl; [| exact Hf].
    intros kv H. now apply wf_override.
Qed.

Lemma first_refused_none_iff (d : pydict) :
  first_refused d = None <-> forall k, In k (dict_keys d) -> setattr_refused k = None.
Proof.
  induction d as [| [k v] d IH]; simpl.
  - split; [intros _ k [] | reflexivity].
  - destruct (setattr_refused k) eqn:E.
    + split; [discriminate |]. intros H. rewrite <- E. apply H. now left.
    + rewrite IH. split.
      * intros H k' [<- | Hin]; [exact E | now apply H].
      * intros H k' Hin. apply H. now right.
Qed.

Lemma same_lookups_same_content (d1 d2 : pydict) :
  (forall k, dict_get k d1 = dict_get k d2) -> same_content (VDict d1) (VDict d2).
Proof.
  intros H. apply sc_dict.
  - intros k. now rewrite H.
  - intros k v1 v2 H1 H2. rewrite H in H1.
    assert (E : v1 = v2) by congruence. rewrite E. apply sc_refl.
Qed.

Lemma get_hash_all_hps_same_digest (s1 s2 d1 d2 : pydict) :
  (forall n, In n get_hash_all_hps_names -> n <> "_all_hps_as_dict"%string ->
             dict_get n s1 = dict_get n s2) ->
  dict_get "_all_hps_as_dict" s1 = Some (VDict d1) ->
  dict_get "_all_hps_as_dict" s2 = Some (VDict d2) ->
  _generate_hash d1 = _generate_hash d2 ->
  get_hash_all_hps s1 = get_hash_all_hps s2.
Proof.
  intros H E1 E2 Hd.
  unfold get_hash_all_hps, hash_of_attr, call_generate_hash, method, getattr, dict_mem.
  rewrite E1, E2.
  rewrite !H by (simpl; try tauto; discriminate).
  repeat match goal with
         | |- context [match dict_get ?n s2 with _ => _ end] =>
             destruct (dict_get n s2); cbn [bind]; try reflexivity
         end;
    now rewrite Hd.
Qed.

Lemma fresh_self_get_all (name : string) (hash_len : Z) (verbose : bool)
    (all1 all2 hash : pydict) :
  name <> "_all_hps_as_dict"%string ->
  dict_get name (fresh_self hash_len verbose all1 hash)
  = dict_get name (fresh_self hash_len verbose all2 hash).
Proof.
  intros Hne. apply String.eqb_neq in Hne. unfold fresh_self. simpl.
  now rewrite Hne.
Qed.

(** The order of the defaults does not matter.  When a construction
    succeeds, so does the construction from default dictionaries that
    hold the same items in another order; the two objects have the same
    attributes but for the order in which the effective configuration
    holds its items; and the two fingerprints are the same. *)
Theorem default_order_irrelevant (a_in a_hash a_non : nat) (hash_len : Z)
    (verbose : bool) (h : heap) (hash_hps' non_hash_hps' self : pydict) :
  a_in <> a_hash -> a_in <> a_non -> a_hash <> a_non ->
  wf_dict (h a_in) -> wf_dict (h a_hash) -> wf_dict (h a_non) ->
  Permutation (h a_hash) hash_hps' -> Permutation (h a_non) non_hash_hps' ->
  fst (__init__ (Some a_in) (Some a_hash) (Some a_non) hash_len verbose h) = Ok self ->
  exists self',
    fst (__init__ (Some a_in) (Some a_hash) (Some a_non) hash_len verbose
           (store (store h a_hash hash_hps') a_non non_hash_hps')) = Ok self' /\
    (forall name, name <> "_all_hps_as_dict"%string ->
                  getattr self' name = getattr self name) /\
    get_hash self' = get_hash self /\
    get_hash_all_hps self' = get_hash_all_hps self.
Proof.
  intros Hih Hin Hhn Hwi Hwh Hwn Hph Hpn Hinit.
  destruct (init_ok_inv _ _ _ _ _ _ _ Hinit)
    as [a_in' [a_hash' [a_non' [all1 [hash1 [E1 [E2 [E3 [Hf [Hp [Hr ->]]]]]]]]]]].
  inversion E1. inversion E2. inversion E3. subst a_in' a_hash' a_non'.
  clear E1 E2 E3.
  apply Nat.eqb_neq in Hih. apply Nat.eqb_neq in Hin. apply Nat.eqb_neq in Hhn.
  set (m1 := dict_update (h a_hash) (h a_non)) in *.
  set (m2 := dict_update hash_hps' non_hash_hps').
  set (h' := store (store h a_hash hash_hps') a_non non_hash_hps').
  assert (E'h : h' a_hash = hash_hps').
  { unfold h', store. rewrite Hhn. now rewrite Nat.eqb_refl. }
  assert (E'n : h' a_non = non_hash_hps') by (unfold h', store; now rewrite Nat.eqb_refl).
  assert (Ei1 : store h a_hash m1 a_in = h a_in) by (unfold store; now rewrite Hih).
  assert (Ei2 : store h' a_hash m2 a_in = h a_in).
  { unfold store at 1. rewrite Hih. unfold h', store. now rewrite Hin, Hih. }
  assert (Em1 : store h a_hash m1 a_hash = m1) by (unfold store; now rewrite Nat.eqb_refl).
  assert (Em2 : store h' a_hash m2 a_hash = m2)
    by (unfold store at 1; now rewrite Nat.eqb_refl).
  rewrite Ei1 in Hp.
  pose proof (wf_value_keys _ Hwi) as Hni.
  pose proof (wf_value_keys _ Hwh) as Hnh.
  pose proof (wf_value_keys _ Hwn) as Hnn.
  pose proof (wf_dict_perm _ _ Hwh Hph) as Hwh'.
  pose proof (wf_dict_perm _ _ Hwn Hpn) as Hwn'.
  (* the merged defaults hold the same values *)
  assert (Hm : forall k, dict_get k m1 = dict_get k m2).
  { intros k. unfold m1, m2.
    rewrite !update_get_nodup by (try exact Hnn; apply (wf_value_keys _ Hwn')).
    now rewrite (dict_get_perm k _ _ Hnn Hpn), (dict_get_perm k _ _ Hnh Hph). }
  (* the disjointness check *)
  assert (Hf' : find (fun k => dict_mem k hash_hps') (dict_keys non_hash_hps') = None).
  { apply find_none_iff. intros x Hx. rewrite find_none_iff in Hf.
    unfold dict_mem. rewrite <- (dict_get_perm x _ _ Hnh Hph).
    apply Hf. unfold dict_keys in *.
    eapply Permutation_in; [| exact Hx].
    apply Permutation_sym. now apply Permutation_map. }
  (* the loop over the overrides *)
  pose proof (parse_loop_lookup_ext (store h a_hash m1) (store h' a_hash m2) a_hash
                (h a_in) m1 m2 []) as Hloop.
  rewrite Em1, Em2 in Hloop. specialize (Hloop Hm). rewrite Hp in Hloop.
  destruct (parse_loop (store h' a_hash m2) a_hash a_hash (h a_in) m2 [])
    as [[all2 hash2] | e] eqn:Hp2; [| contradiction].
  subst hash2.
  destruct (parse_loop_all _ _ _ _ _ _ _ _ Hp) as [Hall1 Hkeys1].
  destruct (parse_loop_all _ _ _ _ _ _ _ _ Hp2) as [Hall2 Hkeys2].
  rewrite Em1 in Hkeys1. rewrite Em2 in Hkeys2.
  assert (Hni' : NoDup (dict_keys (override_items (h a_in))))
    by now rewrite override_items_keys.
  assert (Hall : forall k, dict_get k all2 = dict_get k all1).
  { intros k. rewrite Hall1, Hall2, !update_get_nodup by exact Hni'.
    now rewrite Hm. }
  assert (Hw1 : wf_dict all1).
  { rewrite Hall1. apply wf_dict_update; [now apply wf_dict_update |].
    now apply wf_override_items. }
  assert (Hw2 : wf_dict all2).
  { rewrite Hall2. apply wf_dict_update; [now apply wf_dict_update |].
    now apply wf_override_items. }
  assert (Hr2 : first_refused all2 = None).
  { apply first_refused_none_iff. intros k Hk.
    apply (proj1 (first_refused_none_iff all1) Hr).
    apply dict_mem_In. apply dict_mem_In in Hk. unfold dict_mem in *.
    now rewrite <- Hall. }
  exists (dict_update (fresh_self hash_len verbose all2 hash1) all2).
  split.
  { apply init_ok_intro; rewrite ?E'h, ?E'n; fold m2; [exact Hf' | | exact Hr2].
    now rewrite Ei2. }
  assert (Hattr : forall name, name <> "_all_hps_as_dict"%string ->
            dict_get name (dict_update (fresh_self hash_len verbose all2 hash1) all2)
            = dict_get name (dict_update (fresh_self hash_len verbose all1 hash1) all1)).
  { intros name Hne.
    rewrite !update_get_nodup by (apply wf_value_keys; assumption).
    rewrite Hall. now rewrite (fresh_self_get_all name _ _ all2 all1). }
  split; [intros name Hne; unfold getattr; now rewrite Hattr |].
  split.
  - apply get_hash_ext. intros n Hn. apply Hattr.
    simpl in Hn. repeat (destruct Hn as [<- | Hn]; [discriminate |]). contradiction.
  - destruct (dict_get "_all_hps_as_dict" all1) as [v |] eqn:Emem.
    + apply get_hash_all_hps_ext. intros n _.
      rewrite !update_get_nodup by (apply wf_value_keys; assumption).
      rewrite Hall.
      destruct (String.eqb n "_all_hps_as_dict") eqn:En.
      * apply String.eqb_eq in En. subst n. now rewrite Emem.
      * apply String.eqb_neq in En.
        now rewrite (fresh_self_get_all n _ _ all2 all1).
    + apply (get_hash_all_hps_same_digest _ _ all2 all1).
      * intros n _ Hne. now apply Hattr.
      * rewrite update_get_nodup by (apply wf_value_keys; assumption).
        now rewrite Hall, Emem.
      * rewrite update_get_nodup by (apply wf_value_keys; assumption).
        now rewrite Emem.
      * unfold _generate_hash. f_equal.
        apply (same_content_str_val (VDict all2) (VDict all1));
          [now apply same_lookups_same_content | exact Hw2 | exact Hw1].
Qed.

Lemma default_order_irrelevant_witness :
  exists self self',
    fst (__init__ (Some 0%nat) (Some 1%nat) (Some 2%nat) 10 false example_heap) = Ok self /\
    fst (__init__ (Some 0%nat) (Some 1%nat) (Some 2%nat) 10 false
           (store (store example_heap 1%nat
                     [("depth"%string, VInt 3); ("lr"%string, VInt 1)])
                  2%nat [("logDir"%string, VStr "/tmp")]))
    = Ok self' /\
    get_hash self' = get_hash self /\
    get_hash_all_hps self' = get_hash_all_hps self.
Proof.
  eexists.
  destruct (default_order_irrelevant 0%nat 1%nat 2%nat 10 false example_heap
              [("depth"%string, VInt 3); ("lr"%string, VInt 1)]
              [("logDir"%string, VStr "/tmp")] _
              ltac:(discriminate) ltac:(discriminate) ltac:(discriminate)
              ltac:(apply wf_value_b_sound; reflexivity)
              ltac:(apply wf_value_b_sound; reflexivity)
              ltac:(apply wf_value_b_sound; reflexivity)
              (perm_swap _ _ []) (Permutation_refl _)
              eq_refl)
    as [self' [H1 [_ [H2 H3]]]].
  exists self'. split; [reflexivity |]. split; [exact H1 |]. split; assumption.
Defined.

(* ===================================================================== *)
(** * When the construction succeeds *)
(* ===================================================================== *)

(** When the construction succeeds.  Given three dictionaries of plain
    values, the overrides in an object of their own, [__init__] returns
    exactly when no non-hashed default is also a hashed default, every
    override key has a default, and no default is named [__class__] or
    [__weakref__], the two names [setattr] does not accept. *)
Theorem init_succeeds_iff (a_in a_hash a_non : nat) (hash_len : Z) (verbose : bool)
    (h : heap) :
  a_in <> a_hash ->
  plain_dict (h a_in) = true -> plain_dict (h a_hash) = true ->
  plain_dict (h a_non) = true ->
  (is_ok (fst (__init__ (Some a_in) (Some a_hash) (Some a_non) hash_len verbose h)) = true
   <->
   (forall k, In k (dict_keys (h a_non)) -> dict_mem k (h a_hash) = false) /\
   (forall k, In k (dict_keys (h a_in)) ->
              dict_mem k (h a_hash) || dict_mem k (h a_non) = true) /\
   (forall k, dict_mem k (h a_hash) || dict_mem k (h a_non) = true ->
              setattr_refused k = None)).
Proof.
  intros Hne Hpi Hph Hpn. apply Nat.eqb_neq in Hne.
  unfold __init__, _parse.
  destruct (find (fun k => dict_mem k (h a_hash)) (dict_keys (h a_non)))
    as [k0 |] eqn:Ef.
  - simpl. split; [discriminate |]. intros [Hd _].
    apply find_some in Ef. destruct Ef as [Hin Hm].
    rewrite (Hd k0 Hin) in Hm. discriminate.
  - set (m := dict_update (h a_hash) (h a_non)).
    assert (Ei : store h a_hash m a_in = h a_in) by (unfold store; now rewrite Hne).
    assert (Eh : store h a_hash m a_hash = m)
      by (unfold store; now rewrite Nat.eqb_refl).
    rewrite Ei, Eh.
    pose proof (parse_loop_outcome (store h a_hash m) a_hash a_hash (h a_in) m []) as Ho.
    rewrite Eh in Ho.
    specialize (Ho Hpi (plain_dict_update _ _ Hph Hpn)).
    rewrite find_none_iff in Ef.
    destruct (find (fun kv => negb (dict_mem (fst kv) m)) (h a_in)) as [kv |] eqn:Eu.
    + rewrite Ho. simpl. split; [discriminate |]. intros [_ [Hk _]].
      apply find_some in Eu. destruct Eu as [Hin Hm].
      unfold m in Hm. rewrite dict_mem_update in Hm.
      rewrite (Hk (fst kv)) in Hm; [discriminate |].
      unfold dict_keys. now apply in_map.
    + destruct Ho as [[all_hps hash_hps] Ho]. rewrite Ho. cbn [fst].
      change (dict_set "_hash_hps_as_dict" (VDict hash_hps)
                (dict_set "_all_hps_as_dict" (VDict all_hps)
                   (dict_set "_verbose" (VBool verbose)
                      (dict_set "_hash_len" (VInt hash_len) []))))
        with (fresh_self hash_len verbose all_hps hash_hps).
      rewrite setattrs_spec.
      pose proof (parse_loop_all_keys _ _ _ _ _ _ _ _ Ho (eq_sym Eh)) as Ek.
      assert (Hkeys : forall k, In k (dict_keys (h a_in)) ->
                dict_mem k (h a_hash) || dict_mem k (h a_non) = true).
      { intros k Hk. rewrite find_none_iff in Eu.
        unfold dict_keys in Hk. apply in_map_iff in Hk.
        destruct Hk as [kv [<- Hin]]. specialize (Eu kv Hin).
        apply negb_false_iff in Eu. unfold m in Eu.
        now rewrite dict_mem_update in Eu. }
      assert (Hall : first_refused all_hps = None <->
                forall k, dict_mem k (h a_hash) || dict_mem k (h a_non) = true ->
                          setattr_refused k = None).
      { rewrite first_refused_none_iff, Ek. unfold m. split.
        - intros H k Hk. apply H. apply dict_mem_In. now rewrite dict_mem_update.
        - intros H k Hk. apply H. apply dict_mem_In in Hk.
          now rewrite dict_mem_update in Hk. }
      destruct (first_refused all_hps) as [e |]; simpl.
      * split; [discriminate |]. intros [_ [_ H]].
        apply Hall in H. discriminate.
      * split; [| reflexivity]. intros _.
        split; [exact Ef |]. split; [exact Hkeys |]. now apply Hall.
Qed.

Lemma init_succeeds_iff_witness :
  is_ok (fst (__init__ (Some 0%nat) (Some 1%nat) (Some 2%nat) 10 false example_heap))
  = true <->
  (forall k, In k (dict_keys (example_heap 2%nat)) ->
             dict_mem k (example_heap 1%nat) = false) /\
  (forall k, In k (dict_keys (example_heap 0%nat)) ->
             dict_mem k (example_heap 1%nat) || dict_mem k (example_heap 2%nat) = true) /\
  (forall k, dict_mem k (example_heap 1%nat) || dict_mem k (example_heap 2%nat) = true ->
             setattr_refused k = None).
Proof.
  apply init_succeeds_iff; [discriminate | reflexivity | reflexivity | reflexivity].
Defined.

(* ===================================================================== *)
(** * Flat keys without a colon *)
(* ===================================================================== *)

Lemma add_helper_no_colon (d : pydict) (key : string) (val : value) :
  has_colon key = false ->
  add_helper (VDict d) key val = (O, Ok (VDict (dict_set key val d))).
Proof.
  intros Hc. unfold add_helper. destruct (String.length key) as [| n].
  - reflexivity.
  - rewrite add_helper_rec_eq, Hc. reflexivity.
Qed.

(** Nothing to reconstruct.  A flat dictionary without repeated keys
    none of which has a colon is returned by [reconstruct_helper] as it
    is, in the same order, and the debugger is not entered. *)
Theorem reconstruct_flat (D_flat : pydict) :
  NoDup (dict_keys D_flat) ->
  (forall key, In key (dict_keys D_flat) -> has_colon key = false) ->
  reconstruct_helper D_flat = (O, Ok (VDict D_flat)).
Proof.
  intros Hn Hc. unfold reconstruct_helper.
  assert (H : forall acc,
             (forall key, In key (dict_keys D_flat) -> dict_mem key acc = false) ->
             fold_left
               (fun acc kv => D_unflattened <~ acc ;;
                              add_helper D_unflattened (fst kv) (snd kv))
               D_flat (tret (VDict acc))
             = (O, Ok (VDict (acc ++ D_flat)))).
  { induction D_flat as [| [k v] l IH]; intros acc Hfresh.
    - simpl. now rewrite app_nil_r.
    - simpl in Hn. inversion Hn as [| x y Hx Hn']. subst.
      cbn [fold_left fst snd]. unfold tret at 1. cbn [tbind].
      rewrite add_helper_no_colon by (apply Hc; now left).
      rewrite dict_set_absent by (apply Hfresh; now left).
      change (0 + 0, Ok (VDict (acc ++ [(k, v)])))%nat
        with (tret (VDict (acc ++ [(k, v)]))).
      rewrite IH; [now rewrite <- app_assoc | exact Hn' | |].
      + intros key Hin. apply Hc. now right.
      + intros key Hin. rewrite dict_mem_app, (Hfresh key) by now right.
        unfold dict_mem. simpl.
        destruct (String.eqb key k) eqn:E; [| reflexivity].
        apply String.eqb_eq in E. subst key. contradiction. }
  apply (H []). reflexivity.
Qed.

Lemma reconstruct_flat_witness :
  reconstruct_helper [("lr"%string, VInt 1); ("data_hps"%string, VStr "x")]
  = (O, Ok (VDict [("lr"%string, VInt 1); ("data_hps"%string, VStr "x")])).
Proof.
  apply reconstruct_flat.
  - apply nodup_keys_NoDup. reflexivity.
  - intros key Hin. simpl in Hin.
    repeat (destruct Hin as [<- | Hin]; [reflexivity |]). contradiction.
Defined.

(* ===================================================================== *)
(** * Reconstruction from independent keys *)
(* ===================================================================== *)

(** The step of [add_helper] on a key with a colon, when the head of the
    key is a key of the dictionary and when it is not. *)
Lemma add_helper_step (d : pydict) (key dict_name rem_key : string) (val : value) :
  parse_key key = Ok (dict_name, rem_key) ->
  outcome (add_helper (VDict d) key val)
  = match dict_get dict_name d with
    | Some old =>
        sub <- outcome (add_helper old rem_key val) ;;
        Ok (VDict (dict_set dict_name sub d))
    | None =>
        sub <- assign_leaf rem_key val ;;
        Ok (VDict (dict_set dict_name sub d))
    end.
Proof.
  intros Hp.
  assert (Hc : has_colon key = true).
  { unfold has_colon. unfold parse_key in Hp.
    now destruct (find_colon key). }
  destruct (parse_key_split key Hc) as [dn [rk [Hp' [Hs _]]]].
  rewrite Hp in Hp'. inversion Hp'. subst dn rk.
  rewrite !add_helper_path, Hs, assign_leaf_path.
  destruct (split_colon_cons rem_key) as [seg [segs E]].
  rewrite E, add_path_eq. cbn [py_in bind getitem]. unfold dict_mem.
  destruct (dict_get dict_name d) as [old |]; cbn [bind]; [| reflexivity].
  rewrite add_helper_path, E.
  now destruct (add_path old (seg :: segs) val).
Qed.

Lemma leaf_path_apart (p q : list string) (v : value) :
  path_rel p q = Apart -> get_path q (leaf_path p v) = None.
Proof.
  revert q. induction p as [| a p IH]; intros q H; [discriminate |].
  destruct q as [| b q]; [discriminate |].
  rewrite path_rel_cons in H. simpl. rewrite String.eqb_sym.
  destruct (String.eqb a b); [now apply IH | reflexivity].
Qed.

(** Writing at a path leaves alone what is found at the end of a path
    that parts ways with it. *)
Lemma add_path_frame (p q : list string) (D D' val : value) :
  add_path D p val = Ok D' -> path_rel p q = Apart ->
  get_path q D' = get_path q D.
Proof.
  revert D D' q. induction p as [| seg p IH]; intros D D' q H Hq; [discriminate |].
  destruct q as [| b q]; [discriminate |].
  rewrite path_rel_cons in Hq.
  destruct (String.eqb seg b) eqn:Eb.
  - apply String.eqb_eq in Eb. subst b.
    destruct p as [| seg' p]; [discriminate |].
    rewrite add_path_eq in H.
    destruct D as [| | | | | d];
      try (simpl in H; try destruct (String.index 0 seg s); discriminate).
    cbn [py_in bind getitem] in H. unfold dict_mem in H.
    rewrite get_path_cons.
    destruct (dict_get seg d) as [old |] eqn:Eold; cbn [bind] in H.
    + destruct (add_path old (seg' :: p) val) as [sub | e] eqn:Es; [| discriminate].
      cbn [bind setitem] in H. inversion H.
      rewrite get_path_cons, dict_get_set_eq. now apply (IH old sub).
    + cbn [setitem] in H. inversion H.
      rewrite get_path_cons, dict_get_set_eq.
      now apply (leaf_path_apart (seg' :: p)).
  - assert (HD : exists d d', D = VDict d /\ D' = VDict d' /\ dict_get b d' = dict_get b d).
    { destruct p as [| seg' p].
      - simpl in H. destruct D as [| | | | | d]; try discriminate. inversion H.
        exists d. eexists. split; [reflexivity | split; [reflexivity |]].
        apply dict_get_set_ne. intros E. subst. now rewrite String.eqb_refl in Eb.
      - rewrite add_path_eq in H.
        destruct D as [| | | | | d];
          try (simpl in H; try destruct (String.index 0 seg s); discriminate).
        cbn [py_in bind getitem] in H. unfold dict_mem in H.
        destruct (dict_get seg d) as [old |]; cbn [bind] in H.
        + destruct (add_path old (seg' :: p) val) as [sub | e]; [| discriminate].
          cbn [bind setitem] in H. inversion H.
          exists d. eexists. split; [reflexivity | split; [reflexivity |]].
          apply dict_get_set_ne. intros E. subst. now rewrite String.eqb_refl in Eb.
        + cbn [setitem] in H. inversion H.
          exists d. eexists. split; [reflexivity | split; [reflexivity |]].
          apply dict_get_set_ne. intros E. subst. now rewrite String.eqb_refl in Eb. }
    destruct HD as [d [d' [-> [-> Hg]]]]. now rewrite !get_path_cons, Hg.
Qed.

(** The paths of two keys among independent keys part ways. *)
Lemma independent_apart (keys : list string) (k1 k2 : string) :
  independent_keys keys -> In k1 keys -> In k2 keys -> k1 <> k2 ->
  path_rel (split_colon k1) (split_colon k2) = Apart.
Proof.
  intros [_ Hi] H1 H2 Hne.
  destruct (path_rel (split_colon k1) (split_colon k2)) as [r | r |] eqn:E;
    [| | reflexivity]; exfalso.
  - apply path_rel_below in E. apply (Hi k1 k2 H1 H2 Hne). now exists r.
  - apply path_rel_above in E. destruct E as [E _].
    apply (Hi k2 k1 H2 H1); [congruence |]. now exists r.
Qed.

Lemma add_paths_snoc (l : pydict) (k : string) (v : value) :
  add_paths (l ++ [(k, v)]) = (D <- add_paths l ;; add_path D (split_colon k) v).
Proof. unfold add_paths. now rewrite fold_left_app. Qed.

(** After the loop over independent keys, every item is found at the end
    of the path of its key. *)
Lemma add_paths_items (D_flat : pydict) :
  independent_keys (dict_keys D_flat) ->
  forall D, add_paths D_flat = Ok D ->
  forall k v, In (k, v) D_flat -> get_path (split_colon k) D = Some v.
Proof.
  induction D_flat as [| [k0 v0] l IH] using rev_ind; intros Hi D HD k v Hin;
    [contradiction |].
  rewrite add_paths_snoc in HD.
  destruct (add_paths l) as [D1 | e] eqn:E1; [| discriminate]. cbn [bind] in HD.
  assert (Hne : split_colon k0 <> []).
  { destruct (split_colon_cons k0) as [seg [segs E]]. rewrite E. discriminate. }
  assert (Hkeys : dict_keys (l ++ [(k0, v0)]) = dict_keys l ++ [k0]).
  { unfold dict_keys. now rewrite map_app. }
  rewrite Hkeys in Hi.
  assert (Hi' : independent_keys (k0 :: dict_keys l)).
  { eapply independent_keys_perm; [| exact Hi].
    apply Permutation_sym, Permutation_cons_append. }
  apply in_app_or in Hin. destruct Hin as [Hin | [Hin | []]].
  - assert (Hk : In k (dict_keys l)).
    { unfold dict_keys. apply in_map_iff. now exists (k, v). }
    assert (Hkk : k0 <> k).
    { destruct Hi' as [Hn _]. inversion Hn as [| x y Hnotin _]. subst.
      intros ->. contradiction. }
    rewrite (add_path_frame _ _ _ _ _ HD).
    + apply (IH (independent_keys_tail _ _ Hi') D1 eq_refl k v Hin).
    + apply (independent_apart (k0 :: dict_keys l)); simpl; auto.
  - inversion Hin. subst k0 v0. now apply (add_path_lookup _ D1).
Qed.

(** What the items written over the empty dictionary show at a path that
    is not empty lies on the path of a key, or beyond it. *)
Lemma expected_something (done : pydict) (q : list string) :
  expected empty_view done q <> Nothing -> q <> [] ->
  exists k v, In (k, v) done /\
              (is_prefix q (split_colon k) \/ is_prefix (split_colon k) q).
Proof.
  intros H Hq. induction done as [| [k v] done IH].
  - destruct q; [contradiction | now contradiction H].
  - cbn [expected] in H.
    destruct (path_rel (split_colon k) q) as [r | r |] eqn:E.
    + apply path_rel_below in E. exists k, v. split; [now left |].
      right. now exists r.
    + apply path_rel_above in E. destruct E as [E _].
      exists k, v. split; [now left |]. left. now exists r.
    + destruct (IH H) as [k' [v' [Hin Hp]]]. exists k', v'. split; [now right | exact Hp].
Qed.

(** The loop of [reconstruct_helper] over independent keys returns a
    dictionary that holds every value at the end of the path of its key
    and nothing off the paths of the keys. *)
Lemma reconstruct_items (D_flat : pydict) :
  independent_keys (dict_keys D_flat) ->
  exists D,
    outcome (reconstruct_helper D_flat) = Ok D /\
    (forall k v, In (k, v) D_flat -> get_path (split_colon k) D = Some v) /\
    (forall q w, get_path q D = Some w -> q <> [] ->
       exists k v, In (k, v) D_flat /\
                   (is_prefix q (split_colon k) \/ is_prefix (split_colon k) q)).
Proof.
  intros Hi. destruct (reconstruct_view D_flat Hi) as [D [HD Hv]].
  exists D. split; [exact HD |]. split.
  - apply (add_paths_items D_flat Hi). now rewrite <- reconstruct_helper_paths.
  - intros q w Hg Hq.
    destruct (expected_something (rev D_flat) q) as [k [v [Hin Hp]]].
    + rewrite <- Hv, Hg. now destruct w.
    + exact Hq.
    + exists k, v. split; [now apply in_rev | exact Hp].
Qed.

(** No debugger stop without a segment [data_hps]. *)
Lemma reconstruct_helper_no_stop (D_flat : pydict) :
  (forall k, In k (dict_keys D_flat) -> ~ In "data_hps"%string (split_colon k)) ->
  stops (reconstruct_helper D_flat) = O.
Proof.
  unfold reconstruct_helper.
  assert (H : forall acc : traced value,
             stops acc = O ->
             (forall k, In k (dict_keys D_flat) ->
                        ~ In "data_hps"%string (split_colon k)) ->
             stops (fold_left
                      (fun acc kv => D <~ acc ;; add_helper D (fst kv) (snd kv))
                      D_flat acc) = O).
  { induction D_flat as [| [k v] l IH]; intros acc Hacc Hk; [exact Hacc |].
    simpl. apply IH.
    - rewrite stops_tbind, Hacc. destruct (outcome acc); [| reflexivity].
      simpl. apply add_helper_rec_no_stop; [lia |]. apply Hk. now left.
    - intros k' Hin. apply Hk. now right. }
  intros Hk. now apply H.
Qed.

Lemma traced_eq {A : Type} (m : traced A) (n : nat) (r : result A) :
  stops m = n -> outcome m = r -> m = (n, r).
Proof. destruct m. simpl. now intros -> ->. Qed.

(** C5. [add_helper] splits a key at its first colon and descends into the
    dictionary already stored under the head of the key, or stores the
    nested dictionary of the rest of the key when the head is new; this
    makes it the insertion of the value at the path that the segments of
    the key spell.  For flat keys that encode independent paths,
    [reconstruct_helper] returns a dictionary that holds the value of
    every item at the end of the path of its key, and in which every
    path that leads anywhere lies on the path of a key or goes on beyond
    it into the value of that key; so every order of the items is
    reconstructed to dictionaries with the same content.  The results are
    the ones reached when every stop in the debugger is left with
    [continue]; when no segment of a key is [data_hps] there is no such
    stop.  The flat keys a:b:c, a:b:d and a:e with the values 1, 2 and 3
    give, in every order and without a stop, a dictionary with the
    content of [{a: {b: {c: 1, d: 2}, e: 3}}]. *)
Theorem reconstruct_order_independent :
  (forall d key dict_name rem_key val,
      parse_key key = Ok (dict_name, rem_key) ->
      outcome (add_helper (VDict d) key val)
      = match dict_get dict_name d with
        | Some old =>
            sub <- outcome (add_helper old rem_key val) ;;
            Ok (VDict (dict_set dict_name sub d))
        | None =>
            sub <- assign_leaf rem_key val ;;
            Ok (VDict (dict_set dict_name sub d))
        end) /\
  (forall D key val,
      outcome (add_helper D key val) = add_path D (split_colon key) val) /\
  (forall D_flat,
      independent_keys (dict_keys D_flat) ->
      exists D,
        outcome (reconstruct_helper D_flat) = Ok D /\
        (forall k v, In (k, v) D_flat -> get_path (split_colon k) D = Some v) /\
        (forall q w, get_path q D = Some w -> q <> [] ->
           exists k v, In (k, v) D_flat /\
                       (is_prefix q (split_colon k) \/ is_prefix (split_colon k) q))) /\
  (forall D_flat D_flat',
      independent_keys (dict_keys D_flat) ->
      Permutation D_flat D_flat' ->
      exists D D',
        outcome (reconstruct_helper D_flat) = Ok D /\
        outcome (reconstruct_helper D_flat') = Ok D' /\
        same_content D D') /\
  (forall D_flat,
      (forall k, In k (dict_keys D_flat) -> ~ In "data_hps"%string (split_colon k)) ->
      stops (reconstruct_helper D_flat) = O) /\
  (forall D_flat,
      Permutation flat_example D_flat ->
      exists D,
        reconstruct_helper D_flat = (O, Ok D) /\
        same_content nested_example D).
Proof.
  split; [exact add_helper_step |].
  split; [exact add_helper_path |].
  split; [exact reconstruct_items |].
  split; [exact reconstruct_permutation |].
  split; [exact reconstruct_helper_no_stop |].
  intros D_flat Hp.
  destruct (reconstruct_permutation flat_example D_flat) as [D [D' [H [H' Hs]]]].
  - apply independent_keys_b_sound. reflexivity.
  - exact Hp.
  - exists D'. split.
    + apply traced_eq; [| exact H'].
      apply reconstruct_helper_no_stop. intros k Hk.
      apply (Permutation_in k (Permutation_map fst (Permutation_sym Hp))) in Hk.
      simpl in Hk.
      repeat (destruct Hk as [Hk | Hk];
              [subst k; simpl; intros Hd;
               repeat (destruct Hd as [Hd | Hd]; [discriminate |]); contradiction |]).
      contradiction.
    + assert (E : D = nested_example).
      { vm_compute in H. now inversion H. }
      now rewrite <- E.
Qed.

Lemma reconstruct_order_independent_witness :
  (exists D,
     outcome (reconstruct_helper flat_example) = Ok D /\
     get_path ["a"; "b"; "c"]%string D = Some (VInt 1) /\
     get_path ["a"; "e"]%string D = Some (VInt 3)) /\
  (exists D D',
     outcome (reconstruct_helper flat_example) = Ok D /\
     outcome (reconstruct_helper (rev flat_example)) = Ok D' /\
     same_content D D') /\
  stops (reconstruct_helper flat_example) = O.
Proof.
  pose proof reconstruct_order_independent as [_ [_ [Hitems [Hperm [Hstops _]]]]].
  assert (Hi : independent_keys (dict_keys flat_example))
    by (apply independent_keys_b_sound; reflexivity).
  split; [| split].
  - destruct (Hitems flat_example Hi) as [D [HD [Hin _]]].
    exists D. split; [exact HD |]. split.
    + apply (Hin "a:b:c"%string). simpl. tauto.
    + apply (Hin "a:e"%string). simpl. tauto.
  - apply Hperm; [exact Hi | apply Permutation_rev].
  - apply Hstops. intros k Hk. simpl in Hk.
    repeat (destruct Hk as [Hk | Hk];
            [subst k; simpl; intros Hd;
             repeat (destruct Hd as [Hd | Hd]; [discriminate |]); contradiction |]).
    contradiction.
Defined.
